(** * Mental Load Assistant: the task store and the calendar reconciler

    A shallow embedding of
      custom_components/mental_load_assistant/task_manager.py
      custom_components/mental_load_assistant/coordinator.py
    with the offline path of ai_client.py and the duration helpers of
    config_flow.py, and the properties proved over it.

    Conventions of the embedding.
    - A Python [str] is a [string], the bytes of its UTF-8 encoding, on
      which equality and lexicographic order are those of the code points;
      [None]-able values are [option]s.
    - A [datetime] is kept as the UTC instant it denotes, in microseconds
      since the epoch: every due value the manager stores went through
      [dt_util.as_utc], and aware datetimes compare by instant.
    - [self._tasks] is an insertion-ordered association list, because
      [iter_items] sorts [dict.values()] with a stable sort; the other three
      dictionaries are only read by key and are finite maps.
    - [uuid.uuid4()], the planner, [isoformat], [str.lower] and the text of
      a date inside an f-string belong to the runtime, not to this
      repository: they are variables of the sections below. *)

From stdpp Require Import gmap strings list fin_maps sorting.
From Stdlib Require Import ZArith Ascii.

Local Open Scope Z_scope.

(** ** Values *)

Inductive TodoItemStatus := NEEDS_ACTION | IN_PROGRESS | COMPLETED.

#[global] Instance TodoItemStatus_eq_dec : EqDecision TodoItemStatus.
Proof. solve_decision. Defined.

(** The dictionary stored in [TodoItem.extra]; it always has the keys
    ATTR_SOURCE, ATTR_PARENT_UID and ATTR_MENTAL_LOAD. *)
Record Extra := mkExtra {
  attr_source : option string;
  attr_parent_uid : option string;
  attr_mental_load : option string
}.

Record TodoItem := mkTodoItem {
  summary : string;
  uid : string;
  description : option string;
  status : option TodoItemStatus;
  due : option Z;
  extra : option Extra
}.

Record StoredTask := mkStoredTask {
  item : TodoItem;
  parent_key : string;
  is_parent : bool
}.

Record PlannedTask := mkPlannedTask {
  title : string;
  p_description : option string;
  p_due : option Z;
  effort : option string;
  category : option string;
  notes : option string
}.

Record PlannedResponse := mkPlannedResponse {
  tasks : list PlannedTask;
  mental_load : option string;
  summary_notes : option string
}.

(** What [CalendarEvent.start] and [.end] can hold, as far as the
    [isinstance] tests of this module tell them apart. *)
Inductive pytime :=
  | PyDatetime (utc : Z)
  | PyDate (ordinal : Z)
  | PyNone.

(** What [dt_util.as_utc(dt_util.parse_datetime(value))] does for a string:
    it returns a datetime, raises ValueError or TypeError, or raises
    something else. *)
Inductive parsed :=
  | ParsedAt (utc : Z)
  | ValueOrTypeError
  | OtherError.

(** What reaches [_parse_due] as [value]: the start or the end of a
    calendar event, or the "due" of the add_manual_task service, whose
    schema lets a datetime or any string through. A string comes with the
    answer of the library for it, in the way a source of the coordinator
    comes with the answer of [async_get_events] for its calendar. *)
Inductive due_value :=
  | DueDatetime (utc : Z)
  | DueDate (ordinal : Z)
  | DueStr (text : string) (read : parsed)
  | DueNone.

(** The start or the end of an event, handed to [_parse_due]. *)
Definition of_time (t : pytime) : due_value :=
  match t with
  | PyDatetime utc => DueDatetime utc
  | PyDate ordinal => DueDate ordinal
  | PyNone => DueNone
  end.

Record CalendarEvent := mkCalendarEvent {
  ev_summary : option string;
  ev_description : option string;
  ev_start : pytime;
  ev_end : pytime;
  ev_uid : option string
}.

(** An entry of [self._parent_meta]: the four keys written by the two
    entry points, and "parent_uid", present once a plan was installed. *)
Record Meta := mkMeta {
  meta_source : option string;
  meta_summary : option string;
  meta_mental_load : option string;
  meta_notes : option string;
  meta_parent_uid : option string
}.

(** The exceptions that leave a function of this repository: the two it
    raises itself, and one of the runtime that it does not catch. *)
Inductive exn :=
  | KeyError (key : string)
  | UpdateFailed (message : string)
  | Uncaught.

Inductive outcome (A : Type) :=
  | Ok (a : A)
  | Raise (e : exn).
Arguments Ok {A} a.
Arguments Raise {A} e.

(** ** Python idioms *)

(** Truth value of an optional string: [None] and [""] are false. *)
Definition truthy (o : option string) : bool :=
  match o with
  | Some s => negb (String.eqb s "")
  | None => false
  end.

(** [o or d] for an optional string [o] and a string [d]. *)
Definition str_or (o : option string) (d : string) : string :=
  match o with
  | Some s => if String.eqb s "" then d else s
  | None => d
  end.

(** [a or b] where [a] is a datetime or [None]; a datetime is never false. *)
Definition dt_or (a b : option Z) : option Z :=
  match a with
  | Some _ => a
  | None => b
  end.

Definition newline : string := String "010"%char EmptyString.

(** [sep.join(parts)] *)
Definition join (sep : string) (parts : list string) : string :=
  String.concat sep parts.

(** [datetime.max.replace(tzinfo=UTC)]: 9999-12-31T23:59:59.999999+00:00. *)
Definition datetime_max : Z := 253402300799999999.

(** ** An insertion-ordered dictionary *)

Module Dict.
Section Dict.
Context {V : Type}.

(** [d.get(k)] *)
Fixpoint get (k : string) (d : list (string * V)) : option V :=
  match d with
  | [] => None
  | (k', v) :: d' => if decide (k' = k) then Some v else get k d'
  end.

Definition mem (k : string) (d : list (string * V)) : bool :=
  match get k d with Some _ => true | None => false end.

(** Overwrite the value bound to [k], keeping its place. *)
Definition replace (k : string) (v : V) (d : list (string * V)) :=
  (λ kv : string * V, if decide (kv.1 = k) then (k, v) else kv) <$> d.

(** [d[k] = v]: a bound key keeps its place, a new key goes last. *)
Definition set (k : string) (v : V) (d : list (string * V)) :=
  if mem k d then replace k v d else d ++ [(k, v)].

(** [d.pop(k, None)] *)
Definition pop (k : string) (d : list (string * V)) :=
  filter (λ kv : string * V, kv.1 ≠ k) d.

(** [d.values()] *)
Definition values (d : list (string * V)) : list V := snd <$> d.
End Dict.
End Dict.

(** ** The manager's state *)

Record Manager := mkManager {
  _tasks : list (string * StoredTask);
  _parent_children : gmap string (gset string);
  _parent_meta : gmap string Meta;
  _event_signatures : gmap string string;
  (** observers of the runtime, not fields of the class: how often
      [_notify_listeners] ran, how many uuids were drawn, how many plans
      were requested from the AI client *)
  notified : nat;
  uuids_drawn : nat;
  plans_requested : nat
}.

Definition new_manager : Manager :=
  mkManager [] ∅ ∅ ∅ 0 0 0.

Definition with_tasks (t : list (string * StoredTask)) (m : Manager) :=
  mkManager t (_parent_children m) (_parent_meta m) (_event_signatures m)
            (notified m) (uuids_drawn m) (plans_requested m).

Definition with_children (c : gmap string (gset string)) (m : Manager) :=
  mkManager (_tasks m) c (_parent_meta m) (_event_signatures m)
            (notified m) (uuids_drawn m) (plans_requested m).

Definition with_meta (p : gmap string Meta) (m : Manager) :=
  mkManager (_tasks m) (_parent_children m) p (_event_signatures m)
            (notified m) (uuids_drawn m) (plans_requested m).

Definition with_signatures (s : gmap string string) (m : Manager) :=
  mkManager (_tasks m) (_parent_children m) (_parent_meta m) s
            (notified m) (uuids_drawn m) (plans_requested m).

(** [self._notify_listeners()] *)
Definition _notify_listeners (m : Manager) : Manager :=
  mkManager (_tasks m) (_parent_children m) (_parent_meta m)
            (_event_signatures m) (S (notified m)) (uuids_drawn m)
            (plans_requested m).

(** [dataclasses.replace(item, status=s)] *)
Definition replace_status (s : TodoItemStatus) (i : TodoItem) : TodoItem :=
  mkTodoItem (summary i) (uid i) (description i) (Some s) (due i) (extra i).

(** [stored.item = replace(stored.item, status=s)] *)
Definition set_item_status (s : TodoItemStatus) (t : StoredTask) : StoredTask :=
  mkStoredTask (replace_status s (item t)) (parent_key t) (is_parent t).

(** [self._parent_children.get(key, set())] *)
Definition children_of (key : string) (m : Manager) : gset string :=
  default ∅ (_parent_children m !! key).

(** [for uid in uids: self._tasks.pop(uid, None)] *)
Definition pop_tasks (uids : list string) (t : list (string * StoredTask)) :=
  foldl (λ acc u, Dict.pop u acc) t uids.

(** ** task_manager.py *)

Section Runtime.
(** [str(uuid.uuid4())] at the n-th draw since the manager was created. *)
Variable uuid4 : nat → string.
(** [datetime.isoformat] of a UTC datetime. *)
Variable isoformat : Z → string.
(** [str.lower]. *)
Variable str_lower : string → string.
(** [dt_util.as_utc(dt_util.start_of_local_day(d))] for a date [d]. *)
Variable start_of_local_day : Z → Z.
(** How an f-string prints [event.start] and [event.end]. *)
Variable time_text : pytime → string.
(** The AI client: the plan returned by the n-th request, for the
    keyword arguments summary, description, start and end. *)
Variable async_plan_for_calendar_event :
  nat → option string → option string → pytime → pytime → PlannedResponse.
(** The same for a manual request, with the keyword arguments summary,
    description, due and household_context. *)
Variable async_plan_for_manual_request :
  nat → string → option string → option Z → option string → PlannedResponse.

Definition draw_uuid (m : Manager) : string * Manager :=
  (uuid4 (uuids_drawn m),
   mkManager (_tasks m) (_parent_children m) (_parent_meta m)
             (_event_signatures m) (notified m) (S (uuids_drawn m))
             (plans_requested m)).

Definition _derive_parent_status (ts : list PlannedTask) : TodoItemStatus :=
  match ts with
  | [] => NEEDS_ACTION
  | _ => IN_PROGRESS
  end.

Definition has_status (s : TodoItemStatus) (i : TodoItem) : bool :=
  bool_decide (status i = Some s).

(** The items of the children the derivation looks at:
    [[self._tasks[uid].item for uid in ... if uid in self._tasks]]. *)
Definition child_items (key : string) (m : Manager) : list TodoItem :=
  omap (λ u, item <$> Dict.get u (_tasks m)) (elements (children_of key m)).

Definition _derive_parent_status_from_children
    (parent_uid : string) (m : Manager) : TodoItemStatus :=
  match Dict.get parent_uid (_tasks m) with
  | None => NEEDS_ACTION
  | Some parent_task =>
      let children := child_items (parent_key parent_task) m in
      match children with
      | [] => NEEDS_ACTION
      | _ =>
          if forallb (has_status COMPLETED) children then COMPLETED
          else if existsb (has_status IN_PROGRESS) children then IN_PROGRESS
          else if existsb (has_status COMPLETED) children then IN_PROGRESS
          else NEEDS_ACTION
      end
  end.

Definition _child_description (planned : PlannedTask) : option string :=
  let parts :=
    (if truthy (p_description planned)
     then [str_or (p_description planned) ""] else [])
    ++ (if truthy (effort planned)
        then ["Mental Load: " +:+ str_or (effort planned) ""] else [])
    ++ (if truthy (notes planned)
        then [str_or (notes planned) ""] else []) in
  match parts with
  | [] => None
  | _ => Some (join newline parts)
  end.

Definition _iso_or_empty (value : pytime) : string :=
  match value with
  | PyDatetime z => isoformat z
  | _ => ""
  end.

Definition _event_signature (event : CalendarEvent) : string :=
  join "|" [ str_or (ev_summary event) "";
             str_or (ev_description event) "";
             _iso_or_empty (ev_start event);
             _iso_or_empty (ev_end event) ].

(** The four branches of the [isinstance] chain. Only the string branch
    can raise: ValueError and TypeError are caught and give [None], any
    other exception of the library leaves the function. *)
Definition _parse_due (value : due_value) : outcome (option Z) :=
  match value with
  | DueDatetime z => Ok (Some z)
  | DueDate d => Ok (Some (start_of_local_day d))
  | DueStr _ read =>
      match read with
      | ParsedAt z => Ok (Some z)
      | ValueOrTypeError => Ok None
      | OtherError => Raise Uncaught
      end
  | DueNone => Ok None
  end.

Definition _todo_sort_key (i : TodoItem) : Z * string :=
  (default datetime_max (due i), str_lower (summary i)).

(** [a < b] on the tuples [_todo_sort_key] builds: datetimes first, then
    the strings, compared character by character. *)
Definition key_lt (a b : Z * string) : bool :=
  if Z.ltb a.1 b.1 then true
  else if Z.eqb a.1 b.1 then String.ltb a.2 b.2
  else false.

(** [list.sort(key=...)] is stable and only asks for [<] on keys, so its
    result is the one of this insertion sort. *)
Fixpoint sort_insert {A} (key : A → Z * string) (x : A) (l : list A) :=
  match l with
  | [] => [x]
  | y :: l' =>
      if key_lt (key y) (key x) then y :: sort_insert key x l'
      else x :: y :: l'
  end.

Definition list_sort {A} (key : A → Z * string) (l : list A) : list A :=
  foldr (sort_insert key) [] l.

Definition iter_items (m : Manager) : list TodoItem :=
  let items := item <$> Dict.values (_tasks m) in
  list_sort _todo_sort_key items.

(** One round of [for planned in plan.tasks]. Line 184 has bound
    [self._parent_meta[parent_key]] before the loop starts and the loop
    does not write to that dictionary, so the source attribute read at
    line 195 is the one of [mt]. *)
Definition add_child (key parent_summary parent_uid : string)
    (due_override : option Z) (mt : Meta)
    (m : Manager) (planned : PlannedTask) : Manager :=
  let '(child_uid, m) := draw_uuid m in
  let child_item :=
    mkTodoItem (parent_summary +:+ ": " +:+ title planned)
               child_uid
               (_child_description planned)
               (Some NEEDS_ACTION)
               (dt_or (p_due planned) due_override)
               (Some (mkExtra (meta_source mt) (Some parent_uid)
                              (effort planned))) in
  let m := with_tasks
             (Dict.set child_uid (mkStoredTask child_item key false)
                       (_tasks m)) m in
  with_children
    (<[key := {[child_uid]} ∪ children_of key m]> (_parent_children m)) m.

Definition _replace_parent_tasks (key : string) (plan : PlannedResponse)
    (due_override : option Z) (m : Manager) : outcome unit * Manager :=
  let existing := children_of key m in
  let m := with_children (delete key (_parent_children m)) m in
  let m := with_tasks (pop_tasks (elements existing) (_tasks m)) m in
  let '(parent_uid, m) := draw_uuid m in
  let meta := _parent_meta m !! key in
  let parent_summary := str_or (meta ≫= meta_summary) "Mental Load Aufgabe" in
  let notes :=
    if truthy (mental_load plan)
    then Some (str_or (summary_notes plan) "" +:+ newline
               +:+ "Mental Load Bewertung: " +:+ str_or (mental_load plan) "")
    else summary_notes plan in
  let parent_item :=
    mkTodoItem parent_summary parent_uid notes
               (Some (_derive_parent_status (tasks plan)))
               due_override
               (Some (mkExtra (meta ≫= meta_source) None (mental_load plan))) in
  let m := with_tasks
             (Dict.set parent_uid (mkStoredTask parent_item key true)
                       (_tasks m)) m in
  let m := with_children (<[key := ∅]> (_parent_children m)) m in
  match _parent_meta m !! key with
  | None => (Raise (KeyError key), m)
  | Some mt0 =>
      let mt := mkMeta (meta_source mt0) (meta_summary mt0)
                       (meta_mental_load mt0) (meta_notes mt0)
                       (Some parent_uid) in
      let m := with_meta (<[key := mt]> (_parent_meta m)) m in
      let m := foldl (add_child key parent_summary parent_uid due_override mt)
                     m (tasks plan) in
      (Ok tt, _notify_listeners m)
  end.

Definition _remove_parent (key : string) (m : Manager) : Manager :=
  let children := children_of key m in
  let m := with_children (delete key (_parent_children m)) m in
  let m := with_tasks (pop_tasks (elements children) (_tasks m)) m in
  let meta := _parent_meta m !! key in
  let m := with_meta (delete key (_parent_meta m)) m in
  match meta with
  | Some mt =>
      if truthy (meta_parent_uid mt)
      then with_tasks (Dict.pop (str_or (meta_parent_uid mt) "") (_tasks m)) m
      else m
  | None => m
  end.

(** The keys of [self._parent_meta] the prune step selects. *)
Definition to_remove (valid : gset string) (m : Manager) : list string :=
  filter (λ key, String.prefix "calendar:" key = true ∧ key ∉ valid)
         (map_to_list (_parent_meta m)).*1.

Definition remove_missing_calendar_events (valid : gset string)
    (m : Manager) : nat * Manager :=
  let keys := to_remove valid m in
  let m := foldl (λ acc key, _remove_parent key acc) m keys in
  (length keys, match keys with [] => m | _ => _notify_listeners m end).

(** [for child_uid in ...: child = self._tasks[child_uid]; child.item = ...]
    with [f] the assignment of the loop body. *)
Fixpoint update_children (f : StoredTask → StoredTask) (uids : list string)
    (m : Manager) : outcome unit * Manager :=
  match uids with
  | [] => (Ok tt, m)
  | child_uid :: rest =>
      match Dict.get child_uid (_tasks m) with
      | None => (Raise (KeyError child_uid), m)
      | Some child =>
          update_children f rest
            (with_tasks (Dict.replace child_uid (f child) (_tasks m)) m)
      end
  end.

Definition reopen (child : StoredTask) : StoredTask :=
  if has_status COMPLETED (item child)
  then set_item_status NEEDS_ACTION child
  else child.

(** [(stored.item.extra or {}).get(ATTR_PARENT_UID)] *)
Definition parent_uid_of (stored : StoredTask) : option string :=
  extra (item stored) ≫= attr_parent_uid.

(** The shared tail of the child branches of update and delete:
    re-derive the status of the parent the attribute names. *)
Definition refresh_parent (stored : StoredTask) (m : Manager) : Manager :=
  match parent_uid_of stored with
  | Some parent_uid =>
      if truthy (Some parent_uid) then
        match Dict.get parent_uid (_tasks m) with
        | Some parent =>
            with_tasks
              (Dict.replace parent_uid
                 (set_item_status
                    (_derive_parent_status_from_children parent_uid m) parent)
                 (_tasks m)) m
        | None => m
        end
      else m
  | None => m
  end.

Definition async_update_item (it : TodoItem) (m : Manager)
    : outcome unit * Manager :=
  match Dict.get (uid it) (_tasks m) with
  | None => (Ok tt, m)
  | Some stored =>
      let new_status := default NEEDS_ACTION (status it) in
      let m := with_tasks
                 (Dict.replace (uid it) (set_item_status new_status stored)
                               (_tasks m)) m in
      if is_parent stored then
        let kids := elements (children_of (parent_key stored) m) in
        let '(r, m) :=
          match new_status with
          | COMPLETED => update_children (set_item_status COMPLETED) kids m
          | NEEDS_ACTION => update_children reopen kids m
          | IN_PROGRESS => (Ok tt, m)
          end in
        match r with
        | Ok _ => (Ok tt, _notify_listeners m)
        | Raise e => (Raise e, m)
        end
      else
        (Ok tt,
         _notify_listeners
           (refresh_parent (set_item_status new_status stored) m))
  end.

Definition async_delete_item (u : string) (m : Manager) : Manager :=
  match Dict.get u (_tasks m) with
  | None => m
  | Some stored =>
      if is_parent stored then
        _notify_listeners (_remove_parent (parent_key stored) m)
      else
        let m := with_tasks (Dict.pop u (_tasks m)) m in
        let m :=
          match _parent_children m !! parent_key stored with
          | Some children =>
              with_children
                (<[parent_key stored := children ∖ {[u]}]>
                   (_parent_children m)) m
          | None => m
          end in
        _notify_listeners (refresh_parent stored m)
  end.

Definition CALENDAR_SOURCE : string := "calendar".
Definition MANUAL_SOURCE : string := "manual".

Definition async_process_calendar_event (calendar_id key : string)
    (event : CalendarEvent) (m : Manager) : outcome bool * Manager :=
  let signature := _event_signature event in
  if decide (_event_signatures m !! key = Some signature)
  then (Ok false, m)
  else
    let plan :=
      async_plan_for_calendar_event (plans_requested m)
        (ev_summary event) (ev_description event)
        (ev_start event) (ev_end event) in
    let m := mkManager (_tasks m) (_parent_children m) (_parent_meta m)
               (_event_signatures m) (notified m) (uuids_drawn m)
               (S (plans_requested m)) in
    let m := with_signatures (<[key := signature]> (_event_signatures m)) m in
    let m := with_meta
               (<[key := mkMeta (Some CALENDAR_SOURCE) (ev_summary event)
                                (mental_load plan) (summary_notes plan) None]>
                  (_parent_meta m)) m in
    (* due_dt = _parse_due(event.start) or _parse_due(event.end) *)
    match _parse_due (of_time (ev_start event)) with
    | Raise e => (Raise e, m)
    | Ok from_start =>
        match (match from_start with
               | Some _ => Ok from_start
               | None => _parse_due (of_time (ev_end event))
               end) with
        | Raise e => (Raise e, m)
        | Ok due_dt =>
            match _replace_parent_tasks key plan due_dt m with
            | (Ok _, m) => (Ok true, m)
            | (Raise e, m) => (Raise e, m)
            end
        end
    end.

Definition async_create_manual_entry (summary : string)
    (description : option string) (due : due_value)
    (household_context : option string) (m : Manager)
    : outcome string * Manager :=
  match _parse_due due with
  | Raise e => (Raise e, m)
  | Ok due_dt =>
      let plan :=
        async_plan_for_manual_request (plans_requested m) summary description
          due_dt household_context in
      let m := mkManager (_tasks m) (_parent_children m) (_parent_meta m)
                 (_event_signatures m) (notified m) (uuids_drawn m)
                 (S (plans_requested m)) in
      let '(u, m) := draw_uuid m in
      let key := "manual:" +:+ u in
      let m := with_meta
                 (<[key := mkMeta (Some MANUAL_SOURCE) (Some summary)
                                  (mental_load plan) (summary_notes plan) None]>
                    (_parent_meta m)) m in
      match _replace_parent_tasks key plan due_dt m with
      | (Ok _, m) =>
          match _parent_meta m !! key ≫= meta_parent_uid with
          | Some parent_uid => (Ok parent_uid, m)
          | None => (Raise (KeyError "parent_uid"), m)
          end
      | (Raise e, m) => (Raise e, m)
      end
  end.

(** ** coordinator.py *)

(** How an f-string prints [event.summary]. *)
Definition summary_text (s : option string) : string :=
  match s with Some s => s | None => "None" end.

Definition _make_parent_key (calendar_id : string) (event : CalendarEvent)
    : string :=
  let u :=
    str_or (ev_uid event)
           (time_text (ev_start event) +:+ "_" +:+ time_text (ev_end event)
            +:+ "_" +:+ summary_text (ev_summary event)) in
  "calendar:" +:+ calendar_id +:+ ":" +:+ u.

(** The inner loop [for event in events]. *)
Fixpoint process_events (calendar_id : string) (events : list CalendarEvent)
    (observed : gset string) (m : Manager)
    : outcome (gset string) * Manager :=
  match events with
  | [] => (Ok observed, m)
  | event :: rest =>
      let key := _make_parent_key calendar_id event in
      let observed := {[key]} ∪ observed in
      match async_process_calendar_event calendar_id key event m with
      | (Ok _, m) => process_events calendar_id rest observed m
      | (Raise e, m) => (Raise e, m)
      end
  end.

(** The outer loop [for calendar_id in self._calendars]. A source is a
    calendar id with what [async_get_events] answers for it in this
    cycle: the events, or [None] when the call raises. *)
Fixpoint process_calendars
    (sources : list (string * option (list CalendarEvent)))
    (observed : gset string) (m : Manager)
    : outcome (gset string) * Manager :=
  match sources with
  | [] => (Ok observed, m)
  | (calendar_id, None) :: _ =>
      (Raise (UpdateFailed ("Failed to read calendar " +:+ calendar_id)), m)
  | (calendar_id, Some events) :: rest =>
      match process_events calendar_id events observed m with
      | (Ok observed, m) => process_calendars rest observed m
      | (Raise e, m) => (Raise e, m)
      end
  end.

Definition _async_update_data
    (sources : list (string * option (list CalendarEvent)))
    (m : Manager) : outcome unit * Manager :=
  match sources with
  | [] => (Ok tt, m)
  | _ =>
      match process_calendars sources ∅ m with
      | (Ok observed_parents, m) =>
          (Ok tt, (remove_missing_calendar_events observed_parents m).2)
      | (Raise e, m) => (Raise e, m)
      end
  end.
End Runtime.

(** ** ai_client.py: the plan used when the backend cannot be used *)

(** A call that returns a value or lets an exception through. *)
Inductive attempt (A : Type) :=
  | Returned (a : A)
  | Raised.
Arguments Returned {A} a.
Arguments Raised {A}.

(** A value of the payload that [_parse_dt] tells apart. *)
Inductive payload_value :=
  | PvDatetime (utc : Z)
  | PvStr (s : string)
  | PvNone.

(** The payload dictionary, read with [payload.get]. *)
Record Payload := mkPayload {
  pl_type : string;
  pl_summary : option string;
  pl_description : option string;
  pl_start : payload_value;
  pl_end : payload_value;
  pl_due : payload_value;
  pl_household_context : option string
}.

(** What a provider call does: it returns a plan, raises one of
    aiohttp.ClientError, KeyError, json.JSONDecodeError, MentalLoadAIError,
    or raises something else. *)
Inductive backend_answer :=
  | BackendPlan (plan : PlannedResponse)
  | BackendCaught
  | BackendOther.

(** [needle in haystack] for two strings. *)
Fixpoint contains (needle haystack : string) : bool :=
  String.prefix needle haystack ||
  match haystack with
  | EmptyString => false
  | String _ rest => contains needle rest
  end.

Section AIClient.
(** [str.lower]. *)
Variable str_lower : string → string.
(** [dt_util.as_utc(dt_util.parse_datetime(value))] for a string. *)
Variable parse_as_utc : string → parsed.
(** PROVIDER_GEMINI of const.py and the two provider calls. *)
Variable PROVIDER_GEMINI : string.
Variable _async_generate_with_gemini : Payload → backend_answer.
Variable _async_generate_with_openai : Payload → backend_answer.
(** [dt_util.as_utc(v).isoformat()] for a date or datetime [v], which may
    raise. *)
Variable utc_isoformat : pytime → attempt string.

Definition _default_breakdown (summary : string) (description : option string)
    : list (string * option string) :=
  let normalized := str_lower summary in
  if existsb (λ keyword, contains keyword normalized)
             ["repar"; "fix"; "repair"]
  then [ ("Problem verstehen und Dokumentation prüfen", description);
         ("Benötigte Teile oder Service organisieren", None);
         ("Reparatur durchführen und testen", None) ]
  else if existsb (λ keyword, contains keyword normalized)
                  ["geburtstag"; "party"; "feier"]
  then [ ("Gästeliste und Einladungen", description);
         ("Einkaufsliste und Dekoration planen", None);
         ("Vorbereitung am Veranstaltungstag", None) ]
  else [ ("Aufgabe planen", description);
         ("Ressourcen beschaffen", None);
         ("Durchführung abschließen", None) ].

Definition _parse_dt (value : payload_value) : attempt (option Z) :=
  match value with
  | PvDatetime z => Returned (Some z)
  | PvStr s =>
      match parse_as_utc s with
      | ParsedAt z => Returned (Some z)
      | ValueOrTypeError => Returned None
      | OtherError => Raised
      end
  | PvNone => Returned None
  end.

Definition _fallback_plan (payload : Payload) : attempt PlannedResponse :=
  let summary := str_or (pl_summary payload) "Aufgabe" in
  let description := pl_description payload in
  let base_due :=
    match _parse_dt (pl_due payload) with
    | Returned None => _parse_dt (pl_end payload)
    | first => first
    end in
  match base_due with
  | Raised => Raised
  | Returned base_due =>
      let tasks := _default_breakdown summary description in
      let planned_tasks :=
        (λ td : string * option string,
           mkPlannedTask td.1 td.2 base_due None None None) <$> tasks in
      Returned (mkPlannedResponse planned_tasks (Some "unknown")
                  (Some "Automatisch erzeugter Plan (Fallback)"))
  end.

Definition _async_generate_plan (api_key : option string) (provider : string)
    (payload : Payload) : attempt PlannedResponse :=
  if negb (truthy api_key) then _fallback_plan payload
  else
    let answer :=
      if decide (provider = PROVIDER_GEMINI)
      then _async_generate_with_gemini payload
      else _async_generate_with_openai payload in
    match answer with
    | BackendPlan plan => Returned plan
    | BackendCaught => _fallback_plan payload
    | BackendOther => Raised
    end.

(** [dt_util.as_utc(v).isoformat() if v else None]: a date and a datetime
    are never false. *)
Definition iso_or_none (v : pytime) : attempt payload_value :=
  match v with
  | PyNone => Returned PvNone
  | _ =>
      match utc_isoformat v with
      | Returned s => Returned (PvStr s)
      | Raised => Raised
      end
  end.

Definition async_plan_for_calendar_event (api_key : option string)
    (provider : string) (summary description : option string)
    (start end_ : pytime) (household_context : option string)
    : attempt PlannedResponse :=
  match iso_or_none start with
  | Raised => Raised
  | Returned start_text =>
      match iso_or_none end_ with
      | Raised => Raised
      | Returned end_text =>
          _async_generate_plan api_key provider
            (mkPayload "calendar_event" summary description
                       start_text end_text PvNone household_context)
      end
  end.

Definition async_plan_for_manual_request (api_key : option string)
    (provider : string) (summary : string) (description : option string)
    (due : option Z) (household_context : option string)
    : attempt PlannedResponse :=
  let due_value := match due with Some z => PyDatetime z | None => PyNone end in
  match iso_or_none due_value with
  | Raised => Raised
  | Returned due_text =>
      _async_generate_plan api_key provider
        (mkPayload "manual_task" (Some summary) description
                   PvNone PvNone due_text household_context)
  end.
End AIClient.

(** ** config_flow.py: durations in the options form

    A [timedelta] is a whole number of microseconds. The dictionary of
    the duration selector has integer values; the two functions read the
    keys days, hours, minutes and seconds only, each of which may be
    missing. *)

Record DurationDict := mkDurationDict {
  dd_days : option Z;
  dd_hours : option Z;
  dd_minutes : option Z;
  dd_seconds : option Z
}.

Inductive duration_value :=
  | AsTimedelta (microseconds : Z)
  | AsDict (d : DurationDict).

(** The bounds of [timedelta]: at most 999999999 days either way. *)
Definition timedelta_min : Z := -999999999 * 86400 * 1000000.
Definition timedelta_max : Z :=
  (999999999 * 86400 + 86399) * 1000000 + 999999.

(** [int(value.total_seconds())]: [total_seconds] divides the microseconds
    by 10**6 as a float and [int] truncates towards zero. Below 2**33
    seconds the doubles are less than a microsecond apart, so the rounded
    quotient never reaches the next integer and the result is the
    truncated quotient; the properties below stay within that range. *)
Definition float_exact_seconds : Z := 2 ^ 33.
Definition int_total_seconds (microseconds : Z) : Z :=
  Z.quot microseconds 1000000.

(** [divmod] is the floor division and its remainder. *)
Definition _duration_to_selector (value : duration_value) : DurationDict :=
  match value with
  | AsDict d => d
  | AsTimedelta microseconds =>
      let total_seconds := int_total_seconds microseconds in
      let days := total_seconds / 86400 in
      let remainder := total_seconds mod 86400 in
      let hours := remainder / 3600 in
      let remainder := remainder mod 3600 in
      let minutes := remainder / 60 in
      let seconds := remainder mod 60 in
      mkDurationDict (Some days) (Some hours) (Some minutes) (Some seconds)
  end.

(** [timedelta(days=..., hours=..., minutes=..., seconds=...)] adds the
    parts up and raises OverflowError outside the bounds. *)
Definition _selector_to_timedelta (value : duration_value) : attempt Z :=
  match value with
  | AsTimedelta microseconds => Returned microseconds
  | AsDict d =>
      let total := (default 0 (dd_days d) * 86400
                    + default 0 (dd_hours d) * 3600
                    + default 0 (dd_minutes d) * 60
                    + default 0 (dd_seconds d)) * 1000000 in
      if (timedelta_min <=? total) && (total <=? timedelta_max)
      then Returned total else Raised
  end.

(** ** Reading the store *)

(** What [_parse_due] returns for the start or the end of an event: a
    datetime, a date or nothing, for which it does not raise. *)
Definition due_of_time (start_of_local_day : Z → Z) (t : pytime)
    : option Z :=
  match t with
  | PyDatetime z => Some z
  | PyDate d => Some (start_of_local_day d)
  | PyNone => None
  end.

(** The stored task bound to a uid. *)
Definition task_at (u : string) (m : Manager) : option StoredTask :=
  Dict.get u (_tasks m).

(** The status of the task bound to a uid. *)
Definition status_at (u : string) (m : Manager) : option TodoItemStatus :=
  task_at u m ≫= λ t, status (item t).

(** The parent tasks the store holds for a parent key. *)
Definition parent_tasks (key : string) (m : Manager)
    : list (string * StoredTask) :=
  filter (λ kv : string * StoredTask,
            is_parent kv.2 = true ∧ parent_key kv.2 = key) (_tasks m).


(** Two stored tasks that differ in their status at most. *)
Definition same_but_status (t t' : StoredTask) : Prop :=
  t' = t ∨ ∃ s, t' = set_item_status s t.

(** The task [add_child] binds to the uid [child_uid] it has drawn. *)
Definition child_task (key parent_summary parent_uid : string)
    (due_override : option Z) (mt : Meta) (planned : PlannedTask)
    (child_uid : string) : StoredTask :=
  mkStoredTask
    (mkTodoItem (parent_summary +:+ ": " +:+ title planned)
                child_uid
                (_child_description planned)
                (Some NEEDS_ACTION)
                (dt_or (p_due planned) due_override)
                (Some (mkExtra (meta_source mt) (Some parent_uid)
                               (effort planned))))
    key false.

(** The summary [_replace_parent_tasks] gives to the parent of a key. *)
Definition parent_summary_of (key : string) (m : Manager) : string :=
  str_or (_parent_meta m !! key ≫= meta_summary) "Mental Load Aufgabe".

(** The entry of [self._parent_meta] once line 184 has written the uid of
    the new parent into it. *)
Definition installed_meta (mt : Meta) (parent_uid : string) : Meta :=
  mkMeta (meta_source mt) (meta_summary mt) (meta_mental_load mt)
         (meta_notes mt) (Some parent_uid).

(** The uids drawn by [count] calls of [uuid4] after [n] earlier ones. *)
Definition drawn (uuid4 : nat → string) (n count : nat) : list string :=
  uuid4 <$> seq n count.

(** ** The subtree the indexes record for a key *)

(** The uid of the parent task that [_remove_parent] pops: the "parent_uid"
    entry of the key's meta, when it is a non-empty string. *)
Definition recorded_parent (key : string) (m : Manager) : option string :=
  match _parent_meta m !! key ≫= meta_parent_uid with
  | Some p => if truthy (Some p) then Some p else None
  | None => None
  end.

(** The uids of the subtree of a key: its child set and its recorded
    parent. *)
Definition subtree_uids (key : string) (m : Manager) : gset string :=
  children_of key m ∪
  match recorded_parent key m with Some p => {[p]} | None => ∅ end.

(** Every stored task the indexes of a key refer to carries that key. *)
Definition index_consistent (m : Manager) : Prop :=
  ∀ key u t, u ∈ subtree_uids key m → task_at u m = Some t →
             parent_key t = key.

(** A check of [index_consistent] that computes: only the keys bound in
    one of the two indexes have a subtree. *)
Definition index_consistentb (m : Manager) : bool :=
  forallb
    (λ key,
       forallb
         (λ u, match task_at u m with
               | Some t => bool_decide (parent_key t = key)
               | None => true
               end)
         (elements (subtree_uids key m)))
    (elements (dom (_parent_children m) ∪ dom (_parent_meta m))).

(** ** The derivation rule, as the specification words it

    Five rules over the statuses of the current children, read top to
    bottom; a rule applies only when no earlier one does. *)
Inductive derived : list (option TodoItemStatus) → TodoItemStatus → Prop :=
  | derived_no_children :
      derived [] NEEDS_ACTION
  | derived_all_completed cs :
      cs ≠ [] →
      Forall (λ c, c = Some COMPLETED) cs →
      derived cs COMPLETED
  | derived_any_in_progress cs :
      cs ≠ [] →
      ¬ Forall (λ c, c = Some COMPLETED) cs →
      Exists (λ c, c = Some IN_PROGRESS) cs →
      derived cs IN_PROGRESS
  | derived_some_completed cs :
      cs ≠ [] →
      ¬ Forall (λ c, c = Some COMPLETED) cs →
      ¬ Exists (λ c, c = Some IN_PROGRESS) cs →
      Exists (λ c, c = Some COMPLETED) cs →
      derived cs IN_PROGRESS
  | derived_otherwise cs :
      cs ≠ [] →
      ¬ Forall (λ c, c = Some COMPLETED) cs →
      ¬ Exists (λ c, c = Some IN_PROGRESS) cs →
      ¬ Exists (λ c, c = Some COMPLETED) cs →
      derived cs NEEDS_ACTION.

(** The same rules read on the store itself, not on a list the code
    builds. [child_status key m u st]: [u] is a member of the child set of
    [key], a task is stored under it, and the status of that task is
    [st]. *)
Definition child_status (key : string) (m : Manager) (u : string)
    (st : option TodoItemStatus) : Prop :=
  u ∈ children_of key m ∧
  ∃ t, task_at u m = Some t ∧ status (item t) = st.

(** [derived_from_store key m s]: [s] is the status the five rules give
    for the children of [key] in [m], the first rule that applies
    winning. *)
Definition derived_from_store (key : string) (m : Manager)
    (s : TodoItemStatus) : Prop :=
  let some_child := ∃ u st, child_status key m u st in
  let all_completed :=
    ∀ u st, child_status key m u st → st = Some COMPLETED in
  let any_child st := ∃ u, child_status key m u (Some st) in
  (¬ some_child → s = NEEDS_ACTION) ∧
  (some_child → all_completed → s = COMPLETED) ∧
  (some_child → ¬ all_completed → any_child IN_PROGRESS →
   s = IN_PROGRESS) ∧
  (some_child → ¬ all_completed → ¬ any_child IN_PROGRESS →
   any_child COMPLETED → s = IN_PROGRESS) ∧
  (some_child → ¬ all_completed → ¬ any_child IN_PROGRESS →
   ¬ any_child COMPLETED → s = NEEDS_ACTION).

(** ** The description of a child, as the specification words it

    The newline-join of the non-empty values among the planned
    description, a line made of a label and the effort, and the planned
    notes; [None] when all three are absent. The specification gives the
    label as "effort: ". *)
Definition present (o : option string) : list string :=
  match o with
  | Some s => if String.eqb s "" then [] else [s]
  | None => []
  end.

Definition description_from (label : string) (planned : PlannedTask)
    : option string :=
  match present (p_description planned)
        ++ ((λ e, label +:+ e) <$> present (effort planned))
        ++ present (notes planned) with
  | [] => None
  | parts => Some (join newline parts)
  end.

(** ** The order of two sort keys, as a relation

    [key_le a b]: the tuple [a] is not greater than the tuple [b]. *)
Definition key_le (a b : Z * string) : Prop :=
  a.1 < b.1 ∨ (a.1 = b.1 ∧ String.le a.2 b.2).

(** [by_key key a b]: [a] may stand before [b] in a list sorted by [key]. *)
Definition by_key {A : Type} (key : A → Z * string) (a b : A) : Prop :=
  key_le (key a) (key b).

(** ** The intents of a cycle *)

(** The sources of a cycle in which every calendar could be read. *)
Definition fetched (calendars : list (string * list CalendarEvent))
    : list (string * option (list CalendarEvent)) :=
  (λ c, (c.1, Some c.2)) <$> calendars.

(** The (parent key, event) pairs a cycle observes, in processing order. *)
Definition intents_of (time_text : pytime → string)
    (calendars : list (string * list CalendarEvent))
    : list (string * CalendarEvent) :=
  calendars ≫= λ c, (λ e, (_make_parent_key time_text c.1 e, e)) <$> c.2.


(** The key set a cycle hands to the prune step. *)
Definition observed_keys (time_text : pytime → string)
    (calendars : list (string * list CalendarEvent)) : gset string :=
  list_to_set (intents_of time_text calendars).*1.

(** The store after the events of a list of intents were processed one
    after the other; the calendar id is only given to the log. *)
Definition run_intents (uuid4 : nat → string) (isoformat : Z → string)
    (start_of_local_day : Z → Z)
    (planner : nat → option string → option string → pytime → pytime
               → PlannedResponse)
    (intents : list (string * CalendarEvent)) (m : Manager) : Manager :=
  foldl (λ acc ke,
           (async_process_calendar_event uuid4 isoformat start_of_local_day
              planner "" ke.1 ke.2 acc).2)
        m intents.

(** ** A well-formed manager

    The tasks the indexes of a key refer to carry that key, and every uid
    that is referred to or stored has been drawn from [uuid4] earlier, so
    that a uid drawn later is new. *)
Record well_formed (uuid4 : nat → string) (m : Manager) : Prop := {
  wf_consistent : index_consistent m;
  wf_indexed_drawn :
    ∀ key u, u ∈ subtree_uids key m → u ∈ drawn uuid4 0 (uuids_drawn m);
  wf_stored_drawn :
    ∀ u, is_Some (task_at u m) → u ∈ drawn uuid4 0 (uuids_drawn m)
}.

(** [shrinks m m']: [m'] refers to no more uids than [m], stores tasks of
    the same keys under uids [m] stored, and has drawn no fewer uids. *)
Definition shrinks (m m' : Manager) : Prop :=
  (uuids_drawn m <= uuids_drawn m')%nat ∧
  (∀ k, subtree_uids k m' ⊆ subtree_uids k m) ∧
  (∀ u t', task_at u m' = Some t' →
           ∃ t, task_at u m = Some t ∧ parent_key t = parent_key t').

(** ** The states the manager can reach

    One step is a reconciliation cycle of the coordinator or a call of the
    todo platform: create, update, delete. *)
Section Reachable.
Variable uuid4 : nat → string.
Variable isoformat : Z → string.
Variable start_of_local_day : Z → Z.
Variable time_text : pytime → string.
Variable planner :
  nat → option string → option string → pytime → pytime → PlannedResponse.
Variable manual_planner :
  nat → string → option string → option Z → option string → PlannedResponse.

Inductive step : Manager → Manager → Prop :=
  | step_cycle sources m :
      step m (_async_update_data uuid4 isoformat start_of_local_day
                time_text planner sources m).2
  | step_create summary description due context m :
      step m (async_create_manual_entry uuid4 start_of_local_day
                manual_planner summary description due context m).2
  | step_update it m :
      step m (async_update_item it m).2
  | step_delete u m :
      step m (async_delete_item u m).

Definition reachable : Manager → Prop := rtc step new_manager.
End Reachable.

(** ** A concrete runtime for the examples *)

Fixpoint demo_uuid4 (n : nat) : string :=
  match n with
  | O => "id"
  | S n => "x" +:+ demo_uuid4 n
  end.

Definition demo_isoformat (z : Z) : string :=
  match z with
  | 100 => "1970-01-01T00:00:00.000100+00:00"
  | 200 => "1970-01-01T00:00:00.000200+00:00"
  | _ => "1970-01-01T00:00:00+00:00"
  end.

Definition demo_start_of_local_day (d : Z) : Z := d * 86400000000.

Definition demo_time_text (t : pytime) : string :=
  match t with
  | PyDatetime _ => "datetime"
  | PyDate _ => "date"
  | PyNone => "None"
  end.

(** A planner that answers every request with the same two steps. *)
Definition demo_plan : PlannedResponse :=
  mkPlannedResponse
    [ mkPlannedTask "buy" (Some "milk") None (Some "high") None None;
      mkPlannedTask "pay" None (Some 5) None None (Some "cash") ]
    (Some "mid") None.

Definition demo_planner (n : nat) (s d : option string) (a b : pytime)
    : PlannedResponse := demo_plan.

Definition demo_manual_planner (n : nat) (s : string) (d : option string)
    (due : option Z) (c : option string) : PlannedResponse := demo_plan.

Definition demo_process :=
  async_process_calendar_event demo_uuid4 demo_isoformat
    demo_start_of_local_day demo_planner.

Definition demo_cycle :=
  _async_update_data demo_uuid4 demo_isoformat demo_start_of_local_day
    demo_time_text demo_planner.

(** [str.lower] on ASCII text, for the examples. *)
Definition lower_char (c : ascii) : ascii :=
  let n := nat_of_ascii c in
  if (65 <=? n)%nat && (n <=? 90)%nat then ascii_of_nat (n + 32) else c.

Fixpoint ascii_lower (s : string) : string :=
  match s with
  | EmptyString => EmptyString
  | String c s' => String (lower_char c) (ascii_lower s')
  end.

(** ** The party: a calendar event and its plan *)

Definition party : CalendarEvent :=
  mkCalendarEvent (Some "Party") (Some "bring cake")
                  (PyDatetime 100) (PyDatetime 200) (Some "e1").

Definition party_moved : CalendarEvent :=
  mkCalendarEvent (Some "Party") (Some "bring wine")
                  (PyDatetime 100) (PyDatetime 200) (Some "e1").

Definition party_key : string := "calendar:home:e1".

(** The store after the party was planned once. *)
Definition planned_once : Manager :=
  (demo_process "home" party_key party new_manager).2.

(** The store after the description of the party changed and it was
    planned again. *)
Definition planned_twice : Manager :=
  (demo_process "home" party_key party_moved planned_once).2.

Definition blank_item : TodoItem := mkTodoItem "" "" None None None None.
Definition blank_task : StoredTask := mkStoredTask blank_item "" false.

(** The first step of the party and its parent, as stored after planning. *)
Definition party_parent_uid : string := demo_uuid4 0.
Definition party_step_uid : string := demo_uuid4 1.
Definition party_parent : StoredTask :=
  Eval vm_compute in default blank_task (task_at party_parent_uid planned_once).
Definition party_step : StoredTask :=
  Eval vm_compute in default blank_task (task_at party_step_uid planned_once).

(** The item the todo platform sends when the user ticks the first step. *)
Definition tick_step : TodoItem :=
  mkTodoItem "Party: buy" party_step_uid None (Some COMPLETED) None None.

(** The items the todo platform sends when the user starts the first step
    and when the user ticks the parent. *)
Definition start_step : TodoItem :=
  mkTodoItem "Party: buy" party_step_uid None (Some IN_PROGRESS) None None.
Definition tick_parent : TodoItem :=
  mkTodoItem "Party" party_parent_uid None (Some COMPLETED) None None.
Definition reopen_parent : TodoItem :=
  mkTodoItem "Party" party_parent_uid None (Some NEEDS_ACTION) None None.

Definition tick_second_step : TodoItem :=
  mkTodoItem "Party: pay" (demo_uuid4 2) None (Some COMPLETED) None None.

(** The store after the first step of the party was started. *)
Definition step_started : Manager :=
  (async_update_item start_step planned_once).2.

(** A planned task with a description and an effort label. *)
Definition buy_step : PlannedTask :=
  mkPlannedTask "buy" (Some "milk") None (Some "high") None None.

(** ** More events, calendars and stores *)

(** Two events that differ in their description only: one has none, the
    other an empty one. *)
Definition quiet_event : CalendarEvent :=
  mkCalendarEvent (Some "Dentist") None (PyDatetime 100) (PyDatetime 200)
                  (Some "e2").

(** A calendar with two events of different uids. *)
Definition home_calendar : list (string * list CalendarEvent) :=
  [("home", [party; quiet_event])].


(** The sources of a cycle in which the calendar "broken" cannot be read
    and is listed before the calendar of the party. *)
Definition broken_first : list (string * option (list CalendarEvent)) :=
  [("broken", None); ("home", Some [party])].

(** The store after the party was planned and the user added the manual
    request "Taxes". *)
Definition household : Manager :=
  (async_create_manual_entry demo_uuid4 demo_start_of_local_day
     demo_manual_planner "Taxes" None DueNone None planned_once).2.

Definition taxes_key : string := "manual:" +:+ demo_uuid4 3.

Definition plain_task (u s : string) (d : option Z) : string * StoredTask :=
  (u, mkStoredTask (mkTodoItem s u None (Some NEEDS_ACTION) d None)
                   "manual:demo" false).

(** 2024-01-01T00:00:00Z and 2024-01-03T00:00:00Z. *)
Definition jan_1 : Z := 1704067200000000.
Definition jan_3 : Z := 1704240000000000.

(** The store of the ordering example: dues [2024-01-03, none, 2024-01-01]
    with summaries ["B", "A", "C"]. *)
Definition ordering_store : Manager :=
  with_tasks [ plain_task "1" "B" (Some jan_3);
               plain_task "2" "A" None;
               plain_task "3" "C" (Some jan_1) ] new_manager.

(** A store with a task that has no due value and a task that is due at
    the last instant a datetime can hold. *)
Definition last_instant_store : Manager :=
  with_tasks [ plain_task "1" "b" (Some datetime_max);
               plain_task "2" "a" None ] new_manager.

(** ** Durations of the options form *)

(** The seconds a selector dictionary stands for. *)
Definition selector_seconds (d : DurationDict) : Z :=
  default 0 (dd_days d) * 86400 + default 0 (dd_hours d) * 3600
  + default 0 (dd_minutes d) * 60 + default 0 (dd_seconds d).

(** A dictionary as the form shows it: every key present, hours below 24,
    minutes and seconds below 60. *)
Definition canonical (d : DurationDict) : Prop :=
  ∃ days hours minutes seconds,
    d = mkDurationDict (Some days) (Some hours) (Some minutes) (Some seconds)
    ∧ 0 <= hours < 24 ∧ 0 <= minutes < 60 ∧ 0 <= seconds < 60.

(** ** The fallback plan *)

(** The shape of a fallback plan: three steps due at [base_due], of which
    the first carries the description of the request and none carries an
    effort, a category or notes. *)
Definition fallback_shaped (description : option string)
    (base_due : option Z) (plan : PlannedResponse) : Prop :=
  mental_load plan = Some "unknown" ∧
  summary_notes plan = Some "Automatisch erzeugter Plan (Fallback)" ∧
  ∃ t1 t2 t3,
    tasks plan = [ mkPlannedTask t1 description base_due None None None;
                   mkPlannedTask t2 None base_due None None None;
                   mkPlannedTask t3 None base_due None None None ].

(** [needle in haystack], as a statement. *)
Definition occurs_in (needle haystack : string) : Prop :=
  ∃ before after, haystack = before +:+ needle +:+ after.

(** The three breakdowns. *)
Definition repair_steps (description : option string) :=
  [ ("Problem verstehen und Dokumentation prüfen", description);
    ("Benötigte Teile oder Service organisieren", None : option string);
    ("Reparatur durchführen und testen", None) ].
Definition party_steps (description : option string) :=
  [ ("Gästeliste und Einladungen", description);
    ("Einkaufsliste und Dekoration planen", None : option string);
    ("Vorbereitung am Veranstaltungstag", None) ].
Definition generic_steps (description : option string) :=
  [ ("Aufgabe planen", description);
    ("Ressourcen beschaffen", None : option string);
    ("Durchführung abschließen", None) ].

(** ** An AI client without a backend, for the examples *)

Definition demo_parse (s : string) : parsed :=
  if String.eqb s "" then ValueOrTypeError else ParsedAt 7.

Definition failing_backend (payload : Payload) : backend_answer :=
  BackendCaught.

Definition demo_generate :=
  _async_generate_plan ascii_lower demo_parse "gemini"
    failing_backend failing_backend.

(** The payload of a calendar event "Fix the sink" that ends at "b". *)
Definition sink_payload : Payload :=
  mkPayload "calendar_event" (Some "Fix the sink") None
            (PvStr "a") (PvStr "b") PvNone None.

(** ** A manager whose client has no API key, for the examples *)

Definition offline_utc_isoformat (v : pytime) : attempt string :=
  match v with
  | PyDatetime z => Returned (demo_isoformat z)
  | _ => Raised
  end.

Definition offline_parse (s : string) : parsed :=
  if String.eqb s (demo_isoformat 100) then ParsedAt 100
  else if String.eqb s (demo_isoformat 200) then ParsedAt 200
  else ValueOrTypeError.

Definition offline_client :=
  async_plan_for_calendar_event ascii_lower offline_parse "gemini"
    failing_backend failing_backend offline_utc_isoformat None "openai".

Definition offline_planner (n : nat) (s d : option string) (a b : pytime)
    : PlannedResponse :=
  match offline_client s d a b None with
  | Returned plan => plan
  | Raised => mkPlannedResponse [] None None
  end.

(** The store after a manual request was made of a new manager, and the
    key the request got. *)
Definition first_request : Manager :=
  (async_create_manual_entry demo_uuid4 demo_start_of_local_day
     demo_manual_planner "Taxes" None DueNone None new_manager).2.

Definition first_request_key : string := "manual:" +:+ demo_uuid4 0.

(** A store whose child index names a uid that is not stored, and the
    item that ticks its only parent. *)
Definition ghost_store : Manager :=
  mkManager
    [("p", mkStoredTask (mkTodoItem "P" "p" None (Some NEEDS_ACTION) None None)
                        "k" true)]
    {["k" := {["ghost"]}]} ∅ ∅ 0 0 0.

Definition tick_ghost_parent : TodoItem :=
  mkTodoItem "P" "p" None (Some COMPLETED) None None.

(** ** Child sets that name stored child tasks *)

(** Every member of a child set is stored, as a task that is not a
    parent. *)
Definition children_stored (m : Manager) : Prop :=
  ∀ key u, u ∈ children_of key m →
           ∃ t, task_at u m = Some t ∧ is_parent t = false.

(** [m'] stores every task [m] stores, with no other change than of its
    status. *)
Definition keeps_tasks (m m' : Manager) : Prop :=
  ∀ u t, task_at u m = Some t →
         ∃ t', task_at u m' = Some t' ∧ same_but_status t t'.

(** Every stored task that is not a parent is a member of the child set
    of the key it carries. *)
Definition children_indexed (m : Manager) : Prop :=
  ∀ u t, task_at u m = Some t → is_parent t = false →
         u ∈ children_of (parent_key t) m.

Definition offline_manual_client :=
  async_plan_for_manual_request ascii_lower offline_parse "gemini"
    failing_backend failing_backend offline_utc_isoformat None "openai".

Definition offline_manual_planner (n : nat) (s : string) (d : option string)
    (due : option Z) (c : option string) : PlannedResponse :=
  match offline_manual_client s d due c with
  | Returned plan => plan
  | Raised => mkPlannedResponse [] None None
  end.

(** The store after the second step of the party was ticked, and its
    parent task there. *)
Definition pay_ticked : Manager :=
  (async_update_item tick_second_step planned_once).2.
Definition pay_ticked_parent : StoredTask :=
  Eval vm_compute in default blank_task (task_at party_parent_uid pay_ticked).

(** Three cycles over the calendar "home": the party is observed and
    planned, it is observed with another description and planned again,
    and then the calendar returns no event any more. *)
Definition party_planned : Manager :=
  (demo_cycle (fetched [("home", [party])]) new_manager).2.
Definition party_replanned : Manager :=
  (demo_cycle (fetched [("home", [party_moved])]) party_planned).2.
Definition party_cancelled : Manager :=
  (demo_cycle (fetched [("home", [])]) party_replanned).2.

(** ** The fields of a signature, as the specification words them *)



(** * Properties *)

(** ** The due of an event *)

Lemma parse_due_of_time (start_of_local_day : Z → Z) (t : pytime) :
  _parse_due start_of_local_day (of_time t)
    = Ok (due_of_time start_of_local_day t).
Proof. by destruct t. Qed.

(** The start and the end of an event are never strings, so the two calls
    of [_parse_due] in [async_process_calendar_event] return, and the due
    handed on is the one of the start, or else the one of the end. *)
Lemma process_unfold (uuid4 : nat → string) (isoformat : Z → string)
    (start_of_local_day : Z → Z)
    (planner : nat → option string → option string → pytime → pytime
               → PlannedResponse)
    (calendar_id key : string) (event : CalendarEvent) (m : Manager) :
  async_process_calendar_event uuid4 isoformat start_of_local_day planner
    calendar_id key event m =
  let signature := _event_signature isoformat event in
  if decide (_event_signatures m !! key = Some signature)
  then (Ok false, m)
  else
    let plan :=
      planner (plans_requested m) (ev_summary event) (ev_description event)
        (ev_start event) (ev_end event) in
    let m := mkManager (_tasks m) (_parent_children m) (_parent_meta m)
               (_event_signatures m) (notified m) (uuids_drawn m)
               (S (plans_requested m)) in
    let m := with_signatures (<[key := signature]> (_event_signatures m)) m in
    let m := with_meta
               (<[key := mkMeta (Some CALENDAR_SOURCE) (ev_summary event)
                                (mental_load plan) (summary_notes plan) None]>
                  (_parent_meta m)) m in
    let due_dt := dt_or (due_of_time start_of_local_day (ev_start event))
                        (due_of_time start_of_local_day (ev_end event)) in
    match _replace_parent_tasks uuid4 key plan due_dt m with
    | (Ok _, m) => (Ok true, m)
    | (Raise e, m) => (Raise e, m)
    end.
Proof.
  unfold async_process_calendar_event.
  destruct (decide _) as [|_]; [done|].
  rewrite !parse_due_of_time.
  by destruct (due_of_time start_of_local_day (ev_start event)).
Qed.

(** ** Facts about the dictionary *)

Section DictFacts.
Context {V : Type}.
Implicit Types (d : list (string * V)) (k : string) (v : V).

Lemma get_replace_eq k v d :
  Dict.get k (Dict.replace k v d) = (λ _, v) <$> Dict.get k d.
Proof.
  induction d as [|[k' v'] d IH]; simpl; [done|].
  destruct (decide (k' = k)) as [->|Hne]; simpl.
  - by rewrite decide_True.
  - by rewrite decide_False.
Qed.

Lemma get_replace_ne k k' v d :
  k' ≠ k → Dict.get k (Dict.replace k' v d) = Dict.get k d.
Proof.
  intros Hne. induction d as [|[k0 v0] d IH]; simpl; [done|].
  destruct (decide (k0 = k')) as [->|Hne0]; simpl.
  - rewrite !decide_False by done. apply IH.
  - destruct (decide (k0 = k)); [done | apply IH].
Qed.

Lemma get_app k d1 d2 :
  Dict.get k (d1 ++ d2) =
    match Dict.get k d1 with Some v => Some v | None => Dict.get k d2 end.
Proof.
  induction d1 as [|[k' v'] d1 IH]; simpl; [done|].
  by destruct (decide (k' = k)).
Qed.

Lemma get_set_eq k v d : Dict.get k (Dict.set k v d) = Some v.
Proof.
  unfold Dict.set, Dict.mem.
  destruct (Dict.get k d) as [v0|] eqn:Hg.
  - by rewrite get_replace_eq, Hg.
  - rewrite get_app, Hg. simpl. by rewrite decide_True.
Qed.

Lemma get_set_ne k k' v d :
  k' ≠ k → Dict.get k (Dict.set k' v d) = Dict.get k d.
Proof.
  intros Hne. unfold Dict.set.
  destruct (Dict.mem k' d).
  - by apply get_replace_ne.
  - rewrite get_app. simpl. rewrite decide_False by done.
    by destruct (Dict.get k d).
Qed.

Lemma get_pop_eq k d : Dict.get k (Dict.pop k d) = None.
Proof.
  induction d as [|[k' v'] d IH]; [done|].
  unfold Dict.pop in *. rewrite filter_cons. simpl.
  destruct (decide (k' ≠ k)) as [Hne|Heq]; simpl; [|done].
  by rewrite decide_False.
Qed.

Lemma get_pop_ne k k' d :
  k' ≠ k → Dict.get k (Dict.pop k' d) = Dict.get k d.
Proof.
  intros Hne. induction d as [|[k0 v0] d IH]; [done|].
  unfold Dict.pop in *. rewrite filter_cons. simpl.
  destruct (decide (k0 ≠ k')) as [Hne0|Heq]; simpl.
  - by rewrite IH.
  - apply dec_stable in Heq as ->. by rewrite decide_False.
Qed.

Lemma get_Some_elem k v d : Dict.get k d = Some v → (k, v) ∈ d.
Proof.
  induction d as [|[k' v'] d IH]; simpl; [done|].
  destruct (decide (k' = k)) as [->|Hne].
  - intros [= ->]. left.
  - intros H. right. auto.
Qed.

Lemma get_None_elem k v d : Dict.get k d = None → (k, v) ∉ d.
Proof.
  induction d as [|[k' v'] d IH]; simpl; [intros _; apply not_elem_of_nil|].
  destruct (decide (k' = k)) as [->|Hne]; [done|].
  intros H [[= ??]|Hin]%elem_of_cons; [done|]. by apply IH.
Qed.
End DictFacts.

(** Popping a list of uids removes exactly those uids. *)
Lemma get_pop_tasks u uids t :
  Dict.get u (pop_tasks uids t) = if decide (u ∈ uids) then None else Dict.get u t.
Proof.
  unfold pop_tasks. revert t.
  induction uids as [|u' uids IH]; intros t; simpl; [done|].
  rewrite IH. destruct (decide (u ∈ uids)) as [Hin|Hnin].
  - rewrite decide_True; [done | by right].
  - destruct (decide (u' = u)) as [->|Hne].
    + rewrite decide_True by left. apply get_pop_eq.
    + rewrite decide_False.
      * by apply get_pop_ne.
      * intros [?|?]%elem_of_cons; congruence.
Qed.

(** ** Status derivation, child to parent *)

Lemma forallb_has_status s (cs : list TodoItem) :
  forallb (has_status s) cs = true ↔ Forall (λ c, c = Some s) (status <$> cs).
Proof.
  induction cs as [|c cs IH]; simpl.
  - split; [constructor | done].
  - rewrite andb_true_iff, Forall_cons, IH. unfold has_status.
    by rewrite bool_decide_eq_true.
Qed.

Lemma existsb_has_status s (cs : list TodoItem) :
  existsb (has_status s) cs = true ↔ Exists (λ c, c = Some s) (status <$> cs).
Proof.
  induction cs as [|c cs IH]; simpl.
  - split; [done | by intros ?%Exists_nil].
  - rewrite orb_true_iff, Exists_cons, IH. unfold has_status.
    by rewrite bool_decide_eq_true.
Qed.

(** The body of [_derive_parent_status_from_children], once the parent is
    found, follows the five rules. *)
Lemma derive_follows_rules p parent (m : Manager) :
  task_at p m = Some parent →
  derived (status <$> child_items (parent_key parent) m)
          (_derive_parent_status_from_children p m).
Proof.
  unfold task_at, _derive_parent_status_from_children. intros ->.
  destruct (child_items (parent_key parent) m) as [|c cs] eqn:Hcs.
  { constructor. }
  set (l := c :: cs).
  assert (Hne : status <$> l ≠ []) by done.
  destruct (forallb (has_status COMPLETED) l) eqn:Hall.
  { apply derived_all_completed; [done|]. by apply forallb_has_status. }
  assert (Hnall : ¬ Forall (λ c, c = Some COMPLETED) (status <$> l)).
  { rewrite <- forallb_has_status. congruence. }
  destruct (existsb (has_status IN_PROGRESS) l) eqn:Hprog.
  { apply derived_any_in_progress; [done..|]. by apply existsb_has_status. }
  assert (Hnprog : ¬ Exists (λ c, c = Some IN_PROGRESS) (status <$> l)).
  { rewrite <- existsb_has_status. congruence. }
  destruct (existsb (has_status COMPLETED) l) eqn:Hcomp.
  { apply derived_some_completed; [done..|]. by apply existsb_has_status. }
  apply derived_otherwise; [done..|].
  rewrite <- existsb_has_status. congruence.
Qed.

(** The list the derivation looks at holds exactly the statuses of the
    stored members of the child set. *)
Lemma elem_of_child_statuses key (m : Manager) st :
  st ∈ status <$> child_items key m ↔ ∃ u, child_status key m u st.
Proof.
  unfold child_items, child_status, task_at.
  rewrite list_elem_of_fmap. split.
  - intros (i & -> & Hi). apply list_elem_of_omap in Hi as (u & Hu & Hi).
    apply elem_of_elements in Hu.
    destruct (Dict.get u (_tasks m)) as [t|] eqn:Ht; [|done].
    injection Hi as <-. exists u. split; [done|]. by exists t.
  - intros (u & Hu & t & Ht & <-). exists (item t). split; [done|].
    apply list_elem_of_omap. exists u. split; [by apply elem_of_elements|].
    by rewrite Ht.
Qed.

Lemma derived_on_the_store key (m : Manager) s :
  derived (status <$> child_items key m) s → derived_from_store key m s.
Proof.
  set (cs := status <$> child_items key m).
  assert (Hsome : cs ≠ [] ↔ ∃ u st, child_status key m u st).
  { split.
    - intros Hne. destruct cs as [|st cs'] eqn:Hcs; [done|].
      assert (Hin : st ∈ cs) by (rewrite Hcs; left).
      apply elem_of_child_statuses in Hin as (u & Hu). by exists u, st.
    - intros (u & st & Hu) Hnil.
      assert (Hin : st ∈ cs) by (apply elem_of_child_statuses; by exists u).
      rewrite Hnil in Hin. by apply elem_of_nil in Hin. }
  assert (Hall : Forall (λ c, c = Some COMPLETED) cs ↔
                 ∀ u st, child_status key m u st → st = Some COMPLETED).
  { rewrite Forall_forall. split.
    - intros H u st Hu. apply H, elem_of_child_statuses. by exists u.
    - intros H st (u & Hu)%elem_of_child_statuses. by apply (H u). }
  assert (Hany : ∀ st0, Exists (λ c, c = Some st0) cs ↔
                        ∃ u, child_status key m u (Some st0)).
  { intros st0. rewrite Exists_exists. split.
    - intros (st & Hin & ->). by apply elem_of_child_statuses.
    - intros Hu. exists (Some st0). split; [|done].
      by apply elem_of_child_statuses. }
  intros Hd. unfold derived_from_store. cbv zeta.
  rewrite <- Hsome, <- Hall, <- !Hany.
  inversion Hd as [Hnil|cs' Hne Hf|cs' Hne Hf Hp|cs' Hne Hf Hp Hc
                   |cs' Hne Hf Hp Hc]; subst; split_and!; try done;
    try (intros; exfalso; tauto); try tauto.
Qed.

(** The last rule is reached only when every child that has a status has
    the status NEEDS_ACTION. *)
Lemma otherwise_all_needs_action (cs : list (option TodoItemStatus)) :
  ¬ Exists (λ c, c = Some IN_PROGRESS) cs →
  ¬ Exists (λ c, c = Some COMPLETED) cs →
  Forall (λ c, ∀ s, c = Some s → s = NEEDS_ACTION) cs.
Proof.
  intros Hprog Hcomp. apply Forall_forall. intros c Hin s ->.
  destruct s; [done | |].
  - destruct Hprog. apply Exists_exists. eauto.
  - destruct Hcomp. apply Exists_exists. eauto.
Qed.

Lemma omap_ext_elem {A B} (f g : A → option B) (l : list A) :
  (∀ x, x ∈ l → f x = g x) → omap f l = omap g l.
Proof.
  induction l as [|x l IH]; intros H; [done|].
  change (omap f (x :: l)) with
    (match f x with Some y => y :: omap f l | None => omap f l end).
  change (omap g (x :: l)) with
    (match g x with Some y => y :: omap g l | None => omap g l end).
  rewrite (H x) by left. rewrite IH; [done|].
  intros y Hy. apply H. by right.
Qed.

(** The children the derivation reads depend on the child set of the key
    and on the tasks bound to its members only. *)
Lemma child_items_ext key (m m' : Manager) :
  _parent_children m' = _parent_children m →
  (∀ u, u ∈ children_of key m → task_at u m' = task_at u m) →
  child_items key m' = child_items key m.
Proof.
  intros Hc Ht. unfold child_items.
  assert (Hk : children_of key m' = children_of key m).
  { unfold children_of. by rewrite Hc. }
  rewrite Hk.
  assert (Hin : ∀ u, u ∈ elements (children_of key m) →
                     task_at u m' = task_at u m).
  { intros u Hu. apply Ht. by apply elem_of_elements. }
  apply omap_ext_elem. intros u Hu. unfold task_at in Hin. by rewrite Hin.
Qed.

(** C2. For every status edit on a child task via update_item, the parent
    task's resulting status equals the derivation rule applied to the
    current child statuses, the five rules being read top to bottom with
    the first match winning: no children gives NEEDS_ACTION, all children
    COMPLETED gives COMPLETED, any child IN_PROGRESS gives IN_PROGRESS, any
    child COMPLETED gives IN_PROGRESS, otherwise NEEDS_ACTION. The children
    are read on the resulting store: they are the tasks stored under the
    members of the child set of the parent's key. The parent is the stored
    task the child's parent-uid attribute names; it is not listed among
    its own children. The edit itself never raises, and the edited child
    carries the new status. *)
Theorem C2_child_edit_derives_parent_status
    (it : TodoItem) (m : Manager) (stored parent : StoredTask) (p : string) :
  task_at (uid it) m = Some stored →
  is_parent stored = false →
  parent_uid_of stored = Some p →
  p ≠ "" →
  task_at p m = Some parent →
  p ∉ children_of (parent_key parent) m →
  ∃ m' parent' s,
    async_update_item it m = (Ok tt, m') ∧
    task_at p m' = Some parent' ∧
    parent_key parent' = parent_key parent ∧
    status (item parent') = Some s ∧
    derived_from_store (parent_key parent') m' s ∧
    (uid it ≠ p →
     status_at (uid it) m' = Some (default NEEDS_ACTION (status it))).
Proof.
  intros Hst Hchild Hp Hpne Hpar Hself.
  unfold task_at in Hst, Hpar.
  unfold async_update_item. rewrite Hst, Hchild.
  set (new_status := default NEEDS_ACTION (status it)).
  set (stored' := set_item_status new_status stored).
  set (m1 := with_tasks (Dict.replace (uid it) stored' (_tasks m)) m).
  assert (Hp1 : ∃ parent1, task_at p m1 = Some parent1 ∧
                           parent_key parent1 = parent_key parent).
  { unfold task_at, m1. simpl. destruct (decide (uid it = p)) as [Heq|Hne].
    - rewrite Heq, get_replace_eq, Hpar. simpl. exists stored'. split; [done|].
      rewrite Heq in Hst. unfold stored'. simpl. congruence.
    - rewrite get_replace_ne by done. eauto. }
  destruct Hp1 as (parent1 & Hp1 & Hkey1).
  unfold refresh_parent.
  assert (Hp' : parent_uid_of stored' = Some p) by done.
  rewrite Hp'.
  assert (Htruthy : truthy (Some p) = true).
  { simpl. apply negb_true_iff. by apply String.eqb_neq. }
  rewrite Htruthy. unfold task_at in Hp1.
  set (s := _derive_parent_status_from_children p m1).
  exists (_notify_listeners
            (with_tasks (Dict.replace p (set_item_status s parent1) (_tasks m1))
                        m1)),
         (set_item_status s parent1), s.
  split; [by rewrite Hp1|].
  split; [|split; [done|split; [done|split]]].
  - unfold task_at. simpl. rewrite get_replace_eq.
    change (Dict.replace (uid it) stored' (_tasks m)) with (_tasks m1).
    by rewrite Hp1.
  - simpl. rewrite Hkey1. apply derived_on_the_store.
    erewrite child_items_ext with (m := m1).
    + rewrite <- Hkey1. by apply derive_follows_rules.
    + done.
    + intros u Hu. unfold task_at. simpl.
      apply get_replace_ne. intros ->. by apply Hself.
  - intros Hne. unfold status_at, task_at. simpl.
    rewrite get_replace_ne by done.
    by rewrite get_replace_eq, Hst.
Qed.

Lemma C2_witness :
  ∃ m' parent' s,
    async_update_item tick_step planned_once = (Ok tt, m') ∧
    task_at party_parent_uid m' = Some parent' ∧
    parent_key parent' = parent_key party_parent ∧
    status (item parent') = Some s ∧
    derived_from_store (parent_key parent') m' s ∧
    (uid tick_step ≠ party_parent_uid →
     status_at (uid tick_step) m' = Some (default NEEDS_ACTION (status tick_step))) ∧
    s = IN_PROGRESS.
Proof.
  destruct (C2_child_edit_derives_parent_status
              tick_step planned_once party_step party_parent party_parent_uid)
    as (m' & parent' & s & Hrun & Hp & Hk & Hs & Hrule & Hst).
  - vm_compute; reflexivity.
  - reflexivity.
  - reflexivity.
  - discriminate.
  - vm_compute; reflexivity.
  - apply (bool_decide_unpack _). vm_compute. exact I.
  - exists m', parent', s.
    split; [exact Hrun|]. split; [exact Hp|]. split; [exact Hk|].
    split; [exact Hs|]. split; [exact Hrule|]. split; [exact Hst|].
    apply (f_equal snd) in Hrun. simpl in Hrun. subst m'.
    rewrite Hk in Hrule.
    destruct Hrule as (_ & _ & _ & Hfourth & _).
    assert (Hkids : ∀ u, u ∈ children_of (parent_key party_parent)
                               (async_update_item tick_step planned_once).2 →
                         u = demo_uuid4 1 ∨ u = demo_uuid4 2).
    { intros u Hu.
      assert (Heq : children_of (parent_key party_parent)
                      (async_update_item tick_step planned_once).2
                    = {[demo_uuid4 1; demo_uuid4 2]}) by (by vm_compute).
      rewrite Heq in Hu. set_unfold. tauto. }
    apply Hfourth.
    + exists (demo_uuid4 1), (Some COMPLETED). split.
      * apply (bool_decide_unpack _). vm_compute. exact I.
      * eexists. split; vm_compute; reflexivity.
    + intros Hall.
      assert (Hpay : Some NEEDS_ACTION = Some COMPLETED); [|discriminate].
      apply (Hall (demo_uuid4 2)). split.
      * apply (bool_decide_unpack _). vm_compute. exact I.
      * eexists. split; vm_compute; reflexivity.
    + intros (u & Hu & t & Ht & Hstatus).
      destruct (Hkids u Hu) as [-> | ->]; vm_compute in Ht;
        injection Ht as <-; discriminate.
    + exists (demo_uuid4 1). split.
      * apply (bool_decide_unpack _). vm_compute. exact I.
      * eexists. split; vm_compute; reflexivity.
Defined.

(** The derivation at work on the party: one step of two ticked gives
    IN_PROGRESS (rule 4), both ticked gives COMPLETED (rule 2), and once
    both steps are deleted the parent is back to NEEDS_ACTION (rule 1). *)
Example derive_on_the_party :
  let one := (async_update_item tick_step planned_once).2 in
  let both := (async_update_item tick_second_step one).2 in
  let none := async_delete_item (demo_uuid4 2)
                (async_delete_item (demo_uuid4 1) both) in
  status_at party_parent_uid one = Some IN_PROGRESS ∧
  status_at party_parent_uid both = Some COMPLETED ∧
  status_at party_parent_uid none = Some NEEDS_ACTION.
Proof. cbv zeta. split_and!; vm_compute; reflexivity. Qed.

(** ** Status propagation, parent to child *)

(** The loop over the child set: when every member is stored the loop ends
    normally, applies the body once to each member and leaves every other
    task and every index alone. *)
Lemma update_children_spec f kids (m : Manager) :
  NoDup kids →
  (∀ u, u ∈ kids → is_Some (task_at u m)) →
  ∃ m', update_children f kids m = (Ok tt, m') ∧
        _parent_children m' = _parent_children m ∧
        _parent_meta m' = _parent_meta m ∧
        _event_signatures m' = _event_signatures m ∧
        notified m' = notified m ∧
        ∀ u, task_at u m' =
             if decide (u ∈ kids) then f <$> task_at u m else task_at u m.
Proof.
  revert m. induction kids as [|k kids IH]; intros m Hnd Hall; simpl.
  { exists m. repeat split; done. }
  apply NoDup_cons in Hnd as [Hk Hnd].
  destruct (Hall k) as [child Hchild]; [left|].
  unfold task_at in Hchild. rewrite Hchild.
  set (m1 := with_tasks (Dict.replace k (f child) (_tasks m)) m).
  destruct (IH m1 Hnd) as (m' & Hrun & Hc & Hm & Hs & Hn & Ht).
  { intros u Hu. unfold task_at, m1. simpl.
    rewrite get_replace_ne by (intros ->; done). apply Hall. by right. }
  exists m'. split; [done|]. repeat split; try done.
  intros u. rewrite Ht. unfold task_at, m1. simpl.
  destruct (decide (u ∈ kids)) as [Hin|Hnin].
  - rewrite decide_True by (by right).
    rewrite get_replace_ne by (intros ->; done). done.
  - destruct (decide (k = u)) as [->|Hne].
    + rewrite decide_True by left. by rewrite get_replace_eq, Hchild.
    + rewrite decide_False.
      * by apply get_replace_ne.
      * intros [?|?]%elem_of_cons; congruence.
Qed.

(** C3, as the code has it. For every update_item call on a parent task
    whose children are all stored: the call ends normally; if the new
    status is COMPLETED, every child of that parent ends with status
    COMPLETED, the IN_PROGRESS ones included; if the new status is
    NEEDS_ACTION, every child that was COMPLETED ends with status
    NEEDS_ACTION, every child that was IN_PROGRESS keeps IN_PROGRESS, and
    every child that was not COMPLETED is left as it was; if the new status
    is IN_PROGRESS no child changes. *)
Theorem C3_parent_edit_propagates
    (it : TodoItem) (m : Manager) (stored : StoredTask) :
  task_at (uid it) m = Some stored →
  is_parent stored = true →
  uid it ∉ children_of (parent_key stored) m →
  (∀ c, c ∈ children_of (parent_key stored) m → is_Some (task_at c m)) →
  ∃ m',
    async_update_item it m = (Ok tt, m') ∧
    status_at (uid it) m' = Some (default NEEDS_ACTION (status it)) ∧
    ∀ c, c ∈ children_of (parent_key stored) m →
      (status it = Some COMPLETED → status_at c m' = Some COMPLETED) ∧
      (default NEEDS_ACTION (status it) = NEEDS_ACTION →
         (status_at c m = Some COMPLETED →
          status_at c m' = Some NEEDS_ACTION) ∧
         (status_at c m = Some IN_PROGRESS →
          status_at c m' = Some IN_PROGRESS) ∧
         (status_at c m ≠ Some COMPLETED → task_at c m' = task_at c m)) ∧
      (status it = Some IN_PROGRESS → task_at c m' = task_at c m).
Proof.
  intros Hst Hpar Hself Hkids.
  unfold task_at in Hst. unfold async_update_item. rewrite Hst, Hpar.
  set (new_status := default NEEDS_ACTION (status it)).
  set (m1 := with_tasks
               (Dict.replace (uid it) (set_item_status new_status stored)
                             (_tasks m)) m).
  set (kids := elements (children_of (parent_key stored) m1)).
  assert (Hother : ∀ c, c ∈ children_of (parent_key stored) m →
                        task_at c m1 = task_at c m).
  { intros c Hc. unfold task_at, m1. simpl.
    apply get_replace_ne. intros Heq. by rewrite <- Heq in Hc. }
  assert (Hself1 : task_at (uid it) m1 = Some (set_item_status new_status stored)).
  { unfold task_at, m1. simpl. by rewrite get_replace_eq, Hst. }
  assert (Hnd : NoDup kids) by apply NoDup_elements.
  assert (Hin : ∀ u, u ∈ kids ↔ u ∈ children_of (parent_key stored) m).
  { intros u. unfold kids. by rewrite elem_of_elements. }
  assert (Hall : ∀ u, u ∈ kids → is_Some (task_at u m1)).
  { intros u Hu%Hin. rewrite Hother by done. by apply Hkids. }
  assert (Hnself : uid it ∉ kids) by (by rewrite Hin).
  destruct new_status eqn:Hnew.
  - (* NEEDS_ACTION *)
    destruct (update_children_spec reopen kids m1 Hnd Hall)
      as (m' & -> & _ & _ & _ & _ & Ht).
    eexists. split; [reflexivity|]. split.
    { unfold status_at, task_at in *. simpl. rewrite Ht.
      rewrite decide_False by done. by rewrite Hself1. }
    intros c Hc. pose proof (Ht c) as Htc.
    rewrite decide_True in Htc by (by apply Hin).
    rewrite Hother in Htc by done.
    assert (Htc' : task_at c (_notify_listeners m') = reopen <$> task_at c m)
      by done.
    destruct (Hkids c Hc) as [t Hct].
    unfold status_at. rewrite Htc', Hct. simpl.
    unfold reopen, has_status.
    split; [|split].
    + intros Hs. unfold new_status in Hnew. by rewrite Hs in Hnew.
    + intros _. split; [|split].
      * intros Hs. by rewrite bool_decide_eq_true_2.
      * intros Hs. rewrite bool_decide_eq_false_2; [done|]. congruence.
      * intros Hs. by rewrite bool_decide_eq_false_2.
    + intros Hs. unfold new_status in Hnew. by rewrite Hs in Hnew.
  - (* IN_PROGRESS *)
    eexists. split; [reflexivity|]. split.
    { unfold status_at. change (task_at (uid it) (_notify_listeners m1))
        with (task_at (uid it) m1). by rewrite Hself1. }
    intros c Hc.
    change (task_at c (_notify_listeners m1)) with (task_at c m1).
    unfold status_at.
    change (task_at c (_notify_listeners m1)) with (task_at c m1).
    rewrite Hother by done.
    split; [|split; [|done]].
    + intros Hs. unfold new_status in Hnew. by rewrite Hs in Hnew.
    + intros Hs. unfold new_status in Hnew. by rewrite Hs in Hnew.
  - (* COMPLETED *)
    destruct (update_children_spec (set_item_status COMPLETED) kids m1 Hnd Hall)
      as (m' & -> & _ & _ & _ & _ & Ht).
    eexists. split; [reflexivity|]. split.
    { unfold status_at, task_at in *. simpl. rewrite Ht.
      rewrite decide_False by done. by rewrite Hself1. }
    intros c Hc. pose proof (Ht c) as Htc.
    rewrite decide_True in Htc by (by apply Hin).
    rewrite Hother in Htc by done.
    assert (Htc' : task_at c (_notify_listeners m') =
                   set_item_status COMPLETED <$> task_at c m) by done.
    destruct (Hkids c Hc) as [t Hct].
    unfold status_at. rewrite Htc', Hct. simpl.
    split; [done|split].
    + intros Hs. unfold new_status in Hnew. by rewrite Hs in Hnew.
    + intros Hs. unfold new_status in Hnew. by rewrite Hs in Hnew.
Qed.

Lemma C3_witness :
  ∃ m',
    async_update_item reopen_parent step_started = (Ok tt, m') ∧
    status_at (uid reopen_parent) m'
      = Some (default NEEDS_ACTION (status reopen_parent)) ∧
    ∀ c, c ∈ children_of (parent_key party_parent) step_started →
      (status reopen_parent = Some COMPLETED →
       status_at c m' = Some COMPLETED) ∧
      (default NEEDS_ACTION (status reopen_parent) = NEEDS_ACTION →
         (status_at c step_started = Some COMPLETED →
          status_at c m' = Some NEEDS_ACTION) ∧
         (status_at c step_started = Some IN_PROGRESS →
          status_at c m' = Some IN_PROGRESS) ∧
         (status_at c step_started ≠ Some COMPLETED →
          task_at c m' = task_at c step_started)) ∧
      (status reopen_parent = Some IN_PROGRESS →
       task_at c m' = task_at c step_started).
Proof.
  apply (C3_parent_edit_propagates reopen_parent step_started party_parent).
  - vm_compute; reflexivity.
  - reflexivity.
  - apply (bool_decide_unpack _). vm_compute. exact I.
  - apply (bool_decide_unpack _). vm_compute. exact I.
Defined.

(** Ticking the parent of the party completes both steps; reopening it
    afterwards reopens both. *)
Example propagate_on_the_party :
  let ticked := (async_update_item tick_parent planned_once).2 in
  let reopened := (async_update_item reopen_parent ticked).2 in
  status_at (demo_uuid4 1) ticked = Some COMPLETED ∧
  status_at (demo_uuid4 2) ticked = Some COMPLETED ∧
  status_at (demo_uuid4 1) reopened = Some NEEDS_ACTION ∧
  status_at (demo_uuid4 2) reopened = Some NEEDS_ACTION.
Proof. cbv zeta. split_and!; vm_compute; reflexivity. Qed.

(** The claim of C3 that IN_PROGRESS children are untouched in both
    transitions fails when the parent is completed: the started step of
    the party is a child of the parent, has status IN_PROGRESS, and ends
    with status COMPLETED. *)
Lemma C3_in_progress_child_is_completed :
  let m' := (async_update_item tick_parent step_started).2 in
  (task_at party_parent_uid step_started ≫= λ t, Some (is_parent t)) = Some true ∧
  party_step_uid ∈ children_of party_key step_started ∧
  status tick_parent = Some COMPLETED ∧
  status_at party_step_uid step_started = Some IN_PROGRESS ∧
  status_at party_step_uid m' = Some COMPLETED ∧
  status_at party_step_uid m' ≠ Some IN_PROGRESS.
Proof.
  cbv zeta. split_and!.
  - vm_compute; reflexivity.
  - apply (bool_decide_unpack _). vm_compute. exact I.
  - reflexivity.
  - vm_compute; reflexivity.
  - vm_compute; reflexivity.
  - vm_compute. discriminate.
Qed.

(** ** The frame of a child edit *)

(** Re-deriving the parent's status writes to one binding, the one the
    child's parent-uid attribute names, and there to the status only. *)
Lemma refresh_parent_frame stored (m : Manager) :
  _parent_children (refresh_parent stored m) = _parent_children m ∧
  _parent_meta (refresh_parent stored m) = _parent_meta m ∧
  _event_signatures (refresh_parent stored m) = _event_signatures m ∧
  ∀ u, task_at u (refresh_parent stored m) = task_at u m ∨
       (parent_uid_of stored = Some u ∧
        ∃ t s, task_at u m = Some t ∧
               task_at u (refresh_parent stored m) = Some (set_item_status s t)).
Proof.
  unfold refresh_parent.
  destruct (parent_uid_of stored) as [p|]; [|by auto].
  destruct (truthy (Some p)); [|by auto].
  destruct (Dict.get p (_tasks m)) as [parent|] eqn:Hp; [|by auto].
  split_and!; try done.
  intros u. unfold task_at. simpl.
  destruct (decide (p = u)) as [->|Hne].
  - right. split; [done|]. eexists _, _. split; [done|].
    by rewrite get_replace_eq, Hp.
  - left. by apply get_replace_ne.
Qed.

(** C10. For every update_item call on a child task, only that child's
    status and the status of the task its parent-uid attribute names may
    change: the indexes are untouched, every other binding of the store is
    the same afterwards, no task changes in anything but its status, and,
    when the attribute names a parent task, every other child task of the
    store (sibling or child of another parent) is unchanged. The
    recomputation of the parent's status never runs the parent-to-child
    propagation. *)
Theorem C10_child_edit_frame
    (it : TodoItem) (m : Manager) (stored : StoredTask) :
  task_at (uid it) m = Some stored →
  is_parent stored = false →
  ∃ m',
    async_update_item it m = (Ok tt, m') ∧
    _parent_children m' = _parent_children m ∧
    _parent_meta m' = _parent_meta m ∧
    _event_signatures m' = _event_signatures m ∧
    (∀ u, u ≠ uid it → parent_uid_of stored ≠ Some u →
          task_at u m' = task_at u m) ∧
    (∀ u t, task_at u m = Some t →
            ∃ t', task_at u m' = Some t' ∧ same_but_status t t') ∧
    ((∀ p tp, parent_uid_of stored = Some p → task_at p m = Some tp →
              is_parent tp = true) →
     ∀ u t, u ≠ uid it → task_at u m = Some t → is_parent t = false →
            task_at u m' = Some t).
Proof.
  intros Hst Hchild. unfold task_at in Hst.
  unfold async_update_item. rewrite Hst, Hchild.
  set (new_status := default NEEDS_ACTION (status it)).
  set (stored' := set_item_status new_status stored).
  set (m1 := with_tasks (Dict.replace (uid it) stored' (_tasks m)) m).
  destruct (refresh_parent_frame stored' m1) as (Hc & Hm & Hs & Ht).
  assert (Hattr : parent_uid_of stored' = parent_uid_of stored) by done.
  assert (H1 : ∀ u, u ≠ uid it → task_at u m1 = task_at u m).
  { intros u Hu. unfold task_at, m1. simpl. by apply get_replace_ne. }
  assert (H1' : task_at (uid it) m1 = Some stored').
  { unfold task_at, m1. simpl. by rewrite get_replace_eq, Hst. }
  eexists. split; [reflexivity|].
  assert (Hfin : ∀ u, task_at u (_notify_listeners (refresh_parent stored' m1))
                      = task_at u (refresh_parent stored' m1)) by done.
  split_and!; try done.
  - intros u Hu Hnp. rewrite Hfin.
    destruct (Ht u) as [->|[Hp _]]; [by apply H1|].
    rewrite Hattr in Hp. done.
  - intros u t Hut. rewrite Hfin.
    destruct (decide (u = uid it)) as [->|Hne].
    + unfold task_at in Hut. rewrite Hst in Hut. injection Hut as <-.
      destruct (Ht (uid it)) as [->|(_ & t1 & s & Ht1 & ->)].
      * rewrite H1'. eexists. split; [done|]. right. by exists new_status.
      * rewrite H1' in Ht1. injection Ht1 as <-.
        eexists. split; [done|]. right. by exists s.
    + destruct (Ht u) as [->|(_ & t1 & s & Ht1 & ->)].
      * rewrite H1 by done. eexists. split; [done|]. by left.
      * rewrite H1 in Ht1 by done. rewrite Hut in Ht1. injection Ht1 as <-.
        eexists. split; [done|]. right. by exists s.
  - intros Hparent u t Hne Hut Hnotparent. rewrite Hfin.
    destruct (Ht u) as [->|(Hp & _)].
    + by rewrite H1.
    + rewrite Hattr in Hp. specialize (Hparent u t Hp Hut). congruence.
Qed.

Lemma C10_witness :
  ∃ m',
    async_update_item tick_step planned_once = (Ok tt, m') ∧
    _parent_children m' = _parent_children planned_once ∧
    _parent_meta m' = _parent_meta planned_once ∧
    _event_signatures m' = _event_signatures planned_once ∧
    (∀ u, u ≠ uid tick_step → parent_uid_of party_step ≠ Some u →
          task_at u m' = task_at u planned_once) ∧
    (∀ u t, task_at u planned_once = Some t →
            ∃ t', task_at u m' = Some t' ∧ same_but_status t t') ∧
    ((∀ p tp, parent_uid_of party_step = Some p →
              task_at p planned_once = Some tp → is_parent tp = true) →
     ∀ u t, u ≠ uid tick_step → task_at u planned_once = Some t →
            is_parent t = false → task_at u m' = Some t).
Proof.
  apply (C10_child_edit_frame tick_step planned_once party_step).
  - vm_compute; reflexivity.
  - reflexivity.
Defined.

(** ** The signature of an event *)








(** ** The order of [iter_items] *)

Lemma string_ltb_false_le (a b : string) :
  String.ltb b a = false ↔ String.le a b.
Proof.
  unfold String.le, String.ltb, String.leb.
  rewrite (String.compare_antisym b a).
  destruct (String.compare a b); simpl; split; done.
Qed.

Lemma key_lt_false_le (a b : Z * string) : key_lt b a = false ↔ key_le a b.
Proof.
  unfold key_lt, key_le.
  destruct (Z.ltb_spec b.1 a.1) as [Hlt|Hge].
  { split; [done|]. intros [?|[? _]]; lia. }
  destruct (Z.eqb_spec b.1 a.1) as [Heq|Hne].
  - rewrite string_ltb_false_le. split; [by right | intros [?|[_ ?]]; [lia|done]].
  - split; [intros _; left; lia | done].
Qed.

#[local] Instance key_le_trans : Transitive key_le.
Proof.
  intros a b c [Hab|[Hab Hab']] [Hbc|[Hbc Hbc']]; unfold key_le.
  - left; lia.
  - left; lia.
  - left; lia.
  - right. split; [lia|]. by etrans.
Qed.

Lemma key_le_total (a b : Z * string) : key_le a b ∨ key_le b a.
Proof.
  unfold key_le. destruct (Z.lt_trichotomy a.1 b.1) as [?|[?|?]]; auto.
  destruct (total String.le a.2 b.2); auto.
Qed.

Lemma key_lt_true_not_le (a b : Z * string) :
  key_lt a b = true → ¬ key_le b a.
Proof. intros H Hle%key_lt_false_le. congruence. Qed.

Section SortFacts.
Context {A : Type} (key : A → Z * string).

Lemma sort_insert_perm (x : A) (l : list A) : sort_insert key x l ≡ₚ x :: l.
Proof.
  induction l as [|y l IH]; simpl; [done|].
  destruct (key_lt (key y) (key x)); [|done].
  rewrite IH. apply Permutation_swap.
Qed.

Lemma sort_insert_sorted (x : A) (l : list A) :
  StronglySorted (by_key key) l → StronglySorted (by_key key) (sort_insert key x l).
Proof.
  induction 1 as [|y l Hs IH Hall]; simpl.
  { repeat constructor. }
  destruct (key_lt (key y) (key x)) eqn:Hlt.
  - constructor; [done|].
    rewrite sort_insert_perm. constructor; [|done].
    unfold by_key. destruct (key_le_total (key y) (key x)) as [|Hle]; [done|].
    by apply key_lt_true_not_le in Hlt.
  - assert (Hxy : by_key key x y) by (by apply key_lt_false_le).
    constructor; [by constructor|].
    constructor; [done|].
    eapply Forall_impl; [done|]. intros z Hyz. unfold by_key in *. by etrans.
Qed.

Lemma list_sort_perm (l : list A) : list_sort key l ≡ₚ l.
Proof.
  induction l as [|x l IH]; simpl; [done|].
  by rewrite sort_insert_perm, IH.
Qed.

Lemma list_sort_sorted (l : list A) : StronglySorted (by_key key) (list_sort key l).
Proof.
  induction l as [|x l IH]; simpl; [constructor|].
  by apply sort_insert_sorted.
Qed.

Lemma sorted_lookup_le (l : list A) (i j : nat) (a b : A) :
  StronglySorted (by_key key) l → (i < j)%nat →
  l !! i = Some a → l !! j = Some b → by_key key a b.
Proof.
  intros Hs. revert i j. induction Hs as [|x l Hs IH Hall]; intros i j Hij Ha Hb.
  { done. }
  destruct j as [|j]; [lia|]. simpl in Hb.
  destruct i as [|i]; simpl in Ha.
  - injection Ha as ->. rewrite Forall_forall in Hall. apply Hall.
    by eapply list_elem_of_lookup_2.
  - apply (IH i j); [lia|done..].
Qed.

(** In a sorted list an item with a smaller key stands before an item
    with a greater key. *)
Lemma sorted_lt_before (l : list A) (i j : nat) (a b : A) :
  StronglySorted (by_key key) l →
  l !! i = Some a → l !! j = Some b →
  key_lt (key a) (key b) = true → (i < j)%nat.
Proof.
  intros Hs Ha Hb Hlt.
  destruct (Nat.lt_trichotomy i j) as [?|[->|Hji]]; [done|..].
  - rewrite Ha in Hb. injection Hb as ->.
    apply key_lt_true_not_le in Hlt. destruct Hlt.
    unfold key_le. right. done.
  - apply key_lt_true_not_le in Hlt. destruct Hlt.
    by apply (sorted_lookup_le l j i b a).
Qed.
End SortFacts.

(** C9, as the code has it. For every store state, list_items returns all
    stored tasks, sorted by the key (due, lowercased summary) where a
    missing due counts as datetime.max: an earlier due comes first, a task
    without a due value comes after every task whose due is earlier than
    datetime.max, and among tasks with the same due key the one with the
    smaller lowercased summary comes first. In particular, tasks with dues
    [2024-01-03, none, 2024-01-01] and summaries ["B", "A", "C"] are
    returned in the order C, B, A. *)
Theorem C9_iter_items_order (str_lower : string → string) (m : Manager) :
  let key := _todo_sort_key str_lower in
  let items := iter_items str_lower m in
  items ≡ₚ item <$> Dict.values (_tasks m) ∧
  StronglySorted (by_key key) items ∧
  (∀ i j a b,
     items !! i = Some a → items !! j = Some b →
     key_lt (key a) (key b) = true → (i < j)%nat) ∧
  (∀ i j a b da db,
     items !! i = Some a → items !! j = Some b →
     due a = Some da → due b = Some db → da < db → (i < j)%nat) ∧
  (∀ i j a b da,
     items !! i = Some a → items !! j = Some b →
     due a = Some da → da < datetime_max → due b = None → (i < j)%nat) ∧
  (∀ i j a b,
     items !! i = Some a → items !! j = Some b →
     default datetime_max (due a) = default datetime_max (due b) →
     String.ltb (str_lower (summary a)) (str_lower (summary b)) = true →
     (i < j)%nat) ∧
  summary <$> iter_items str_lower ordering_store = ["C"; "B"; "A"].
Proof.
  intros key items.
  assert (Hsorted : StronglySorted (by_key key) items)
    by apply list_sort_sorted.
  assert (Hbefore : ∀ i j a b,
            items !! i = Some a → items !! j = Some b →
            key_lt (key a) (key b) = true → (i < j)%nat).
  { intros i j a b Ha Hb Hlt. by apply (sorted_lt_before key items i j a b). }
  split_and!.
  - apply list_sort_perm.
  - done.
  - done.
  - intros i j a b da db Ha Hb Hda Hdb Hlt. apply (Hbefore i j a b Ha Hb).
    unfold key, _todo_sort_key, key_lt. simpl. rewrite Hda, Hdb. simpl.
    by apply Z.ltb_lt in Hlt as ->.
  - intros i j a b da Ha Hb Hda Hlt Hnone. apply (Hbefore i j a b Ha Hb).
    unfold key, _todo_sort_key, key_lt. simpl. rewrite Hda, Hnone. simpl.
    by apply Z.ltb_lt in Hlt as ->.
  - intros i j a b Ha Hb Hdue Hlt. apply (Hbefore i j a b Ha Hb).
    unfold key, _todo_sort_key, key_lt. simpl. rewrite Hdue.
    rewrite Z.ltb_irrefl, Z.eqb_refl. done.
  - reflexivity.
Qed.

Lemma C9_witness :
  summary <$> iter_items ascii_lower ordering_store = ["C"; "B"; "A"] ∧
  StronglySorted (by_key (_todo_sort_key ascii_lower))
                 (iter_items ascii_lower ordering_store) ∧
  iter_items ascii_lower ordering_store
    ≡ₚ item <$> Dict.values (_tasks ordering_store).
Proof.
  destruct (C9_iter_items_order ascii_lower ordering_store)
    as (Hperm & Hsorted & _ & _ & _ & _ & Hexample).
  split_and!; [exact Hexample | exact Hsorted | exact Hperm].
Defined.

(** The claim of C9 that tasks lacking a due value come after all tasks
    that have one fails for a task due at datetime.max: the task without a
    due value ties with it on the first component of the key and wins on
    the summary. *)
Lemma C9_no_due_before_last_instant :
  ∃ a b,
    iter_items ascii_lower last_instant_store !! 0%nat = Some a ∧
    iter_items ascii_lower last_instant_store !! 1%nat = Some b ∧
    due a = None ∧
    due b = Some datetime_max.
Proof. eexists _, _. split_and!; reflexivity. Qed.

(** ** What replacing a subtree does to the store *)

Section ReplaceFacts.
Variable uuid4 : nat → string.

Lemma drawn_S n count :
  drawn uuid4 n (S count) = uuid4 n :: drawn uuid4 (S n) count.
Proof. reflexivity. Qed.

Lemma elem_of_drawn u n count :
  u ∈ drawn uuid4 n count ↔ ∃ i, (i < count)%nat ∧ u = uuid4 (n + i).
Proof.
  unfold drawn. rewrite list_elem_of_fmap. split.
  - intros (j & -> & Hj%elem_of_seq). exists (j - n)%nat.
    split; [lia|]. f_equal. lia.
  - intros (i & Hi & ->). exists (n + i)%nat. split; [done|].
    apply elem_of_seq. lia.
Qed.

(** One round of the loop over the planned tasks. *)
Lemma add_child_step key ps pu due mt (m : Manager) planned :
  let m1 := add_child uuid4 key ps pu due mt m planned in
  let cu := uuid4 (uuids_drawn m) in
  uuids_drawn m1 = S (uuids_drawn m) ∧
  _parent_meta m1 = _parent_meta m ∧
  _event_signatures m1 = _event_signatures m ∧
  notified m1 = notified m ∧
  plans_requested m1 = plans_requested m ∧
  (∀ k, k ≠ key → _parent_children m1 !! k = _parent_children m !! k) ∧
  children_of key m1 = {[cu]} ∪ children_of key m ∧
  task_at cu m1 = Some (child_task key ps pu due mt planned cu) ∧
  (∀ u, u ≠ cu → task_at u m1 = task_at u m).
Proof.
  intros m1 cu. split_and!; try done.
  - intros k Hk. unfold m1, add_child. simpl. by rewrite lookup_insert_ne.
  - unfold children_of at 1. unfold m1, add_child. simpl.
    by rewrite lookup_insert_eq.
  - unfold task_at, m1, add_child. simpl. apply get_set_eq.
  - intros u Hu. unfold task_at, m1, add_child. simpl.
    by apply get_set_ne.
Qed.

(** The whole loop over the planned tasks. *)
Lemma add_children_spec key ps pu due mt ts (m : Manager) :
  let n := uuids_drawn m in
  let m' := foldl (add_child uuid4 key ps pu due mt) m ts in
  uuids_drawn m' = (n + length ts)%nat ∧
  _parent_meta m' = _parent_meta m ∧
  _event_signatures m' = _event_signatures m ∧
  notified m' = notified m ∧
  plans_requested m' = plans_requested m ∧
  (∀ k, k ≠ key → _parent_children m' !! k = _parent_children m !! k) ∧
  (∀ u, u ∈ children_of key m' ↔
        u ∈ drawn uuid4 n (length ts) ∨ u ∈ children_of key m) ∧
  (∀ u, u ∉ drawn uuid4 n (length ts) → task_at u m' = task_at u m) ∧
  (NoDup (drawn uuid4 n (length ts)) →
   ∀ i planned, ts !! i = Some planned →
     task_at (uuid4 (n + i)) m'
       = Some (child_task key ps pu due mt planned (uuid4 (n + i)))).
Proof.
  revert m. induction ts as [|t ts IH]; intros m n m'.
  { subst m' n. simpl. split_and!; try done; try lia.
    intros u. split; [by right|]. intros [Hu|?]; [|done].
      by apply elem_of_nil in Hu. }
  destruct (add_child_step key ps pu due mt m t)
    as (Hd1 & Hm1 & Hs1 & Hn1 & Hp1 & Hc1 & Hk1 & Ht1 & Ho1).
  set (m1 := add_child uuid4 key ps pu due mt m t) in *.
  destruct (IH m1) as (Hd & Hm & Hs & Hn & Hp & Hc & Hk & Ho & Ht).
  change (foldl (add_child uuid4 key ps pu due mt) m1 ts) with m' in *.
  rewrite Hd1 in *. fold n in Hd1, Hk1, Ht1, Ho1 |- *.
  simpl length. rewrite drawn_S.
  split_and!.
  - rewrite Hd. lia.
  - congruence.
  - congruence.
  - congruence.
  - congruence.
  - intros k Hk'. rewrite Hc by done. by apply Hc1.
  - intros u. rewrite Hk, Hk1, elem_of_cons, elem_of_union, elem_of_singleton.
    tauto.
  - intros u Hu. apply not_elem_of_cons in Hu as [Hne Hu].
    rewrite Ho by done. by apply Ho1.
  - intros Hnd i planned Hi. apply NoDup_cons in Hnd as [Hfresh Hnd].
    destruct i as [|i]; simpl in Hi.
    + injection Hi as ->. rewrite Nat.add_0_r.
      rewrite Ho by done. done.
    + replace (n + S i)%nat with (S n + i)%nat by lia. by apply Ht.
Qed.
(** [_replace_parent_tasks] on a key that has an entry in
    [self._parent_meta]: it ends normally, draws one uid for the parent and
    one for each planned task, and touches the indexes of that key only. *)
Lemma replace_spec key plan override (m : Manager) mt :
  _parent_meta m !! key = Some mt →
  let n := uuids_drawn m in
  let len := length (tasks plan) in
  let pu := uuid4 n in
  let ps := str_or (meta_summary mt) "Mental Load Aufgabe" in
  ∃ m',
    _replace_parent_tasks uuid4 key plan override m = (Ok tt, m') ∧
    uuids_drawn m' = S (n + len) ∧
    _parent_meta m' = <[key := installed_meta mt pu]> (_parent_meta m) ∧
    _event_signatures m' = _event_signatures m ∧
    notified m' = S (notified m) ∧
    plans_requested m' = plans_requested m ∧
    (∀ k, k ≠ key → _parent_children m' !! k = _parent_children m !! k) ∧
    (∀ u, u ∈ children_of key m' ↔ u ∈ drawn uuid4 (S n) len) ∧
    (∀ u, u ∉ drawn uuid4 n (S len) →
          task_at u m' =
            if decide (u ∈ children_of key m) then None else task_at u m) ∧
    (NoDup (drawn uuid4 n (S len)) →
     (∃ parent,
        task_at pu m' = Some parent ∧ is_parent parent = true ∧
        parent_key parent = key ∧ uid (item parent) = pu ∧
        summary (item parent) = ps ∧ due (item parent) = override ∧
        status (item parent) = Some (_derive_parent_status (tasks plan))) ∧
     ∀ i planned, tasks plan !! i = Some planned →
       task_at (uuid4 (S n + i)) m'
         = Some (child_task key ps pu override mt planned (uuid4 (S n + i)))).
Proof.
  intros Hmeta n len pu ps.
  unfold _replace_parent_tasks, draw_uuid. simpl. rewrite Hmeta. simpl.
  fold n pu ps.
  match goal with
  | |- context [foldl ?f ?base (tasks plan)] => set (m0 := base)
  end.
  change (mkMeta (meta_source mt) (meta_summary mt) (meta_mental_load mt)
                 (meta_notes mt) (Some pu))
    with (installed_meta mt pu) in *.
  destruct (add_children_spec key ps pu override (installed_meta mt pu)
              (tasks plan) m0)
    as (Hd & Hm & Hs & Hn & Hp & Hc & Hk & Ho & Ht).
  change (uuids_drawn m0) with (S n) in *. fold len in Hd, Hk, Ho, Ht.
  set (m' := foldl (add_child uuid4 key ps pu override (installed_meta mt pu))
                   m0 (tasks plan)) in *.
  assert (Hkids0 : children_of key m0 = ∅).
  { unfold children_of, m0. simpl. by rewrite lookup_insert_eq. }
  assert (Htask0 : ∀ u, u ≠ pu →
            task_at u m0 =
              if decide (u ∈ children_of key m) then None else task_at u m).
  { intros u Hu. unfold task_at, m0. simpl.
    rewrite get_set_ne by done. rewrite get_pop_tasks.
    destruct (decide (u ∈ elements (children_of key m))) as [Hin|Hnin].
    - rewrite decide_True; [done | by apply elem_of_elements].
    - rewrite decide_False; [done | by rewrite <- elem_of_elements]. }
  exists (_notify_listeners m'). split; [done|].
  split_and!.
  - change (uuids_drawn (_notify_listeners m')) with (uuids_drawn m'). lia.
  - change (_parent_meta (_notify_listeners m')) with (_parent_meta m').
    by rewrite Hm.
  - change (_event_signatures (_notify_listeners m'))
      with (_event_signatures m'). by rewrite Hs.
  - change (notified (_notify_listeners m')) with (S (notified m')).
    by rewrite Hn.
  - change (plans_requested (_notify_listeners m'))
      with (plans_requested m'). by rewrite Hp.
  - intros k Hne.
    change (_parent_children (_notify_listeners m'))
      with (_parent_children m').
    rewrite Hc by done. unfold m0. simpl.
    rewrite lookup_insert_ne by done. by apply lookup_delete_ne.
  - intros u.
    change (children_of key (_notify_listeners m')) with (children_of key m').
    rewrite Hk, Hkids0. set_unfold. tauto.
  - intros u Hu. rewrite drawn_S in Hu. apply not_elem_of_cons in Hu as [Hne Hu].
    change (task_at u (_notify_listeners m')) with (task_at u m').
    rewrite Ho by done. by apply Htask0.
  - intros Hnd. rewrite drawn_S in Hnd. apply NoDup_cons in Hnd as [Hfresh Hnd].
    split.
    + eexists.
      change (task_at pu (_notify_listeners m')) with (task_at pu m').
      rewrite Ho by done. unfold task_at, m0. simpl.
      rewrite get_set_eq. split_and!; reflexivity.
    + intros i planned Hi. exact (Ht Hnd i planned Hi).
Qed.
End ReplaceFacts.

(** ** The children built from a plan *)

Lemma child_description_parts (planned : PlannedTask) :
  _child_description planned = description_from "Mental Load: " planned.
Proof.
  unfold _child_description, description_from, present, truthy, str_or.
  destruct (p_description planned) as [d|], (effort planned) as [e|],
           (notes planned) as [n|]; simpl;
    repeat match goal with
           | |- context [String.eqb ?s ""] => destruct (String.eqb s "")
           end; reflexivity.
Qed.

(** C6, as the code has it. For every PlannedTask in a plan passed to
    replace_subtree, the child task created for it has summary
    "<parent summary>: <planned title>", description equal to the
    newline-join of the non-empty values among planned.description, the
    line "Mental Load: {planned.effort}" when effort is present, and
    planned.notes (None when all are absent), status NEEDS_ACTION, due equal
    to planned.due if present and otherwise the due_override, and an
    attributes map carrying the parent task's id; the child is stored under
    its own fresh uid, with the parent key, and listed in the child set of
    the key, and the parent id it carries resolves to the new parent. *)
Theorem C6_children_built_from_plan
    (uuid4 : nat → string) (key : string) (plan : PlannedResponse)
    (due_override : option Z) (m : Manager) (mt : Meta) :
  _parent_meta m !! key = Some mt →
  NoDup (drawn uuid4 (uuids_drawn m) (S (length (tasks plan)))) →
  ∃ m' parent,
    _replace_parent_tasks uuid4 key plan due_override m = (Ok tt, m') ∧
    task_at (uuid4 (uuids_drawn m)) m' = Some parent ∧
    is_parent parent = true ∧
    summary (item parent) = parent_summary_of key m ∧
    ∀ i planned, tasks plan !! i = Some planned →
      let child_uid := uuid4 (S (uuids_drawn m) + i)%nat in
      ∃ child,
        task_at child_uid m' = Some child ∧
        child_uid ∈ children_of key m' ∧
        parent_key child = key ∧
        is_parent child = false ∧
        uid (item child) = child_uid ∧
        summary (item child)
          = summary (item parent) +:+ ": " +:+ title planned ∧
        description (item child) = description_from "Mental Load: " planned ∧
        status (item child) = Some NEEDS_ACTION ∧
        due (item child)
          = match p_due planned with
            | Some d => Some d
            | None => due_override
            end ∧
        (extra (item child) ≫= attr_parent_uid)
          = Some (uuid4 (uuids_drawn m)).
Proof.
  intros Hmeta Hnd.
  destruct (replace_spec uuid4 key plan due_override m mt Hmeta)
    as (m' & Hrun & _ & _ & _ & _ & _ & _ & Hkids & _ & Hnew).
  destruct (Hnew Hnd) as ((parent & Hp & Hip & _ & _ & Hsum & _) & Hchildren).
  exists m', parent. split_and!; try done.
  { rewrite Hsum. unfold parent_summary_of. by rewrite Hmeta. }
  intros i planned Hi child_uid.
  eexists. split; [by apply Hchildren|].
  split_and!; try reflexivity.
  - apply Hkids, elem_of_drawn. exists i. split; [|done].
    by eapply lookup_lt_Some.
  - simpl. by rewrite Hsum.
  - simpl. apply child_description_parts.
  - simpl. unfold dt_or. by destruct (p_due planned).
Qed.

Lemma C6_witness :
  ∃ m' parent,
    _replace_parent_tasks demo_uuid4 party_key demo_plan (Some 100)
                          planned_once = (Ok tt, m') ∧
    task_at (demo_uuid4 (uuids_drawn planned_once)) m' = Some parent ∧
    is_parent parent = true ∧
    summary (item parent) = parent_summary_of party_key planned_once ∧
    ∀ i planned, tasks demo_plan !! i = Some planned →
      let child_uid := demo_uuid4 (S (uuids_drawn planned_once) + i)%nat in
      ∃ child,
        task_at child_uid m' = Some child ∧
        child_uid ∈ children_of party_key m' ∧
        parent_key child = party_key ∧
        is_parent child = false ∧
        uid (item child) = child_uid ∧
        summary (item child)
          = summary (item parent) +:+ ": " +:+ title planned ∧
        description (item child) = description_from "Mental Load: " planned ∧
        status (item child) = Some NEEDS_ACTION ∧
        due (item child)
          = match p_due planned with
            | Some d => Some d
            | None => Some 100
            end ∧
        (extra (item child) ≫= attr_parent_uid)
          = Some (demo_uuid4 (uuids_drawn planned_once)).
Proof.
  apply (C6_children_built_from_plan demo_uuid4 party_key demo_plan (Some 100)
           planned_once
           (mkMeta (Some "calendar") (Some "Party") (Some "mid") None
                   (Some "id"))).
  - vm_compute; reflexivity.
  - apply (bool_decide_unpack _). vm_compute. exact I.
Defined.

(** The claim of C6 that the effort is written as the line
    "effort: {planned.effort}" fails: the line the code writes starts with
    "Mental Load: ". *)
Lemma C6_effort_line_has_another_label :
  _child_description buy_step ≠ description_from "effort: " buy_step ∧
  (task_at party_step_uid planned_once ≫= λ t, description (item t))
    ≠ description_from "effort: " buy_step ∧
  _child_description buy_step = Some ("milk" +:+ newline +:+ "Mental Load: high") ∧
  description_from "effort: " buy_step
    = Some ("milk" +:+ newline +:+ "effort: high").
Proof. split_and!; vm_compute; (discriminate || reflexivity). Qed.

(** ** One parent per key *)

(** First installation: when the store holds no parent task for the key
    before the call and the uids drawn are new, the store holds exactly
    one parent task for the key afterwards, the child set has one member
    per planned task, and every child names that parent. *)
Lemma replace_first_install
    (uuid4 : nat → string) (key : string) (plan : PlannedResponse)
    (due_override : option Z) (m : Manager) (mt : Meta) :
  _parent_meta m !! key = Some mt →
  NoDup (drawn uuid4 (uuids_drawn m) (S (length (tasks plan)))) →
  (∀ u t, task_at u m = Some t → is_parent t = true → parent_key t ≠ key) →
  ∃ m',
    _replace_parent_tasks uuid4 key plan due_override m = (Ok tt, m') ∧
    (∀ u t, task_at u m' = Some t → is_parent t = true → parent_key t = key →
            u = uuid4 (uuids_drawn m)) ∧
    (∃ parent, task_at (uuid4 (uuids_drawn m)) m' = Some parent ∧
               is_parent parent = true ∧ parent_key parent = key) ∧
    size (children_of key m') = length (tasks plan) ∧
    (∀ c, c ∈ children_of key m' →
          ∃ child, task_at c m' = Some child ∧ is_parent child = false ∧
                   parent_uid_of child = Some (uuid4 (uuids_drawn m))).
Proof.
  intros Hmeta Hnd Hnone.
  destruct (replace_spec uuid4 key plan due_override m mt Hmeta)
    as (m' & Hrun & _ & _ & _ & _ & _ & _ & Hkids & Hold & Hnew).
  destruct (Hnew Hnd) as ((parent & Hp & Hip & Hpk & _) & Hchildren).
  exists m'. split; [done|]. split_and!.
  - intros u t Hu Hparent Hkey.
    destruct (decide (u ∈ drawn uuid4 (uuids_drawn m) (S (length (tasks plan)))))
      as [Hin|Hnin].
    + rewrite drawn_S in Hin. apply elem_of_cons in Hin as [?|Hin]; [done|].
      apply elem_of_drawn in Hin as (i & Hi & ->).
      destruct (lookup_lt_is_Some_2 (tasks plan) i Hi) as [planned Hpl].
      rewrite (Hchildren i planned Hpl) in Hu. injection Hu as <-. done.
    + rewrite Hold in Hu by done.
      destruct (decide (u ∈ children_of key m)); [done|].
      by destruct (Hnone u t Hu Hparent).
  - eauto.
  - assert (Heq : children_of key m'
                  = list_to_set (drawn uuid4 (S (uuids_drawn m))
                                       (length (tasks plan)))).
    { apply set_eq. intros u. rewrite Hkids. by rewrite elem_of_list_to_set. }
    rewrite Heq, size_list_to_set.
    + unfold drawn. by rewrite length_fmap, length_seq.
    + rewrite drawn_S in Hnd. by apply NoDup_cons in Hnd as [_ ?].
  - intros c Hc. apply Hkids, elem_of_drawn in Hc as (i & Hi & ->).
    destruct (lookup_lt_is_Some_2 (tasks plan) i Hi) as [planned Hpl].
    eexists. split; [by apply Hchildren|]. done.
Qed.

(** Replacement: a parent task the store already holds for the key is
    still stored after the call, next to the new parent. *)
Lemma replace_keeps_previous_parent
    (uuid4 : nat → string) (key : string) (plan : PlannedResponse)
    (due_override : option Z) (m : Manager) (mt : Meta)
    (old : string) (t : StoredTask) :
  _parent_meta m !! key = Some mt →
  NoDup (drawn uuid4 (uuids_drawn m) (S (length (tasks plan)))) →
  task_at old m = Some t → is_parent t = true → parent_key t = key →
  old ∉ children_of key m →
  old ∉ drawn uuid4 (uuids_drawn m) (S (length (tasks plan))) →
  ∃ m' parent,
    _replace_parent_tasks uuid4 key plan due_override m = (Ok tt, m') ∧
    task_at old m' = Some t ∧
    task_at (uuid4 (uuids_drawn m)) m' = Some parent ∧
    is_parent parent = true ∧ parent_key parent = key ∧
    old ≠ uuid4 (uuids_drawn m).
Proof.
  intros Hmeta Hnd Hold Hip Hpk Hnotchild Hfresh.
  destruct (replace_spec uuid4 key plan due_override m mt Hmeta)
    as (m' & Hrun & _ & _ & _ & _ & _ & _ & _ & Hframe & Hnew).
  destruct (Hnew Hnd) as ((parent & Hp & Hpp & Hkp & _) & _).
  exists m', parent. split_and!; try done.
  - rewrite Hframe by done. by rewrite decide_False.
  - intros ->. apply Hfresh. rewrite drawn_S. left.
Qed.

(** C1 at the failing input. The party is planned, its description
    changes, and it is planned again through async_process_calendar_event:
    the second pass ends normally, yet the store then holds two parent
    tasks for the key of the party, the one of the first plan (uid "id")
    and the one of the second (uid "xxxid"); the child set has the two
    members of the new plan and they name the new parent. *)
Theorem C1_replanning_leaves_two_parents :
  (demo_process "home" party_key party_moved planned_once).1 = Ok true ∧
  (parent_tasks party_key planned_once).*1 = [demo_uuid4 0] ∧
  (parent_tasks party_key planned_twice).*1 = [demo_uuid4 0; demo_uuid4 3] ∧
  elements (children_of party_key planned_twice)
    ≡ₚ [demo_uuid4 4; demo_uuid4 5] ∧
  (task_at (demo_uuid4 4) planned_twice ≫= parent_uid_of)
    = Some (demo_uuid4 3) ∧
  (task_at (demo_uuid4 5) planned_twice ≫= parent_uid_of)
    = Some (demo_uuid4 3).
Proof.
  split_and!; vm_compute; reflexivity.
Qed.

(** ** Removing subtrees *)

Lemma remove_parent_spec key (m : Manager) :
  let m' := _remove_parent key m in
  _parent_children m' = delete key (_parent_children m) ∧
  _parent_meta m' = delete key (_parent_meta m) ∧
  _event_signatures m' = _event_signatures m ∧
  notified m' = notified m ∧
  uuids_drawn m' = uuids_drawn m ∧
  plans_requested m' = plans_requested m ∧
  ∀ u, task_at u m' =
       if decide (u ∈ subtree_uids key m) then None else task_at u m.
Proof.
  intros m'. subst m'. unfold _remove_parent. simpl.
  assert (Hpop : ∀ u,
            Dict.get u (pop_tasks (elements (children_of key m)) (_tasks m)) =
            if decide (u ∈ children_of key m) then None else task_at u m).
  { intros u. rewrite get_pop_tasks.
    destruct (decide (u ∈ elements (children_of key m))) as [Hin|Hnin].
    - rewrite decide_True; [done | by apply elem_of_elements].
    - rewrite decide_False; [done | by rewrite <- elem_of_elements]. }
  unfold subtree_uids, recorded_parent.
  destruct (_parent_meta m !! key) as [mt|] eqn:Hmt; simpl.
  - destruct (meta_parent_uid mt) as [p|] eqn:Hp; simpl.
    + destruct (String.eqb p "") eqn:Hempty; simpl.
      * split_and!; try done. intros u. unfold task_at at 1. simpl.
        rewrite Hpop. apply decide_ext. set_unfold. intuition congruence.
      * split_and!; try done. intros u. unfold task_at at 1. simpl.
        destruct (decide (p = u)) as [->|Hne].
        -- rewrite get_pop_eq. rewrite decide_True; [done | set_unfold; by right].
        -- rewrite get_pop_ne by done. rewrite Hpop.
           apply decide_ext. set_unfold. intuition congruence.
    + split_and!; try done. intros u. unfold task_at at 1. simpl.
      rewrite Hpop. apply decide_ext. set_unfold. intuition congruence.
  - split_and!; try done. intros u. unfold task_at at 1. simpl.
    rewrite Hpop. apply decide_ext. set_unfold. intuition congruence.
Qed.

Lemma subtree_uids_remove_parent key key' (m : Manager) :
  subtree_uids key' (_remove_parent key m) =
    if decide (key' = key) then ∅ else subtree_uids key' m.
Proof.
  destruct (remove_parent_spec key m) as (Hc & Hm & _).
  unfold subtree_uids, recorded_parent, children_of. rewrite Hc, Hm.
  destruct (decide (key' = key)) as [->|Hne].
  - rewrite !lookup_delete_eq. simpl. set_unfold. tauto.
  - by rewrite !lookup_delete_ne.
Qed.

(** The loop of the prune step over the selected keys. *)
Lemma remove_parents_spec ks (m : Manager) :
  let m' := foldl (λ acc key, _remove_parent key acc) m ks in
  (∀ k, _parent_children m' !! k =
        if decide (k ∈ ks) then None else _parent_children m !! k) ∧
  (∀ k, _parent_meta m' !! k =
        if decide (k ∈ ks) then None else _parent_meta m !! k) ∧
  _event_signatures m' = _event_signatures m ∧
  uuids_drawn m' = uuids_drawn m ∧
  plans_requested m' = plans_requested m ∧
  notified m' = notified m ∧
  (∀ u, task_at u m = None → task_at u m' = None) ∧
  (∀ u k, k ∈ ks → u ∈ subtree_uids k m → task_at u m' = None) ∧
  (∀ u, (∀ k, k ∈ ks → u ∉ subtree_uids k m) → task_at u m' = task_at u m).
Proof.
  revert m. induction ks as [|k0 ks IH]; intros m m'.
  { subst m'. simpl. split_and!; try done.
    intros u k Hk. by apply elem_of_nil in Hk. }
  destruct (remove_parent_spec k0 m) as (Hc1 & Hm1 & Hs1 & Hn1 & Hd1 & Hp1 & Ht1).
  set (m1 := _remove_parent k0 m) in *.
  destruct (IH m1) as (Hc & Hm & Hs & Hd & Hp & Hn & Hmono & Hgone & Hkeep).
  change (foldl (λ acc key, _remove_parent key acc) m1 ks) with m' in *.
  assert (Hmono1 : ∀ u, task_at u m = None → task_at u m1 = None).
  { intros u Hu. rewrite Ht1, Hu. by destruct (decide _). }
  split_and!; try congruence.
  - intros k. rewrite Hc, Hc1.
    destruct (decide (k = k0)) as [->|Hne].
    + rewrite lookup_delete_eq.
      rewrite (decide_True (P := k0 ∈ k0 :: ks)) by left.
      by destruct (decide _).
    + rewrite lookup_delete_ne by done.
      apply decide_ext. rewrite elem_of_cons. intuition congruence.
  - intros k. rewrite Hm, Hm1.
    destruct (decide (k = k0)) as [->|Hne].
    + rewrite lookup_delete_eq.
      rewrite (decide_True (P := k0 ∈ k0 :: ks)) by left.
      by destruct (decide _).
    + rewrite lookup_delete_ne by done.
      apply decide_ext. rewrite elem_of_cons. intuition congruence.
  - intros u Hu. by apply Hmono, Hmono1.
  - intros u k Hk Hu. destruct (decide (k = k0)) as [->|Hne].
    + apply Hmono. rewrite Ht1. by rewrite decide_True.
    + apply elem_of_cons in Hk as [?|Hk]; [done|].
      apply (Hgone u k Hk). unfold m1.
      rewrite subtree_uids_remove_parent. by rewrite decide_False.
  - intros u Hu. rewrite Hkeep.
    + rewrite Ht1. rewrite decide_False; [done|]. apply Hu. left.
    + intros k Hk. unfold m1. rewrite subtree_uids_remove_parent.
      destruct (decide (k = k0)); [set_unfold; tauto|].
      apply Hu. by right.
Qed.

Lemma elem_of_to_remove valid (m : Manager) key :
  key ∈ to_remove valid m ↔
    is_Some (_parent_meta m !! key) ∧
    String.prefix "calendar:" key = true ∧ key ∉ valid.
Proof.
  unfold to_remove. rewrite list_elem_of_filter, list_elem_of_fmap. split.
  - intros ((Hp & Hv) & ([k mt] & -> & Hin%elem_of_map_to_list)). eauto.
  - intros ([mt Hmt] & Hp & Hv). split; [done|].
    exists (key, mt). split; [done|]. by apply elem_of_map_to_list.
Qed.

Lemma calendar_key_not_manual (key : string) :
  String.prefix "calendar:" key = true →
  String.prefix "manual:" key = true → False.
Proof.
  intros Hc%String.prefix_correct Hm%String.prefix_correct.
  destruct key as [|c key]; simpl in Hc, Hm; [done|].
  congruence.
Qed.

(** What the prune step removes and what it keeps. Every key that starts
    with "calendar:", has a meta entry and is not in the observed key set
    loses what the indexes record for it: its entries in the meta and the
    children indexes, its children and the parent task the meta entry
    names. No subtree whose parent key starts with "manual:" is removed:
    its index entries are the same afterwards and every task that carries
    the key is still stored, unchanged. The signatures recorded for the
    keys stay as they are. A parent task that no index refers to is out of
    the reach of this statement, and of the prune step as well: see the
    cancelled party below. *)
Lemma prune_removes_indexed_subtrees
    (valid : gset string) (m : Manager) :
  index_consistent m →
  let m' := (remove_missing_calendar_events valid m).2 in
  (∀ key, is_Some (_parent_meta m !! key) →
          String.prefix "calendar:" key = true → key ∉ valid →
          _parent_meta m' !! key = None ∧
          _parent_children m' !! key = None ∧
          subtree_uids key m' = ∅ ∧
          ∀ u, u ∈ subtree_uids key m → task_at u m' = None) ∧
  (∀ key, String.prefix "manual:" key = true →
          _parent_meta m' !! key = _parent_meta m !! key ∧
          _parent_children m' !! key = _parent_children m !! key ∧
          ∀ u t, task_at u m = Some t → parent_key t = key →
                 task_at u m' = Some t) ∧
  _event_signatures m' = _event_signatures m.
Proof.
  intros Hwf m'.
  destruct (remove_parents_spec (to_remove valid m) m)
    as (Hc & Hm & Hsig & _ & _ & _ & _ & Hgone & Hkeep).
  set (m1 := foldl (λ acc key, _remove_parent key acc) m (to_remove valid m))
    in *.
  assert (Hsigs : _event_signatures m' = _event_signatures m1).
  { subst m'. unfold remove_missing_calendar_events. simpl.
    fold m1. by destruct (to_remove valid m). }
  assert (Htasks : ∀ u, task_at u m' = task_at u m1).
  { intros u. subst m'. unfold remove_missing_calendar_events. simpl.
    fold m1. by destruct (to_remove valid m). }
  assert (Hchildren : _parent_children m' = _parent_children m1).
  { subst m'. unfold remove_missing_calendar_events. simpl.
    fold m1. by destruct (to_remove valid m). }
  assert (Hmeta : _parent_meta m' = _parent_meta m1).
  { subst m'. unfold remove_missing_calendar_events. simpl.
    fold m1. by destruct (to_remove valid m). }
  split_and!; [| |congruence].
  - intros key Hsome Hprefix Hvalid.
    assert (Hin : key ∈ to_remove valid m) by (by apply elem_of_to_remove).
    assert (Hmk : _parent_meta m' !! key = None).
    { rewrite Hmeta, Hm. by rewrite decide_True. }
    assert (Hck : _parent_children m' !! key = None).
    { rewrite Hchildren, Hc. by rewrite decide_True. }
    split_and!; try done.
    + unfold subtree_uids, recorded_parent, children_of.
      rewrite Hmk, Hck. simpl. set_unfold. tauto.
    + intros u Hu. rewrite Htasks. by apply (Hgone u key).
  - intros key Hprefix.
    assert (Hnotin : key ∉ to_remove valid m).
    { intros (_ & Hcal & _)%elem_of_to_remove.
      by apply (calendar_key_not_manual key). }
    split_and!.
    + rewrite Hmeta, Hm. by rewrite decide_False.
    + rewrite Hchildren, Hc. by rewrite decide_False.
    + intros u t Hu Hkey. rewrite Htasks, Hkeep; [done|].
      intros k Hk Hsub. apply Hnotin.
      rewrite <- Hkey. by rewrite (Hwf k u t Hsub Hu).
Qed.

Lemma index_consistentb_sound (m : Manager) :
  index_consistentb m = true → index_consistent m.
Proof.
  unfold index_consistentb. rewrite forallb_forall.
  intros Hall key u t Hu Ht.
  assert (Hkey : key ∈ dom (_parent_children m) ∪ dom (_parent_meta m)).
  { apply elem_of_union. rewrite !elem_of_dom.
    unfold subtree_uids, recorded_parent, children_of in Hu.
    destruct (_parent_children m !! key); [left; eauto|].
    destruct (_parent_meta m !! key); [right; eauto|].
    simpl in Hu. set_unfold. tauto. }
  apply elem_of_elements, list_elem_of_In in Hkey.
  specialize (Hall key Hkey). rewrite forallb_forall in Hall.
  apply elem_of_elements, list_elem_of_In in Hu.
  specialize (Hall u Hu). rewrite Ht in Hall.
  by apply bool_decide_eq_true in Hall.
Qed.

Example prune_removes_indexed_subtrees_of_the_household :
  let m' := (remove_missing_calendar_events ∅ household).2 in
  (∀ key, is_Some (_parent_meta household !! key) →
          String.prefix "calendar:" key = true → key ∉ (∅ : gset string) →
          _parent_meta m' !! key = None ∧
          _parent_children m' !! key = None ∧
          subtree_uids key m' = ∅ ∧
          ∀ u, u ∈ subtree_uids key household → task_at u m' = None) ∧
  (∀ key, String.prefix "manual:" key = true →
          _parent_meta m' !! key = _parent_meta household !! key ∧
          _parent_children m' !! key = _parent_children household !! key ∧
          ∀ u t, task_at u household = Some t → parent_key t = key →
                 task_at u m' = Some t) ∧
  _event_signatures m' = _event_signatures household.
Proof.
  apply (prune_removes_indexed_subtrees ∅ household).
  apply index_consistentb_sound. vm_compute. reflexivity.
Defined.

(** C8 at the failing input. The party is planned in one cycle and
    planned again in the next because its description changed; in the
    third cycle the calendar returns no event, so the key of the party is
    not observed and the prune step selects it. The cycle ends normally and
    the key loses its meta entry, its child set, its children and the
    parent of the second plan, but the parent task of the first plan,
    which carries the same key, is still stored and still listed. *)
Theorem C8_prune_leaves_the_previous_parent :
  (demo_cycle (fetched [("home", [])]) party_replanned).1 = Ok tt ∧
  String.prefix "calendar:" party_key = true ∧
  (party_key ∉ observed_keys demo_time_text [("home", [])]) ∧
  is_Some (_parent_meta party_replanned !! party_key) ∧
  (parent_tasks party_key party_replanned).*1
    = [demo_uuid4 0; demo_uuid4 3] ∧
  _parent_meta party_cancelled !! party_key = None ∧
  _parent_children party_cancelled !! party_key = None ∧
  (_tasks party_cancelled).*1 = [demo_uuid4 0] ∧
  (parent_key <$> task_at (demo_uuid4 0) party_cancelled) = Some party_key ∧
  (is_parent <$> task_at (demo_uuid4 0) party_cancelled) = Some true ∧
  summary <$> iter_items ascii_lower party_cancelled = ["Party"].
Proof.
  split_and!.
  - vm_compute. reflexivity.
  - reflexivity.
  - apply (bool_decide_unpack _). vm_compute. exact I.
  - apply (bool_decide_unpack _). vm_compute. exact I.
  - vm_compute. reflexivity.
  - vm_compute. reflexivity.
  - vm_compute. reflexivity.
  - vm_compute. reflexivity.
  - vm_compute. reflexivity.
  - vm_compute. reflexivity.
  - vm_compute. reflexivity.
Qed.

(** The household after a cycle that no longer observes the party: the
    party is gone, the manual request is still there. *)
Example prune_household :
  let m' := (remove_missing_calendar_events ∅ household).2 in
  (remove_missing_calendar_events ∅ household).1 = 1%nat ∧
  (_tasks household).*1
    = [demo_uuid4 0; demo_uuid4 1; demo_uuid4 2;
       demo_uuid4 4; demo_uuid4 5; demo_uuid4 6] ∧
  (_tasks m').*1 = [demo_uuid4 4; demo_uuid4 5; demo_uuid4 6] ∧
  is_Some (_parent_meta m' !! taxes_key) ∧
  _parent_meta m' !! party_key = None.
Proof.
  cbv zeta. split_and!; try (vm_compute; reflexivity).
  vm_compute. eauto.
Qed.

(** ** Processing one event *)

Section ProcessFacts.
Variable uuid4 : nat → string.
Variable isoformat : Z → string.
Variable start_of_local_day : Z → Z.
Variable planner :
  nat → option string → option string → pytime → pytime → PlannedResponse.

Abbreviation process :=
  (async_process_calendar_event uuid4 isoformat start_of_local_day planner).
Abbreviation signature := (_event_signature isoformat).


(** An event is processed without an exception; only the entries of its
    key change in the indexes, and only the children of its key and the
    uids drawn change in the store. *)
Lemma process_spec cid key event (m : Manager) :
  ∃ b m',
    process cid key event m = (Ok b, m') ∧
    _event_signatures m' = <[key := signature event]> (_event_signatures m) ∧
    (∀ k, k ≠ key → _parent_meta m' !! k = _parent_meta m !! k) ∧
    (∀ k, k ≠ key → _parent_children m' !! k = _parent_children m !! k) ∧
    (uuids_drawn m ≤ uuids_drawn m')%nat ∧
    (plans_requested m ≤ plans_requested m')%nat ∧
    (∀ u, u ∉ children_of key m →
          u ∉ drawn uuid4 (uuids_drawn m) (uuids_drawn m' - uuids_drawn m) →
          task_at u m' = task_at u m) ∧
    (∀ u, u ∈ children_of key m' →
          u ∈ children_of key m ∨
          u ∈ drawn uuid4 (uuids_drawn m) (uuids_drawn m' - uuids_drawn m)).
Proof.
  rewrite process_unfold. cbv zeta.
  destruct (decide (_event_signatures m !! key = Some (signature event)))
    as [Hsig|Hsig].
  { exists false, m. split_and!; try done; [by rewrite insert_id | by left]. }
  set (plan := planner (plans_requested m) (ev_summary event)
                 (ev_description event) (ev_start event) (ev_end event)).
  set (mt := mkMeta (Some CALENDAR_SOURCE) (ev_summary event)
               (mental_load plan) (summary_notes plan) None).
  set (due_dt := dt_or (due_of_time start_of_local_day (ev_start event))
                       (due_of_time start_of_local_day (ev_end event))).
  match goal with
  | |- context [_replace_parent_tasks uuid4 key plan due_dt ?base] =>
      set (m0 := base)
  end.
  destruct (replace_spec uuid4 key plan due_dt m0 mt)
    as (m' & Hrun & Hd & Hm & Hs & _ & Hp & Hc & Hkids & Ht & _).
  { unfold m0. simpl. apply lookup_insert_eq. }
  rewrite Hrun. exists true, m'. split_and!; try done.
  - intros k Hk. rewrite Hm. rewrite lookup_insert_ne by done.
    unfold m0. simpl. by rewrite lookup_insert_ne.
  - rewrite Hd. change (uuids_drawn m0) with (uuids_drawn m). lia.
  - rewrite Hp. simpl. lia.
  - intros u Hchild Hfresh.
    change (uuids_drawn m0) with (uuids_drawn m) in *.
    rewrite Hd in Hfresh.
    replace (S (uuids_drawn m + length (tasks plan)) - uuids_drawn m)%nat
      with (S (length (tasks plan))) in Hfresh by lia.
    rewrite Ht by done.
    change (children_of key m0) with (children_of key m).
    by rewrite decide_False.
  - intros u Hu. right. apply Hkids in Hu.
    change (uuids_drawn m0) with (uuids_drawn m) in *. rewrite Hd.
    replace (S (uuids_drawn m + length (tasks plan)) - uuids_drawn m)%nat
      with (S (length (tasks plan))) by lia.
    rewrite drawn_S. by right.
Qed.
End ProcessFacts.

(** ** A reconciliation cycle *)

Section CycleFacts.
Variable uuid4 : nat → string.
Variable isoformat : Z → string.
Variable start_of_local_day : Z → Z.
Variable time_text : pytime → string.
Variable planner :
  nat → option string → option string → pytime → pytime → PlannedResponse.

Abbreviation process :=
  (async_process_calendar_event uuid4 isoformat start_of_local_day planner).
Abbreviation signature := (_event_signature isoformat).
Abbreviation run := (run_intents uuid4 isoformat start_of_local_day planner).
Abbreviation key_of := (_make_parent_key time_text).
Abbreviation events_loop :=
  (process_events uuid4 isoformat start_of_local_day time_text planner).
Abbreviation calendars_loop :=
  (process_calendars uuid4 isoformat start_of_local_day time_text planner).
Abbreviation cycle :=
  (_async_update_data uuid4 isoformat start_of_local_day time_text planner).

Lemma run_app (i1 i2 : list (string * CalendarEvent)) (m : Manager) :
  run (i1 ++ i2) m = run i2 (run i1 m).
Proof. unfold run_intents. by rewrite foldl_app. Qed.

Lemma run_cons ke (intents : list (string * CalendarEvent)) (m : Manager) :
  run (ke :: intents) m = run intents (process "" ke.1 ke.2 m).2.
Proof. reflexivity. Qed.

Lemma process_events_run cid events (obs : gset string) (m : Manager) :
  events_loop cid events obs m =
    (Ok (list_to_set (key_of cid <$> events) ∪ obs),
     run ((λ e, (key_of cid e, e)) <$> events) m).
Proof.
  revert obs m. induction events as [|e events IH]; intros obs m.
  { simpl. f_equal. f_equal. apply set_eq. intros k. set_unfold. tauto. }
  rewrite !fmap_cons, run_cons. cbn [process_events fst snd].
  change (process "" (key_of cid e) e m) with (process cid (key_of cid e) e m).
  destruct (process_spec uuid4 isoformat start_of_local_day planner
              cid (key_of cid e) e m) as (b & m' & Hrun & _).
  rewrite Hrun, IH. cbn [snd]. f_equal. f_equal.
  apply set_eq. intros k. set_unfold. tauto.
Qed.

Lemma process_calendars_run calendars (obs : gset string) (m : Manager) :
  calendars_loop (fetched calendars) obs m =
    (Ok (observed_keys time_text calendars ∪ obs),
     run (intents_of time_text calendars) m).
Proof.
  revert obs m. induction calendars as [|[cid events] cs IH]; intros obs m.
  { simpl. f_equal. f_equal. apply set_eq. intros k.
    unfold observed_keys. set_unfold. tauto. }
  change (fetched ((cid, events) :: cs))
    with ((cid, Some events) :: fetched cs).
  simpl. rewrite process_events_run, IH.
  change (intents_of time_text ((cid, events) :: cs))
    with (((λ e, (key_of cid e, e)) <$> events) ++ intents_of time_text cs).
  rewrite run_app. f_equal. f_equal.
  apply set_eq. intros k. unfold observed_keys.
  change (intents_of time_text ((cid, events) :: cs))
    with (((λ e, (key_of cid e, e)) <$> events) ++ intents_of time_text cs).
  rewrite fmap_app, <- list_fmap_compose.
  set_unfold. tauto.
Qed.






Lemma prune_nothing (valid : gset string) (m : Manager) :
  to_remove valid m = [] →
  remove_missing_calendar_events valid m = (0%nat, m).
Proof.
  intros H. unfold remove_missing_calendar_events. rewrite H. done.
Qed.

End CycleFacts.




(** ** A cycle in which a calendar cannot be read *)

Section CycleFailure.
Variable uuid4 : nat → string.
Variable isoformat : Z → string.
Variable start_of_local_day : Z → Z.
Variable time_text : pytime → string.
Variable planner :
  nat → option string → option string → pytime → pytime → PlannedResponse.

Abbreviation process :=
  (async_process_calendar_event uuid4 isoformat start_of_local_day planner).
Abbreviation run := (run_intents uuid4 isoformat start_of_local_day planner).
Abbreviation calendars_loop :=
  (process_calendars uuid4 isoformat start_of_local_day time_text planner).

Lemma process_calendars_fail before failing after
    (obs : gset string) (m : Manager) :
  calendars_loop (fetched before ++ (failing, None) :: after) obs m =
    (Raise (UpdateFailed ("Failed to read calendar " +:+ failing)),
     run (intents_of time_text before) m).
Proof.
  revert obs m. induction before as [|[cid events] cs IH]; intros obs m.
  { reflexivity. }
  change (fetched ((cid, events) :: cs) ++ (failing, None) :: after)
    with ((cid, Some events) :: (fetched cs ++ (failing, None) :: after)).
  cbn [process_calendars].
  rewrite process_events_run, IH.
  change (intents_of time_text ((cid, events) :: cs))
    with (((λ e, (_make_parent_key time_text cid e, e)) <$> events)
          ++ intents_of time_text cs).
  by rewrite run_app.
Qed.

Lemma cycle_fail before failing after (m : Manager) :
  _async_update_data uuid4 isoformat start_of_local_day time_text planner
    (fetched before ++ (failing, None) :: after) m
    = (Raise (UpdateFailed ("Failed to read calendar " +:+ failing)),
       run (intents_of time_text before) m).
Proof.
  unfold _async_update_data. rewrite process_calendars_fail.
  destruct before as [|c cs]; reflexivity.
Qed.

Lemma run_draws_mono intents (m : Manager) :
  (uuids_drawn m ≤ uuids_drawn (run intents m))%nat.
Proof.
  revert m. induction intents as [|[k e] intents IH]; intros m; [done|].
  rewrite run_cons. simpl.
  destruct (process_spec uuid4 isoformat start_of_local_day planner
              "" k e m) as (b & m' & Hrun & _ & _ & _ & Hd & _).
  rewrite Hrun. simpl. specialize (IH m'). lia.
Qed.

(** The index entries of a key that is not processed stay as they are. *)
Lemma run_index_frame intents (m : Manager) key :
  key ∉ intents.*1 →
  _parent_meta (run intents m) !! key = _parent_meta m !! key ∧
  _parent_children (run intents m) !! key = _parent_children m !! key ∧
  _event_signatures (run intents m) !! key = _event_signatures m !! key.
Proof.
  revert m. induction intents as [|[k e] intents IH]; intros m Hkey; [done|].
  rewrite fmap_cons in Hkey. apply not_elem_of_cons in Hkey as [Hne Hkey].
  rewrite run_cons. simpl in *.
  destruct (process_spec uuid4 isoformat start_of_local_day planner
              "" k e m) as (b & m' & Hrun & Hs & Hm & Hc & _).
  rewrite Hrun. simpl.
  destruct (IH m' Hkey) as (-> & -> & ->).
  rewrite Hm, Hc, Hs by done. by rewrite lookup_insert_ne.
Qed.

Lemma not_elem_of_drawn_later u n n1 nf :
  (n <= n1)%nat → (n1 <= nf)%nat →
  u ∉ drawn uuid4 n (nf - n) →
  (u ∉ drawn uuid4 n (n1 - n)) ∧ (u ∉ drawn uuid4 n1 (nf - n1)).
Proof.
  intros H1 H2 Hu. rewrite !elem_of_drawn in *. split.
  - intros (i & Hi & ->). apply Hu. exists i. split; [lia|done].
  - intros (i & Hi & ->). apply Hu. exists (n1 - n + i)%nat.
    split; [lia|]. f_equal. lia.
Qed.

(** A stored task is not touched by a pass unless it is a child of a
    processed key or its uid is drawn again. *)
Lemma run_task_frame intents (m : Manager) u :
  (∀ k, k ∈ intents.*1 → u ∉ children_of k m) →
  u ∉ drawn uuid4 (uuids_drawn m)
            (uuids_drawn (run intents m) - uuids_drawn m) →
  task_at u (run intents m) = task_at u m.
Proof.
  revert m. induction intents as [|[k e] intents IH]; intros m Hkids Hfresh.
  { done. }
  rewrite run_cons in *. simpl in *.
  destruct (process_spec uuid4 isoformat start_of_local_day planner
              "" k e m) as (b & m' & Hrun & _ & _ & Hc & Hd & _ & Ht & Hk).
  rewrite Hrun in *. simpl in *.
  pose proof (run_draws_mono intents m') as Hmono.
  destruct (not_elem_of_drawn_later u _ _ _ Hd Hmono Hfresh) as [Hf1 Hf2].
  rewrite IH; [| |done].
  - apply Ht; [|done]. apply Hkids. left.
  - intros k' Hk' Hu.
    destruct (decide (k' = k)) as [->|Hne].
    + apply Hk in Hu as [Hu|Hu]; [|done].
      revert Hu. apply Hkids. left.
    + unfold children_of in Hu. rewrite Hc in Hu by done.
      revert Hu. apply Hkids. by right.
Qed.
End CycleFailure.

(** C5, as the code has it. If fetching events from one calendar source
    fails during a reconciliation cycle, the cycle stops there with an
    UpdateFailed that names that source: the sources listed before it have
    been processed, no source listed after it is processed and the prune
    step does not run, so the store is the one left by the events of the
    earlier sources. The index entries of every key that was not processed
    before the failure are unchanged, and so is every stored task of such a
    key (in a store whose indexes are consistent, for a uid that is not
    drawn again); when the failing source is listed first nothing in the
    manager changes. *)
Theorem C5_failed_source_aborts_the_cycle
    (uuid4 : nat → string) (isoformat : Z → string)
    (start_of_local_day : Z → Z) (time_text : pytime → string)
    (planner : nat → option string → option string → pytime → pytime
               → PlannedResponse)
    (before : list (string * list CalendarEvent)) (failing : string)
    (after : list (string * option (list CalendarEvent))) (m : Manager) :
  let m' := run_intents uuid4 isoformat start_of_local_day planner
              (intents_of time_text before) m in
  _async_update_data uuid4 isoformat start_of_local_day time_text planner
    (fetched before ++ (failing, None) :: after) m
    = (Raise (UpdateFailed ("Failed to read calendar " +:+ failing)), m') ∧
  (before = [] → m' = m) ∧
  (∀ key, key ∉ observed_keys time_text before →
          _parent_meta m' !! key = _parent_meta m !! key ∧
          _parent_children m' !! key = _parent_children m !! key ∧
          _event_signatures m' !! key = _event_signatures m !! key) ∧
  (index_consistent m →
   ∀ u t, task_at u m = Some t →
          parent_key t ∉ observed_keys time_text before →
          u ∉ drawn uuid4 (uuids_drawn m) (uuids_drawn m' - uuids_drawn m) →
          task_at u m' = Some t).
Proof.
  intros m'. split_and!.
  - apply cycle_fail.
  - by intros ->.
  - intros key Hkey. apply run_index_frame.
    unfold observed_keys in Hkey. by rewrite elem_of_list_to_set in Hkey.
  - intros Hwf u t Hu Hkey Hfresh. unfold m'.
    rewrite run_task_frame; [done| |done].
    intros k Hk Hchild. apply Hkey.
    assert (Hsub : u ∈ subtree_uids k m).
    { unfold subtree_uids. apply elem_of_union. by left. }
    rewrite (Hwf k u t Hsub Hu).
    unfold observed_keys. by rewrite elem_of_list_to_set.
Qed.

Lemma C5_witness :
  task_at party_parent_uid
    (run_intents demo_uuid4 demo_isoformat demo_start_of_local_day
       demo_planner
       (intents_of demo_time_text [("home", [quiet_event])]) planned_once)
  = Some party_parent.
Proof.
  destruct (C5_failed_source_aborts_the_cycle demo_uuid4 demo_isoformat
              demo_start_of_local_day demo_time_text demo_planner
              [("home", [quiet_event])] "broken" [] planned_once)
    as (_ & _ & _ & Hframe).
  apply Hframe.
  - apply index_consistentb_sound. vm_compute. reflexivity.
  - vm_compute. reflexivity.
  - apply (bool_decide_unpack _). vm_compute. exact I.
  - apply (bool_decide_unpack _). vm_compute. exact I.
Defined.

(** The claim of C5 that the remaining sources of the cycle are still
    processed fails: with an unreadable calendar listed first, the cycle
    ends in UpdateFailed for it and the party of the next calendar is not
    processed, neither planned nor recorded, although a cycle over that
    calendar alone plans it. *)
Lemma C5_later_sources_are_not_processed :
  let failed := demo_cycle broken_first new_manager in
  let alone := demo_cycle (fetched [("home", [party])]) new_manager in
  failed.1 = Raise (UpdateFailed "Failed to read calendar broken") ∧
  failed.2 = new_manager ∧
  _event_signatures failed.2 !! party_key = None ∧
  plans_requested failed.2 = 0%nat ∧
  alone.1 = Ok tt ∧
  is_Some (_event_signatures alone.2 !! party_key) ∧
  plans_requested alone.2 = 1%nat.
Proof.
  cbv zeta. split_and!; try (vm_compute; reflexivity).
  vm_compute. eauto.
Qed.

(** ** Well-formedness is kept by every operation *)

Lemma subtree_uids_ext key (m m' : Manager) :
  _parent_children m' !! key = _parent_children m !! key →
  _parent_meta m' !! key = _parent_meta m !! key →
  subtree_uids key m' = subtree_uids key m.
Proof.
  intros Hc Hm. unfold subtree_uids, recorded_parent, children_of.
  by rewrite Hc, Hm.
Qed.

Lemma well_formed_new uuid4 : well_formed uuid4 new_manager.
Proof.
  split.
  - intros key u t Hu. unfold subtree_uids, recorded_parent, children_of in Hu.
    simpl in Hu. rewrite !lookup_empty in Hu. simpl in Hu.
    set_unfold. tauto.
  - intros key u Hu. unfold subtree_uids, recorded_parent, children_of in Hu.
    simpl in Hu. rewrite !lookup_empty in Hu. simpl in Hu.
    set_unfold. tauto.
  - intros u [t Ht]. done.
Qed.

(** *** Steps that only shrink the manager *)

Lemma shrinks_refl (m : Manager) : shrinks m m.
Proof. split_and!; [done | done | eauto]. Qed.

Lemma shrinks_trans (m1 m2 m3 : Manager) :
  shrinks m1 m2 → shrinks m2 m3 → shrinks m1 m3.
Proof.
  intros (Hd1 & Hs1 & Ht1) (Hd2 & Hs2 & Ht2). split_and!.
  - lia.
  - intros k. etrans; [apply Hs2 | apply Hs1].
  - intros u t3 Hu. destruct (Ht2 u t3 Hu) as (t2 & Hu2 & <-).
    destruct (Ht1 u t2 Hu2) as (t1 & Hu1 & <-). eauto.
Qed.

Lemma shrinks_notify (m : Manager) : shrinks m (_notify_listeners m).
Proof. split_and!; [done | done | eauto]. Qed.

(** Rebinding a uid to a task of the same key. *)
Lemma shrinks_replace_task k v (m : Manager) :
  (∀ t, task_at k m = Some t → parent_key v = parent_key t) →
  shrinks m (with_tasks (Dict.replace k v (_tasks m)) m).
Proof.
  intros Hkey. split_and!; [done | done |].
  intros u t' Hu. unfold task_at in *. simpl in Hu.
  destruct (decide (k = u)) as [->|Hne].
  - rewrite get_replace_eq in Hu.
    destruct (Dict.get u (_tasks m)) as [t|] eqn:Ht; [|done].
    injection Hu as <-. exists t. split; [done|]. symmetry. by apply Hkey.
  - rewrite get_replace_ne in Hu by done. eauto.
Qed.

Lemma shrinks_pop_task k (m : Manager) :
  shrinks m (with_tasks (Dict.pop k (_tasks m)) m).
Proof.
  split_and!; [done | done |].
  intros u t' Hu. unfold task_at in *. simpl in Hu.
  destruct (decide (k = u)) as [->|Hne].
  - by rewrite get_pop_eq in Hu.
  - rewrite get_pop_ne in Hu by done. eauto.
Qed.

(** Taking a uid out of the child set of a key. *)
Lemma shrinks_discard_child key u (m : Manager) children :
  _parent_children m !! key = Some children →
  shrinks m (with_children (<[key := children ∖ {[u]}]> (_parent_children m)) m).
Proof.
  intros Hc. split_and!; [done | | eauto].
  intros k. unfold subtree_uids, recorded_parent, children_of. simpl.
  destruct (decide (k = key)) as [->|Hne].
  - rewrite lookup_insert_eq, Hc. simpl. set_unfold. tauto.
  - by rewrite lookup_insert_ne.
Qed.

Lemma shrinks_update_children f kids (m : Manager) :
  (∀ t, parent_key (f t) = parent_key t) →
  shrinks m (update_children f kids m).2.
Proof.
  intros Hf. revert m. induction kids as [|k kids IH]; intros m; simpl.
  { apply shrinks_refl. }
  destruct (Dict.get k (_tasks m)) as [child|] eqn:Hk; [|apply shrinks_refl].
  eapply shrinks_trans; [|apply IH].
  apply shrinks_replace_task. intros t Ht. unfold task_at in Ht.
  rewrite Hk in Ht. injection Ht as <-. apply Hf.
Qed.

Lemma shrinks_refresh_parent stored (m : Manager) :
  shrinks m (refresh_parent stored m).
Proof.
  unfold refresh_parent.
  destruct (parent_uid_of stored) as [p|]; [|apply shrinks_refl].
  destruct (truthy (Some p)); [|apply shrinks_refl].
  destruct (Dict.get p (_tasks m)) as [parent|] eqn:Hp; [|apply shrinks_refl].
  apply shrinks_replace_task. intros t Ht. unfold task_at in Ht.
  rewrite Hp in Ht. by injection Ht as <-.
Qed.

Lemma shrinks_update_item it (m : Manager) :
  shrinks m (async_update_item it m).2.
Proof.
  unfold async_update_item.
  destruct (Dict.get (uid it) (_tasks m)) as [stored|] eqn:Hst;
    [|apply shrinks_refl].
  set (new_status := default NEEDS_ACTION (status it)).
  set (m1 := with_tasks (Dict.replace (uid it)
                 (set_item_status new_status stored) (_tasks m)) m).
  assert (H1 : shrinks m m1).
  { apply shrinks_replace_task. intros t Ht. unfold task_at in Ht.
    rewrite Hst in Ht. by injection Ht as <-. }
  destruct (is_parent stored).
  - set (kids := elements (children_of (parent_key stored) m1)).
    assert (H2 : ∀ f, (∀ t, parent_key (f t) = parent_key t) →
                      shrinks m (update_children f kids m1).2).
    { intros f Hf. eapply shrinks_trans; [exact H1|].
      by apply shrinks_update_children. }
    assert (Hreopen : ∀ t, parent_key (reopen t) = parent_key t).
    { intros t. unfold reopen. by destruct (has_status COMPLETED (item t)). }
    destruct new_status.
    + specialize (H2 reopen Hreopen).
      destruct (update_children reopen kids m1) as [[[]|e] m2]; simpl in *.
      * eapply shrinks_trans; [exact H2 | apply shrinks_notify].
      * done.
    + simpl. eapply shrinks_trans; [exact H1 | apply shrinks_notify].
    + specialize (H2 (set_item_status COMPLETED) (λ _, eq_refl)).
      destruct (update_children (set_item_status COMPLETED) kids m1)
        as [[[]|e] m2]; simpl in *.
      * eapply shrinks_trans; [exact H2 | apply shrinks_notify].
      * done.
  - simpl. eapply shrinks_trans; [exact H1|].
    eapply shrinks_trans; [apply shrinks_refresh_parent | apply shrinks_notify].
Qed.

Section WellFormed.
Variable uuid4 : nat → string.
Hypothesis uuid4_inj : Inj (=) (=) uuid4.

Lemma drawn_NoDup n count : NoDup (drawn uuid4 n count).
Proof. unfold drawn. apply (NoDup_fmap_2 _). apply NoDup_seq. Qed.

Lemma drawn_earlier_not_later u n count :
  u ∈ drawn uuid4 0 n → u ∉ drawn uuid4 n count.
Proof.
  rewrite !elem_of_drawn. intros (i & Hi & ->) (j & Hj & Heq).
  apply uuid4_inj in Heq. lia.
Qed.

Lemma drawn_mono u n n' :
  (n <= n')%nat → u ∈ drawn uuid4 0 n → u ∈ drawn uuid4 0 n'.
Proof.
  rewrite !elem_of_drawn. intros Hle (i & Hi & ->). exists i. split; [lia|done].
Qed.

Lemma drawn_later_earlier u n count :
  u ∈ drawn uuid4 n count → u ∈ drawn uuid4 0 (n + count).
Proof.
  rewrite !elem_of_drawn. intros (i & Hi & ->). exists (n + i)%nat.
  split; [lia|done].
Qed.

(** Replacing the subtree of a key keeps the manager well formed. *)
Lemma replace_well_formed key plan override (m : Manager) mt :
  well_formed uuid4 m →
  _parent_meta m !! key = Some mt →
  ∃ m', _replace_parent_tasks uuid4 key plan override m = (Ok tt, m') ∧
        well_formed uuid4 m'.
Proof.
  intros [Hcons Hidx Hstored] Hmeta.
  destruct (replace_spec uuid4 key plan override m mt Hmeta)
    as (m' & Hrun & Hd & Hm & _ & _ & _ & Hc & Hkids & Hold & Hnew).
  destruct (Hnew (drawn_NoDup _ _)) as ((parent & Hp & _ & Hpk & _) & Hch).
  set (n := uuids_drawn m) in *. set (len := length (tasks plan)) in *.
  exists m'. split; [done|].
  assert (Hsub_key : ∀ u, u ∈ subtree_uids key m' →
                          u ∈ drawn uuid4 n (S len)).
  { intros u Hu. unfold subtree_uids, recorded_parent in Hu.
    rewrite Hm, lookup_insert_eq in Hu. simpl in Hu.
    rewrite drawn_S.
    apply elem_of_union in Hu as [Hu|Hu].
    - right. by apply Hkids.
    - destruct (negb (String.eqb (uuid4 n) "")); set_unfold; [by left|done]. }
  assert (Hsub_other : ∀ k, k ≠ key →
                            subtree_uids k m' = subtree_uids k m).
  { intros k Hk. apply subtree_uids_ext; [by apply Hc|].
    rewrite Hm. by apply lookup_insert_ne. }
  assert (Hnew_key : ∀ u t, u ∈ drawn uuid4 n (S len) →
                            task_at u m' = Some t → parent_key t = key).
  { intros u t Hu Ht. rewrite drawn_S in Hu.
    apply elem_of_cons in Hu as [->|Hu].
    - rewrite Hp in Ht. by injection Ht as <-.
    - apply elem_of_drawn in Hu as (i & Hi & ->).
      destruct (lookup_lt_is_Some_2 (tasks plan) i Hi) as [planned Hpl].
      rewrite (Hch i planned Hpl) in Ht. by injection Ht as <-. }
  split.
  - intros k u t Hu Ht. destruct (decide (k = key)) as [->|Hne].
    + apply (Hnew_key u t); [by apply Hsub_key | done].
    + rewrite Hsub_other in Hu by done.
      assert (Hfresh : u ∉ drawn uuid4 n (S len)).
      { apply drawn_earlier_not_later. by apply (Hidx k). }
      rewrite Hold in Ht by done.
      destruct (decide (u ∈ children_of key m)); [done|].
      by apply (Hcons k u t).
  - intros k u Hu. rewrite Hd.
    destruct (decide (k = key)) as [->|Hne].
    + apply Hsub_key in Hu. apply drawn_later_earlier in Hu.
      replace (S (n + len)) with (n + S len)%nat by lia. done.
    + rewrite Hsub_other in Hu by done.
      apply (drawn_mono u n); [lia | by apply (Hidx k)].
  - intros u Hu. rewrite Hd.
    destruct (decide (u ∈ drawn uuid4 n (S len))) as [Hin|Hnin].
    + apply drawn_later_earlier in Hin.
      replace (S (n + len)) with (n + S len)%nat by lia. done.
    + rewrite Hold in Hu by done.
      destruct (decide (u ∈ children_of key m)); [by destruct Hu|].
      apply (drawn_mono u n); [lia | by apply Hstored].
Qed.
(** Shrinking keeps a manager well formed. *)
Lemma well_formed_shrink (m m' : Manager) :
  shrinks m m' → well_formed uuid4 m → well_formed uuid4 m'.
Proof.
  intros (Hd & Hsub & Htasks) [Hcons Hidx Hstored]. split.
  - intros k u t' Hu Ht'. destruct (Htasks u t' Ht') as (t & Ht & <-).
    apply (Hcons k u t); [by apply Hsub | done].
  - intros k u Hu. apply (drawn_mono u (uuids_drawn m)); [done|].
    apply (Hidx k). by apply Hsub.
  - intros u [t' Ht']. destruct (Htasks u t' Ht') as (t & Ht & _).
    apply (drawn_mono u (uuids_drawn m)); [done|]. by apply Hstored.
Qed.

Lemma shrinks_remove_parent key (m : Manager) :
  shrinks m (_remove_parent key m).
Proof.
  destruct (remove_parent_spec key m) as (_ & _ & _ & _ & Hd & _ & Ht).
  split_and!.
  - by rewrite Hd.
  - intros k. rewrite subtree_uids_remove_parent.
    destruct (decide (k = key)); set_unfold; tauto.
  - intros u t' Hu. rewrite Ht in Hu.
    destruct (decide (u ∈ subtree_uids key m)); [done|]. eauto.
Qed.

Lemma remove_parent_well_formed key (m : Manager) :
  well_formed uuid4 m → well_formed uuid4 (_remove_parent key m).
Proof. apply well_formed_shrink, shrinks_remove_parent. Qed.

Lemma prune_well_formed (valid : gset string) (m : Manager) :
  well_formed uuid4 m →
  well_formed uuid4 (remove_missing_calendar_events valid m).2.
Proof.
  intros Hwf. unfold remove_missing_calendar_events. simpl.
  assert (Hfold : well_formed uuid4
            (foldl (λ acc key, _remove_parent key acc) m (to_remove valid m))).
  { generalize (to_remove valid m). intros ks. revert m Hwf.
    induction ks as [|k ks IH]; intros m Hwf; [done|].
    simpl. apply IH. by apply remove_parent_well_formed. }
  destruct (to_remove valid m); [done|].
  revert Hfold. apply well_formed_shrink, shrinks_notify.
Qed.

Lemma update_item_well_formed it (m : Manager) :
  well_formed uuid4 m → well_formed uuid4 (async_update_item it m).2.
Proof. apply well_formed_shrink, shrinks_update_item. Qed.

Lemma delete_item_well_formed u (m : Manager) :
  well_formed uuid4 m → well_formed uuid4 (async_delete_item u m).
Proof.
  apply well_formed_shrink. unfold async_delete_item.
  destruct (Dict.get u (_tasks m)) as [stored|]; [|apply shrinks_refl].
  destruct (is_parent stored).
  { eapply shrinks_trans; [apply shrinks_remove_parent | apply shrinks_notify]. }
  set (m1 := with_tasks (Dict.pop u (_tasks m)) m).
  assert (H1 : shrinks m m1) by apply shrinks_pop_task.
  eapply shrinks_trans; [|apply shrinks_notify].
  eapply shrinks_trans; [|apply shrinks_refresh_parent].
  eapply shrinks_trans; [exact H1|].
  destruct (_parent_children m1 !! parent_key stored) as [children|] eqn:Hc;
    [|apply shrinks_refl].
  by apply shrinks_discard_child.
Qed.

(** Writing a meta entry without a parent uid refers to no more than
    before. *)
Lemma subtree_uids_meta_reset key k (m m0 : Manager) a b c d :
  _parent_children m0 = _parent_children m →
  _parent_meta m0 = <[key := mkMeta a b c d None]> (_parent_meta m) →
  subtree_uids k m0 ⊆ subtree_uids k m.
Proof.
  intros Hc Hm. unfold subtree_uids, recorded_parent, children_of.
  rewrite Hc, Hm. destruct (decide (k = key)) as [->|Hne].
  - rewrite lookup_insert_eq. simpl. set_unfold. tauto.
  - by rewrite lookup_insert_ne.
Qed.

Variable isoformat : Z → string.
Variable start_of_local_day : Z → Z.
Variable time_text : pytime → string.
Variable planner :
  nat → option string → option string → pytime → pytime → PlannedResponse.
Variable manual_planner :
  nat → string → option string → option Z → option string → PlannedResponse.

Lemma process_well_formed cid key event (m : Manager) :
  well_formed uuid4 m →
  well_formed uuid4
    (async_process_calendar_event uuid4 isoformat start_of_local_day planner
       cid key event m).2.
Proof.
  intros Hwf. rewrite process_unfold. cbv zeta.
  destruct (decide _) as [_|_]; [done|].
  match goal with
  | |- context [_replace_parent_tasks uuid4 key ?plan ?due ?base] =>
      set (m0 := base);
      destruct (replace_well_formed key plan due m0
                  (mkMeta (Some CALENDAR_SOURCE) (ev_summary event)
                          (mental_load plan) (summary_notes plan) None))
        as (m' & Hrun & Hwf')
  end.
  - revert Hwf. apply well_formed_shrink. split_and!.
    + done.
    + intros k. by eapply subtree_uids_meta_reset.
    + intros u t' Hu. eauto.
  - unfold m0. simpl. apply lookup_insert_eq.
  - by rewrite Hrun.
Qed.

Lemma run_well_formed intents (m : Manager) :
  well_formed uuid4 m →
  well_formed uuid4
    (run_intents uuid4 isoformat start_of_local_day planner intents m).
Proof.
  revert m. induction intents as [|ke intents IH]; intros m Hwf; [done|].
  rewrite run_cons. apply IH. by apply process_well_formed.
Qed.

(** The sources of a cycle can all be read, or there is a first one that
    cannot. *)
Lemma sources_split (sources : list (string * option (list CalendarEvent))) :
  (∃ calendars, sources = fetched calendars) ∨
  (∃ before failing after,
     sources = fetched before ++ (failing, None) :: after).
Proof.
  induction sources as [|[cid [events|]] sources IH].
  - left. by exists [].
  - destruct IH as [(cs & ->)|(before & failing & after & ->)].
    + left. by exists ((cid, events) :: cs).
    + right. by exists ((cid, events) :: before), failing, after.
  - right. by exists [], cid, sources.
Qed.

Lemma cycle_well_formed sources (m : Manager) :
  well_formed uuid4 m →
  well_formed uuid4
    (_async_update_data uuid4 isoformat start_of_local_day time_text planner
       sources m).2.
Proof.
  intros Hwf.
  destruct (sources_split sources)
    as [(cs & ->)|(before & failing & after & ->)].
  - unfold _async_update_data. destruct cs as [|c cs]; [done|].
    change (fetched (c :: cs)) with ((c.1, Some c.2) :: fetched cs) at 1.
    cbv iota. change ((c.1, Some c.2) :: fetched cs) with (fetched (c :: cs)).
    rewrite process_calendars_run. simpl.
    apply prune_well_formed. by apply run_well_formed.
  - rewrite cycle_fail. by apply run_well_formed.
Qed.
Lemma create_manual_entry_well_formed summary description due context
    (m : Manager) :
  well_formed uuid4 m →
  well_formed uuid4
    (async_create_manual_entry uuid4 start_of_local_day manual_planner
       summary description due context m).2.
Proof.
  intros Hwf. unfold async_create_manual_entry.
  destruct (_parse_due start_of_local_day due) as [due_dt|e]; [|done].
  unfold draw_uuid. simpl.
  match goal with
  | |- context [_replace_parent_tasks uuid4 ?key ?plan ?due ?base] =>
      set (m0 := base);
      destruct (replace_well_formed key plan due m0
                  (mkMeta (Some MANUAL_SOURCE) (Some summary)
                          (mental_load plan) (summary_notes plan) None))
        as (m' & Hrun & Hwf')
  end.
  - revert Hwf. apply well_formed_shrink. split_and!.
    + simpl. lia.
    + intros k. by eapply subtree_uids_meta_reset.
    + intros u t' Hu. eauto.
  - unfold m0. simpl. apply lookup_insert_eq.
  - rewrite Hrun. by destruct (_ ≫= _).
Qed.

(** Every state the manager can reach is well formed; in particular its
    indexes are consistent. *)
Theorem reachable_well_formed (m : Manager) :
  reachable uuid4 isoformat start_of_local_day time_text planner
            manual_planner m →
  well_formed uuid4 m.
Proof.
  unfold reachable. revert m.
  apply (rtc_ind_r
           (R := step uuid4 isoformat start_of_local_day time_text planner
                      manual_planner)
           (λ m, well_formed uuid4 m) new_manager).
  { apply well_formed_new. }
  intros m m' _ Hstep Hwf. destruct Hstep.
  - by apply cycle_well_formed.
  - by apply create_manual_entry_well_formed.
  - by apply update_item_well_formed.
  - by apply delete_item_well_formed.
Qed.
End WellFormed.

(** * Further properties of the code *)

(** ** A changed event is planned again *)

Lemma size_of_drawn_set (uuid4 : nat → string) (X : gset string) n len :
  (∀ u, u ∈ X ↔ u ∈ drawn uuid4 n len) →
  NoDup (drawn uuid4 n len) →
  size X = len.
Proof.
  intros HX Hnd.
  assert (Heq : X = list_to_set (drawn uuid4 n len)).
  { apply set_eq. intros u. rewrite HX. by rewrite elem_of_list_to_set. }
  rewrite Heq, size_list_to_set by done.
  unfold drawn. by rewrite length_fmap, length_seq.
Qed.



(** ** A manual request *)



(** ** Deleting a task *)

Lemma discard_child_children key u (m : Manager) k :
  children_of k
    (match _parent_children m !! key with
     | Some children =>
         with_children (<[key := children ∖ {[u]}]> (_parent_children m)) m
     | None => m
     end)
  = if decide (k = key) then children_of k m ∖ {[u]} else children_of k m.
Proof.
  unfold children_of.
  destruct (_parent_children m !! key) as [c|] eqn:Hc; simpl.
  - destruct (decide (k = key)) as [->|Hne].
    + by rewrite lookup_insert_eq, Hc.
    + by rewrite lookup_insert_ne.
  - destruct (decide (k = key)) as [->|Hne]; [|done].
    rewrite Hc. simpl. set_unfold. tauto.
Qed.

(** X3. Deleting a child task whose parent-uid attribute names a stored
    task removes the child from the store and from the child set of its
    key, re-derives the status of that parent from the children that are
    left (the tasks the resulting store holds under the members of the
    child set of the parent's key), and notifies once. Nothing else
    changes: the other child sets, the meta and signature tables, every
    other task, and every field of the parent but its status. *)
Theorem X3_deleting_a_child_rederives_the_parent
    (u p : string) (m : Manager) (stored parent : StoredTask) :
  task_at u m = Some stored →
  is_parent stored = false →
  parent_uid_of stored = Some p →
  p ≠ "" →
  p ≠ u →
  task_at p m = Some parent →
  p ∉ children_of (parent_key parent) m →
  let m' := async_delete_item u m in
  task_at u m' = None ∧
  (∀ k, children_of k m'
        = if decide (k = parent_key stored)
          then children_of k m ∖ {[u]} else children_of k m) ∧
  _parent_meta m' = _parent_meta m ∧
  _event_signatures m' = _event_signatures m ∧
  notified m' = S (notified m) ∧
  (∀ v, v ≠ u → v ≠ p → task_at v m' = task_at v m) ∧
  ∃ s, task_at p m' = Some (set_item_status s parent) ∧
       derived_from_store (parent_key parent) m' s.
Proof.
  intros Hst Hchild Hp Hpne Hpu Hpar Hself. cbv zeta.
  unfold task_at in Hst, Hpar.
  unfold async_delete_item. rewrite Hst, Hchild.
  set (m1 := with_tasks (Dict.pop u (_tasks m)) m).
  set (m2 := match _parent_children m1 !! parent_key stored with
             | Some children =>
                 with_children
                   (<[parent_key stored := children ∖ {[u]}]>
                      (_parent_children m1)) m1
             | None => m1
             end).
  assert (Hkids : ∀ k, children_of k m2
                       = if decide (k = parent_key stored)
                         then children_of k m ∖ {[u]} else children_of k m).
  { intros k. apply (discard_child_children (parent_key stored) u m1 k). }
  assert (Hrest : _tasks m2 = Dict.pop u (_tasks m) ∧
                  _parent_meta m2 = _parent_meta m ∧
                  _event_signatures m2 = _event_signatures m ∧
                  notified m2 = notified m).
  { unfold m2. by destruct (_parent_children m1 !! parent_key stored). }
  destruct Hrest as (Ht2 & Hm2 & Hs2 & Hn2).
  assert (Hp2 : Dict.get p (_tasks m2) = Some parent).
  { rewrite Ht2, get_pop_ne; done. }
  assert (Htruthy : truthy (Some p) = true).
  { simpl. apply negb_true_iff. by apply String.eqb_neq. }
  set (s := _derive_parent_status_from_children p m2).
  assert (Hm' : refresh_parent stored m2
                 = with_tasks
                     (Dict.replace p (set_item_status s parent) (_tasks m2))
                     m2).
  { unfold refresh_parent. by rewrite Hp, Htruthy, Hp2. }
  rewrite Hm'. clearbody m2. unfold task_at. simpl. split_and!.
  - rewrite get_replace_ne by done. rewrite Ht2. apply get_pop_eq.
  - intros k. apply (Hkids k).
  - done.
  - done.
  - by rewrite Hn2.
  - intros v Hvu Hvp. rewrite get_replace_ne by done.
    rewrite Ht2. by apply get_pop_ne.
  - exists s. split.
    + by rewrite get_replace_eq, Hp2.
    + apply derived_on_the_store.
      erewrite child_items_ext with (m := m2).
      * by apply derive_follows_rules.
      * done.
      * intros v Hv. unfold task_at. simpl. apply get_replace_ne.
        intros ->. rewrite Hkids in Hv.
        destruct (decide (parent_key parent = parent_key stored));
          set_unfold; tauto.
Qed.

Lemma X3_witness :
  let m' := async_delete_item party_step_uid pay_ticked in
  task_at party_step_uid m' = None ∧
  _parent_meta m' = _parent_meta pay_ticked ∧
  notified m' = S (notified pay_ticked) ∧
  ∃ s, task_at party_parent_uid m' = Some (set_item_status s pay_ticked_parent) ∧
       derived_from_store (parent_key pay_ticked_parent) m' s ∧
       s = COMPLETED.
Proof.
  destruct (X3_deleting_a_child_rederives_the_parent
              party_step_uid party_parent_uid pay_ticked
              party_step pay_ticked_parent)
    as (Hgone & _ & Hmeta & _ & Hn & _ & s & Hp & Hrule).
  - reflexivity.
  - reflexivity.
  - reflexivity.
  - discriminate.
  - discriminate.
  - reflexivity.
  - apply (bool_decide_unpack _). vm_compute. exact I.
  - cbv zeta. split; [exact Hgone|]. split; [exact Hmeta|].
    split; [exact Hn|]. exists s. split; [exact Hp|]. split; [exact Hrule|].
    destruct Hrule as (_ & Hsecond & _).
    apply Hsecond.
    + exists (demo_uuid4 2), (Some COMPLETED). split.
      * apply (bool_decide_unpack _). vm_compute. exact I.
      * eexists. split; vm_compute; reflexivity.
    + intros u st (Hu & t & Ht & <-).
      assert (Heq : children_of (parent_key pay_ticked_parent)
                      (async_delete_item party_step_uid pay_ticked)
                    = {[demo_uuid4 2]}) by (by vm_compute).
      rewrite Heq in Hu. apply elem_of_singleton in Hu as ->.
      vm_compute in Ht. by injection Ht as <-.
Defined.

(** X4. Deleting a parent task removes the subtree its key is indexed
    with: the key's entries in the child index and the meta table are
    dropped, every child of the key and the parent uid the meta records are
    removed from the store, and listeners are notified once. The signature
    recorded for the key stays, and so does every task outside that
    subtree; the deleted task itself is removed exactly when it is the
    parent the meta records (or listed among the children). *)
Theorem X4_deleting_a_parent_removes_the_indexed_subtree
    (u : string) (m : Manager) (stored : StoredTask) :
  task_at u m = Some stored →
  is_parent stored = true →
  let key := parent_key stored in
  let m' := async_delete_item u m in
  _parent_children m' = delete key (_parent_children m) ∧
  _parent_meta m' = delete key (_parent_meta m) ∧
  _event_signatures m' = _event_signatures m ∧
  notified m' = S (notified m) ∧
  (∀ v, task_at v m'
        = if decide (v ∈ subtree_uids key m) then None else task_at v m) ∧
  (task_at u m' = None ↔ u ∈ subtree_uids key m).
Proof.
  intros Hst Hpar key m'.
  assert (Hm' : m' = _notify_listeners (_remove_parent key m)).
  { unfold m', async_delete_item. unfold task_at in Hst.
    by rewrite Hst, Hpar. }
  destruct (remove_parent_spec key m) as (Hc & Hm & Hs & Hn & _ & _ & Ht).
  rewrite Hm'. split_and!.
  - apply Hc.
  - apply Hm.
  - apply Hs.
  - simpl. by rewrite Hn.
  - apply Ht.
  - change (task_at u (_notify_listeners (_remove_parent key m)))
      with (task_at u (_remove_parent key m)).
    rewrite Ht. destruct (decide (u ∈ subtree_uids key m)); [done|].
    rewrite Hst. split; [done|tauto].
Qed.

Lemma X4_witness :
  let m' := async_delete_item party_parent_uid planned_once in
  _parent_children m' = delete party_key (_parent_children planned_once) ∧
  _parent_meta m' = delete party_key (_parent_meta planned_once) ∧
  _event_signatures m' = _event_signatures planned_once ∧
  notified m' = S (notified planned_once) ∧
  (∀ v, task_at v m'
        = if decide (v ∈ subtree_uids party_key planned_once)
          then None else task_at v planned_once) ∧
  (task_at party_parent_uid m' = None
   ↔ party_parent_uid ∈ subtree_uids party_key planned_once).
Proof.
  apply (X4_deleting_a_parent_removes_the_indexed_subtree
           party_parent_uid planned_once party_parent); reflexivity.
Defined.

(** ** Signatures outlive the subtree *)

(** X5. Removing a subtree does not forget the signature of its event.
    After the user has deleted the parent task of a calendar event,
    processing the same, unchanged event again returns False and changes
    nothing: no plan is requested and the key keeps no meta entry, no
    children and no stored task of its former subtree. *)
Theorem X5_deleted_parent_is_not_planned_again
    (uuid4 : nat → string) (isoformat : Z → string)
    (start_of_local_day : Z → Z)
    (planner : nat → option string → option string → pytime → pytime
               → PlannedResponse)
    (calendar_id u : string) (event : CalendarEvent)
    (m : Manager) (stored : StoredTask) :
  task_at u m = Some stored →
  is_parent stored = true →
  _event_signatures m !! parent_key stored
    = Some (_event_signature isoformat event) →
  let key := parent_key stored in
  let m' := async_delete_item u m in
  async_process_calendar_event uuid4 isoformat start_of_local_day planner
    calendar_id key event m' = (Ok false, m') ∧
  _parent_meta m' !! key = None ∧
  children_of key m' = ∅ ∧
  (∀ v, v ∈ subtree_uids key m → task_at v m' = None).
Proof.
  intros Hst Hpar Hsig key m'.
  assert (Hm' : m' = _notify_listeners (_remove_parent key m)).
  { unfold m', async_delete_item. unfold task_at in Hst.
    by rewrite Hst, Hpar. }
  destruct (remove_parent_spec key m) as (Hc & Hm & Hs & _ & _ & _ & Ht).
  assert (Hs' : _event_signatures m' = _event_signatures m)
    by (by rewrite Hm').
  split_and!.
  - rewrite process_unfold. cbv zeta.
    rewrite Hs'. fold key in Hsig. by rewrite decide_True.
  - rewrite Hm'. simpl. rewrite Hm. apply lookup_delete_eq.
  - rewrite Hm'. unfold children_of. simpl. rewrite Hc.
    by rewrite lookup_delete_eq.
  - intros v Hv. rewrite Hm'.
    change (task_at v (_notify_listeners (_remove_parent key m)))
      with (task_at v (_remove_parent key m)).
    rewrite Ht. by rewrite decide_True.
Qed.

Lemma X5_witness :
  let m' := async_delete_item party_parent_uid planned_once in
  demo_process "home" party_key party m' = (Ok false, m') ∧
  _parent_meta m' !! party_key = None ∧
  children_of party_key m' = ∅ ∧
  (∀ v, v ∈ subtree_uids party_key planned_once → task_at v m' = None).
Proof.
  apply (X5_deleted_parent_is_not_planned_again
           demo_uuid4 demo_isoformat demo_start_of_local_day demo_planner
           "home" party_parent_uid party planned_once party_parent);
    reflexivity.
Defined.

(** X6. The prune step keeps the signatures too. When an event that was
    planned is missing from one cycle, the subtree the indexes record for
    its key is pruned; when the same, unchanged event is returned again
    afterwards, processing it returns False and changes nothing: the key
    keeps no meta entry and no children, and the tasks of its formerly
    indexed subtree (its children and the parent the meta entry named)
    stay removed. *)
Theorem X6_pruned_event_is_not_planned_again
    (uuid4 : nat → string) (isoformat : Z → string)
    (start_of_local_day : Z → Z)
    (planner : nat → option string → option string → pytime → pytime
               → PlannedResponse)
    (calendar_id key : string) (event : CalendarEvent)
    (valid : gset string) (m : Manager) :
  is_Some (_parent_meta m !! key) →
  String.prefix "calendar:" key = true →
  key ∉ valid →
  _event_signatures m !! key = Some (_event_signature isoformat event) →
  let m' := (remove_missing_calendar_events valid m).2 in
  async_process_calendar_event uuid4 isoformat start_of_local_day planner
    calendar_id key event m' = (Ok false, m') ∧
  _parent_meta m' !! key = None ∧
  children_of key m' = ∅ ∧
  (∀ v, v ∈ subtree_uids key m → task_at v m' = None).
Proof.
  intros Hmeta Hprefix Hvalid Hsig m'.
  assert (Hin : key ∈ to_remove valid m) by (by apply elem_of_to_remove).
  destruct (remove_parents_spec (to_remove valid m) m)
    as (Hc & Hm & Hs & _ & _ & _ & _ & Hgone & _).
  set (m1 := foldl (λ acc key, _remove_parent key acc) m (to_remove valid m))
    in *.
  assert (Hm' : m' = _notify_listeners m1).
  { unfold m', remove_missing_calendar_events. simpl. fold m1.
    destruct (to_remove valid m); [|done]. by apply elem_of_nil in Hin. }
  split_and!.
  - rewrite process_unfold. cbv zeta.
    rewrite Hm'. simpl. rewrite Hs. by rewrite decide_True.
  - rewrite Hm'. simpl. rewrite Hm. by rewrite decide_True.
  - rewrite Hm'. unfold children_of. simpl. rewrite Hc.
    by rewrite decide_True.
  - intros v Hv. rewrite Hm'. by apply (Hgone v key).
Qed.

Lemma X6_witness :
  let m' := (remove_missing_calendar_events ∅ planned_once).2 in
  demo_process "home" party_key party m' = (Ok false, m') ∧
  _parent_meta m' !! party_key = None ∧
  children_of party_key m' = ∅ ∧
  (∀ v, v ∈ subtree_uids party_key planned_once → task_at v m' = None).
Proof.
  apply (X6_pruned_event_is_not_planned_again
           demo_uuid4 demo_isoformat demo_start_of_local_day demo_planner
           "home" party_key party ∅ planned_once).
  - by eexists.
  - reflexivity.
  - set_unfold. tauto.
  - reflexivity.
Defined.

(** ** Durations of the options form *)

Lemma selector_parts_sum (t : Z) :
  t / 86400 * 86400 + t mod 86400 / 3600 * 3600
  + (t mod 86400) mod 3600 / 60 * 60 + ((t mod 86400) mod 3600) mod 60 = t.
Proof.
  pose proof (Z.div_mod t 86400 ltac:(lia)).
  pose proof (Z.div_mod (t mod 86400) 3600 ltac:(lia)).
  pose proof (Z.div_mod ((t mod 86400) mod 3600) 60 ltac:(lia)).
  lia.
Qed.

Lemma selector_parts_canonical (t : Z) :
  0 <= t mod 86400 / 3600 < 24 ∧
  0 <= (t mod 86400) mod 3600 / 60 < 60 ∧
  0 <= ((t mod 86400) mod 3600) mod 60 < 60.
Proof.
  pose proof (Z.mod_pos_bound t 86400 ltac:(lia)).
  pose proof (Z.mod_pos_bound (t mod 86400) 3600 ltac:(lia)).
  pose proof (Z.mod_pos_bound ((t mod 86400) mod 3600) 60 ltac:(lia)).
  split_and!.
  - apply Z.div_pos; lia.
  - apply Z.div_lt_upper_bound; lia.
  - apply Z.div_pos; lia.
  - apply Z.div_lt_upper_bound; lia.
  - lia.
  - lia.
Qed.

Lemma selector_seconds_of_timedelta (us : Z) :
  selector_seconds (_duration_to_selector (AsTimedelta us))
    = int_total_seconds us.
Proof.
  unfold selector_seconds. simpl. apply selector_parts_sum.
Qed.

Lemma duration_selector_canonical (us : Z) :
  canonical (_duration_to_selector (AsTimedelta us)).
Proof.
  eexists _, _, _, _. split; [reflexivity|].
  apply selector_parts_canonical.
Qed.

Lemma selector_to_timedelta_in_range (d : DurationDict) :
  Z.abs (selector_seconds d) < float_exact_seconds →
  _selector_to_timedelta (AsDict d)
    = Returned (selector_seconds d * 1000000).
Proof.
  intros Hrange. unfold _selector_to_timedelta. fold (selector_seconds d).
  unfold float_exact_seconds in Hrange.
  assert (H33 : 2 ^ 33 = 8589934592) by reflexivity. rewrite H33 in Hrange.
  unfold timedelta_min, timedelta_max.
  destruct (Z.leb_spec (-999999999 * 86400 * 1000000)
              (selector_seconds d * 1000000)); [|lia].
  destruct (Z.leb_spec (selector_seconds d * 1000000)
              ((999999999 * 86400 + 86399) * 1000000 + 999999)); [|lia].
  done.
Qed.

(** X7. A timedelta shown in the options form and read back is the same
    timedelta cut to whole seconds (towards zero), hence the very same one
    when it has no fraction of a second. The dictionary the form gets is
    canonical: all four keys, hours below 24, minutes and seconds below 60,
    the sign carried by the days. This holds below 2**33 seconds, where
    the float of total_seconds() is exact enough. *)
Theorem X7_timedelta_survives_the_options_form (microseconds : Z) :
  Z.abs microseconds < float_exact_seconds * 1000000 →
  let shown := _duration_to_selector (AsTimedelta microseconds) in
  canonical shown ∧
  _selector_to_timedelta (AsDict shown)
    = Returned (Z.quot microseconds 1000000 * 1000000) ∧
  (Z.rem microseconds 1000000 = 0 →
   _selector_to_timedelta (AsDict shown) = Returned microseconds).
Proof.
  intros Hrange shown.
  assert (Hsec : selector_seconds shown = Z.quot microseconds 1000000)
    by apply selector_seconds_of_timedelta.
  assert (Hback : _selector_to_timedelta (AsDict shown)
                  = Returned (Z.quot microseconds 1000000 * 1000000)).
  { rewrite <- Hsec. apply selector_to_timedelta_in_range. rewrite Hsec.
    unfold float_exact_seconds in *.
    assert (H33 : 2 ^ 33 = 8589934592) by reflexivity. rewrite H33 in *.
    Z.quot_rem_to_equations. lia. }
  split_and!.
  - apply duration_selector_canonical.
  - done.
  - intros Hwhole. rewrite Hback. f_equal.
    pose proof (Z.quot_rem' microseconds 1000000). lia.
Qed.

Lemma X7_witness :
  let shown := _duration_to_selector (AsTimedelta 300000000) in
  canonical shown ∧
  _selector_to_timedelta (AsDict shown)
    = Returned (Z.quot 300000000 1000000 * 1000000) ∧
  (Z.rem 300000000 1000000 = 0 →
   _selector_to_timedelta (AsDict shown) = Returned 300000000).
Proof.
  apply (X7_timedelta_survives_the_options_form 300000000).
  reflexivity.
Defined.

Lemma canonical_parts_unique (days hours minutes seconds : Z) :
  0 <= hours < 24 → 0 <= minutes < 60 → 0 <= seconds < 60 →
  let t := days * 86400 + hours * 3600 + minutes * 60 + seconds in
  t / 86400 = days ∧
  t mod 86400 / 3600 = hours ∧
  (t mod 86400) mod 3600 / 60 = minutes ∧
  ((t mod 86400) mod 3600) mod 60 = seconds.
Proof.
  intros Hh Hm Hs t.
  assert (H1 : t / 86400 = days).
  { symmetry. apply (Z.div_unique t 86400 days
                       (hours * 3600 + minutes * 60 + seconds)); lia. }
  assert (H2 : t mod 86400 = hours * 3600 + minutes * 60 + seconds).
  { symmetry. apply (Z.mod_unique t 86400 days); lia. }
  rewrite H2.
  assert (H3 : (hours * 3600 + minutes * 60 + seconds) / 3600 = hours).
  { symmetry. apply (Z.div_unique _ 3600 hours (minutes * 60 + seconds)); lia. }
  assert (H4 : (hours * 3600 + minutes * 60 + seconds) mod 3600
               = minutes * 60 + seconds).
  { symmetry. apply (Z.mod_unique _ 3600 hours); lia. }
  rewrite H4.
  split_and!; try done.
  - symmetry. apply (Z.div_unique _ 60 minutes seconds); lia.
  - symmetry. apply (Z.mod_unique _ 60 minutes); lia.
Qed.

(** X8. What the user enters in the options form is stored as the
    timedelta of its total: missing keys count as zero and the four parts
    add up. Shown again, that timedelta gives a canonical dictionary with
    the same total, so {minutes: 90} comes back as 1 hour 30 minutes, and
    a dictionary that is canonical already comes back unchanged. This
    holds for totals below 2**33 seconds. *)
Theorem X8_options_form_input_is_normalised (d : DurationDict) :
  Z.abs (selector_seconds d) < float_exact_seconds →
  ∃ stored,
    _selector_to_timedelta (AsDict d) = Returned stored ∧
    stored = selector_seconds d * 1000000 ∧
    let shown := _duration_to_selector (AsTimedelta stored) in
    canonical shown ∧
    selector_seconds shown = selector_seconds d ∧
    _selector_to_timedelta (AsDict shown) = Returned stored ∧
    (canonical d → shown = d).
Proof.
  intros Hrange. exists (selector_seconds d * 1000000).
  split; [by apply selector_to_timedelta_in_range|].
  split; [done|]. cbv zeta.
  assert (Hsec : selector_seconds
                   (_duration_to_selector
                      (AsTimedelta (selector_seconds d * 1000000)))
                 = selector_seconds d).
  { rewrite selector_seconds_of_timedelta. unfold int_total_seconds.
    apply Z.quot_mul. lia. }
  split_and!.
  - apply duration_selector_canonical.
  - done.
  - rewrite <- Hsec at 2. apply selector_to_timedelta_in_range.
    by rewrite Hsec.
  - intros (days & hours & minutes & seconds & -> & Hh & Hm & Hs).
    unfold _duration_to_selector, int_total_seconds.
    rewrite Z.quot_mul by lia. unfold selector_seconds. simpl.
    destruct (canonical_parts_unique days hours minutes seconds Hh Hm Hs)
      as (-> & -> & -> & ->).
    done.
Qed.

Lemma X8_witness :
  ∃ stored,
    _selector_to_timedelta (AsDict (mkDurationDict None None (Some 90) None))
      = Returned stored ∧
    stored = 5400000000 ∧
    _duration_to_selector (AsTimedelta stored)
      = mkDurationDict (Some 0) (Some 1) (Some 30) (Some 0).
Proof.
  destruct (X8_options_form_input_is_normalised
              (mkDurationDict None None (Some 90) None))
    as (stored & Hrun & Hval & _).
  - reflexivity.
  - exists stored. split; [done|]. split; [by rewrite Hval|].
    by rewrite Hval.
Defined.

(** ** The plan without a backend *)

Lemma default_breakdown_shape str_lower summary description :
  ∃ t1 t2 t3,
    _default_breakdown str_lower summary description
      = [(t1, description); (t2, None); (t3, None)].
Proof.
  unfold _default_breakdown.
  destruct (existsb _ ["repar"; "fix"; "repair"]); [by eexists _, _, _|].
  destruct (existsb _ _); by eexists _, _, _.
Qed.

Lemma fallback_plan_spec str_lower parse_as_utc payload :
  match _fallback_plan str_lower parse_as_utc payload with
  | Returned plan =>
      ∃ base_due,
        fallback_shaped (pl_description payload) base_due plan ∧
        title <$> tasks plan
          = (_default_breakdown str_lower
               (str_or (pl_summary payload) "Aufgabe")
               (pl_description payload)).*1 ∧
        match _parse_dt parse_as_utc (pl_due payload) with
        | Returned (Some due) => base_due = Some due
        | _ => _parse_dt parse_as_utc (pl_end payload) = Returned base_due
        end
  | Raised =>
      ∃ s, (pl_due payload = PvStr s ∨ pl_end payload = PvStr s) ∧
           parse_as_utc s = OtherError
  end.
Proof.
  unfold _fallback_plan.
  destruct (default_breakdown_shape str_lower
              (str_or (pl_summary payload) "Aufgabe") (pl_description payload))
    as (t1 & t2 & t3 & Hshape).
  assert (Hraise : ∀ v, _parse_dt parse_as_utc v = Raised →
                        ∃ s, v = PvStr s ∧ parse_as_utc s = OtherError).
  { intros [z|s|]; simpl; try done.
    destruct (parse_as_utc s) eqn:Hs; try done. eauto. }
  destruct (_parse_dt parse_as_utc (pl_due payload)) as [[due|]|] eqn:Hdue.
  - exists (Some due). rewrite Hshape. split_and!; try done.
    split; [done|]. split; [done|]. by exists t1, t2, t3.
  - destruct (_parse_dt parse_as_utc (pl_end payload)) as [base|] eqn:Hend.
    + exists base. rewrite Hshape. split_and!; try done.
      split; [done|]. split; [done|]. by exists t1, t2, t3.
    + destruct (Hraise _ Hend) as (s & Hv & Hs). eauto.
  - destruct (Hraise _ Hdue) as (s & Hv & Hs). eauto.
Qed.

(** X9. Without an API key, and whenever the provider call fails with one
    of the errors the client catches, _async_generate_plan answers with
    the fallback plan: three steps titled by the heuristic breakdown of
    the summary ("Aufgabe" when there is none), the first with the
    description of the request, each due at the payload's due, or else its
    end, and rated "unknown". The call lets an exception through only when
    parsing one of these two strings raises something other than
    ValueError or TypeError. *)
Theorem X9_plan_without_backend_is_the_fallback
    (str_lower : string → string) (parse_as_utc : string → parsed)
    (PROVIDER_GEMINI : string)
    (_async_generate_with_gemini _async_generate_with_openai
       : Payload → backend_answer)
    (api_key : option string) (provider : string) (payload : Payload) :
  truthy api_key = false ∨
  (if decide (provider = PROVIDER_GEMINI)
   then _async_generate_with_gemini payload
   else _async_generate_with_openai payload) = BackendCaught →
  match _async_generate_plan str_lower parse_as_utc PROVIDER_GEMINI
          _async_generate_with_gemini _async_generate_with_openai
          api_key provider payload with
  | Returned plan =>
      ∃ base_due,
        fallback_shaped (pl_description payload) base_due plan ∧
        title <$> tasks plan
          = (_default_breakdown str_lower
               (str_or (pl_summary payload) "Aufgabe")
               (pl_description payload)).*1 ∧
        match _parse_dt parse_as_utc (pl_due payload) with
        | Returned (Some due) => base_due = Some due
        | _ => _parse_dt parse_as_utc (pl_end payload) = Returned base_due
        end
  | Raised =>
      ∃ s, (pl_due payload = PvStr s ∨ pl_end payload = PvStr s) ∧
           parse_as_utc s = OtherError
  end.
Proof.
  intros Hcase.
  assert (Hrun : _async_generate_plan str_lower parse_as_utc PROVIDER_GEMINI
                   _async_generate_with_gemini _async_generate_with_openai
                   api_key provider payload
                 = _fallback_plan str_lower parse_as_utc payload).
  { unfold _async_generate_plan.
    destruct (truthy api_key) eqn:Hkey; simpl; [|done].
    destruct Hcase as [?|Hcaught]; [done|]. by rewrite Hcaught. }
  rewrite Hrun. apply fallback_plan_spec.
Qed.

Lemma X9_witness :
  ∃ plan, demo_generate None "openai" sink_payload = Returned plan ∧
          fallback_shaped None (Some 7) plan.
Proof.
  pose proof (X9_plan_without_backend_is_the_fallback
                ascii_lower demo_parse "gemini" failing_backend failing_backend
                None "openai" sink_payload (or_introl eq_refl)) as H.
  fold demo_generate in H.
  destruct (demo_generate None "openai" sink_payload) as [plan|] eqn:Hrun.
  - destruct H as (base & Hshape & _ & Hdue). simpl in Hdue.
    injection Hdue as <-. eauto.
  - vm_compute in Hrun. discriminate.
Defined.

(** ** The heuristic breakdown *)

Lemma string_app_cons (a : ascii) (s t : string) :
  String a s +:+ t = String a (s +:+ t).
Proof. reflexivity. Qed.

Lemma string_app_nil_l (t : string) : "" +:+ t = t.
Proof. reflexivity. Qed.

Lemma prefix_occurs (needle haystack : string) :
  String.prefix needle haystack = true ↔ ∃ after, haystack = needle +:+ after.
Proof.
  revert haystack. induction needle as [|a needle IH]; intros haystack.
  - split; [|by destruct haystack]. intros _. by exists haystack.
  - destruct haystack as [|b haystack].
    + split; [done|]. intros (after & Habs). by rewrite string_app_cons in Habs.
    + simpl. destruct (ascii_dec a b) as [->|Hne].
      * rewrite IH. split; intros (after & Heq); exists after.
        -- by rewrite string_app_cons, Heq.
        -- rewrite string_app_cons in Heq. by injection Heq.
      * split; [done|]. intros (after & Heq).
        rewrite string_app_cons in Heq. by injection Heq.
Qed.

Lemma contains_occurs (needle haystack : string) :
  contains needle haystack = true ↔ occurs_in needle haystack.
Proof.
  unfold occurs_in. induction haystack as [|b haystack IH].
  - change (contains needle "") with (String.prefix needle "" || false).
    rewrite orb_false_r, prefix_occurs. split.
    + intros (after & Heq). by exists "", after.
    + intros (before & after & Heq). destruct before; [by exists after|].
      by rewrite string_app_cons in Heq.
  - change (contains needle (String b haystack))
      with (String.prefix needle (String b haystack)
            || contains needle haystack).
    rewrite orb_true_iff, IH, prefix_occurs. split.
    + intros [(after & Heq)|(before & after & Heq)].
      * by exists "", after.
      * exists (String b before), after. by rewrite string_app_cons, Heq.
    + intros (before & after & Heq). destruct before as [|c before].
      * left. by exists after.
      * right. rewrite string_app_cons in Heq. injection Heq as _ Heq.
        by exists before, after.
Qed.

(** X10. The heuristic breakdown looks for its keywords anywhere in the
    lower-cased summary, as substrings: when "repar", "fix" or "repair"
    occurs the repair steps are returned, also when a party keyword occurs
    as well; otherwise "geburtstag", "party" or "feier" selects the party
    steps; otherwise the generic steps are returned. *)
Theorem X10_breakdown_follows_the_keywords
    (str_lower : string → string) (summary : string)
    (description : option string) :
  let normalized := str_lower summary in
  let repair := occurs_in "repar" normalized ∨ occurs_in "fix" normalized
                ∨ occurs_in "repair" normalized in
  let party := occurs_in "geburtstag" normalized
               ∨ occurs_in "party" normalized
               ∨ occurs_in "feier" normalized in
  (repair →
   _default_breakdown str_lower summary description
     = repair_steps description) ∧
  (¬ repair → party →
   _default_breakdown str_lower summary description
     = party_steps description) ∧
  (¬ repair → ¬ party →
   _default_breakdown str_lower summary description
     = generic_steps description).
Proof.
  intros normalized repair party.
  assert (Hrepair : existsb (λ keyword, contains keyword normalized)
                      ["repar"; "fix"; "repair"] = true ↔ repair).
  { unfold repair. simpl. rewrite !orb_true_iff, !contains_occurs.
    intuition discriminate. }
  assert (Hparty : existsb (λ keyword, contains keyword normalized)
                     ["geburtstag"; "party"; "feier"] = true ↔ party).
  { unfold party. simpl. rewrite !orb_true_iff, !contains_occurs.
    intuition discriminate. }
  unfold _default_breakdown. fold normalized.
  destruct (existsb _ ["repar"; "fix"; "repair"]).
  { split_and!; [done| |]; intros Hno; exfalso; apply Hno; by apply Hrepair. }
  destruct (existsb _ ["geburtstag"; "party"; "feier"]).
  { split_and!.
    - intros Hyes. apply Hrepair in Hyes. done.
    - done.
    - intros _ Hno. exfalso. apply Hno. by apply Hparty. }
  split_and!.
  - intros Hyes. apply Hrepair in Hyes. done.
  - intros _ Hyes. apply Hparty in Hyes. done.
  - done.
Qed.

(** ** A calendar event planned without a backend *)

(** X11. When the client has no API key, a calendar event that is
    processed gets the fallback plan installed: the parent is stored
    IN_PROGRESS and due at the start of the event (or else its end), the
    key gets exactly three children, all NEEDS_ACTION, and the meta entry
    rates the mental load "unknown". The children are due at what the
    client parsed from the end of the event, not at its start; only when
    the end gives no datetime do they fall back to the due of the
    parent. *)
Theorem X11_event_without_api_key_gets_three_steps
    (uuid4 : nat → string) (isoformat : Z → string)
    (start_of_local_day : Z → Z)
    (str_lower : string → string) (parse_as_utc : string → parsed)
    (PROVIDER_GEMINI : string)
    (_async_generate_with_gemini _async_generate_with_openai
       : Payload → backend_answer)
    (utc_isoformat : pytime → attempt string)
    (api_key : option string) (provider : string)
    (planner : nat → option string → option string → pytime → pytime
               → PlannedResponse)
    (calendar_id key : string) (event : CalendarEvent) (m : Manager) :
  let plan := planner (plans_requested m) (ev_summary event)
                (ev_description event) (ev_start event) (ev_end event) in
  let parent_due := dt_or (due_of_time start_of_local_day (ev_start event))
                          (due_of_time start_of_local_day (ev_end event)) in
  truthy api_key = false →
  async_plan_for_calendar_event str_lower parse_as_utc PROVIDER_GEMINI
    _async_generate_with_gemini _async_generate_with_openai utc_isoformat
    api_key provider (ev_summary event) (ev_description event)
    (ev_start event) (ev_end event) None = Returned plan →
  _event_signatures m !! key ≠ Some (_event_signature isoformat event) →
  NoDup (drawn uuid4 (uuids_drawn m) 4) →
  ∃ m' parent base_due,
    async_process_calendar_event uuid4 isoformat start_of_local_day planner
      calendar_id key event m = (Ok true, m') ∧
    task_at (uuid4 (uuids_drawn m)) m' = Some parent ∧
    status (item parent) = Some IN_PROGRESS ∧
    due (item parent) = parent_due ∧
    size (children_of key m') = 3%nat ∧
    match iso_or_none utc_isoformat (ev_end event) with
    | Returned end_text => _parse_dt parse_as_utc end_text = Returned base_due
    | Raised => False
    end ∧
    (∀ c, c ∈ children_of key m' →
          ∃ t, task_at c m' = Some t ∧
               status (item t) = Some NEEDS_ACTION ∧
               due (item t) = dt_or base_due parent_due) ∧
    _parent_meta m' !! key ≫= meta_mental_load = Some "unknown".
Proof.
  intros plan parent_due Hkey Hai Hsig Hnd.
  unfold async_plan_for_calendar_event in Hai.
  destruct (iso_or_none utc_isoformat (ev_start event)) as [start_text|];
    [|done].
  destruct (iso_or_none utc_isoformat (ev_end event)) as [end_text|];
    [|done].
  unfold _async_generate_plan in Hai. rewrite Hkey in Hai. simpl in Hai.
  match type of Hai with
  | _fallback_plan _ _ ?p = _ =>
      pose proof (fallback_plan_spec str_lower parse_as_utc p) as Hfb
  end.
  rewrite Hai in Hfb.
  destruct Hfb as (base & (Hml & Hsn & t1 & t2 & t3 & Htasks) & _ & Hdue).
  simpl in Hdue.
  assert (Hlen : length (tasks plan) = 3%nat) by (by rewrite Htasks).
  rewrite process_unfold. cbv zeta. rewrite decide_False by done.
  fold plan.
  set (mt := mkMeta (Some CALENDAR_SOURCE) (ev_summary event)
               (mental_load plan) (summary_notes plan) None).
  fold parent_due.
  match goal with
  | |- context [_replace_parent_tasks uuid4 key plan parent_due ?base] =>
      set (m0 := base)
  end.
  destruct (replace_spec uuid4 key plan parent_due m0 mt)
    as (m' & Hrun & Hd & Hm & Hs & Hn & Hp & Hc & Hkids & Hold & Hnew).
  { unfold m0. simpl. apply lookup_insert_eq. }
  change (uuids_drawn m0) with (uuids_drawn m) in *.
  rewrite Hlen in Hnew, Hkids.
  destruct (Hnew Hnd)
    as ((parent & Hpar & Hip & Hpk & _ & Hsum & Hpdue & Hst) & Hch).
  rewrite Hrun. exists m', parent, base. split_and!.
  - done.
  - done.
  - rewrite Hst. by rewrite Htasks.
  - done.
  - apply (size_of_drawn_set uuid4 _ (S (uuids_drawn m))); [done|].
    rewrite drawn_S in Hnd. by apply NoDup_cons in Hnd as [_ ?].
  - done.
  - intros c Hc'. apply Hkids, elem_of_drawn in Hc' as (i & Hi & ->).
    rewrite <- Hlen in Hi.
    destruct (lookup_lt_is_Some_2 (tasks plan) i Hi) as [planned Hpl].
    rewrite (Hch i planned Hpl). eexists. split; [done|]. split; [done|].
    simpl. f_equal.
    apply list_elem_of_lookup_2 in Hpl. rewrite Htasks in Hpl.
    set_unfold. by destruct Hpl as [->|[->|[->|[]]]].
  - rewrite Hm, lookup_insert_eq. simpl. done.
Qed.

Lemma X11_witness :
  ∃ m' parent,
    async_process_calendar_event demo_uuid4 demo_isoformat
      demo_start_of_local_day offline_planner "home" party_key party
      new_manager = (Ok true, m') ∧
    task_at (demo_uuid4 0) m' = Some parent ∧
    status (item parent) = Some IN_PROGRESS ∧
    due (item parent) = Some 100 ∧
    size (children_of party_key m') = 3%nat ∧
    (∀ c, c ∈ children_of party_key m' →
          ∃ t, task_at c m' = Some t ∧ due (item t) = Some 200).
Proof.
  destruct (X11_event_without_api_key_gets_three_steps
              demo_uuid4 demo_isoformat demo_start_of_local_day
              ascii_lower offline_parse "gemini" failing_backend
              failing_backend offline_utc_isoformat None "openai"
              offline_planner "home" party_key party new_manager)
    as (m' & parent & base & Hrun & Hpar & Hst & Hdue & Hsize & Hbase
        & Hkids & _).
  - reflexivity.
  - reflexivity.
  - vm_compute. discriminate.
  - apply (bool_decide_unpack _). vm_compute. exact I.
  - exists m', parent. split_and!; try done.
    intros c Hc. destruct (Hkids c Hc) as (t & Ht & _ & Hd).
    exists t. split; [done|]. rewrite Hd.
    vm_compute in Hbase. by injection Hbase as <-.
Defined.

(** ** What a reconciliation cycle leaves alone *)

Lemma make_parent_key_calendar time_text cid event :
  String.prefix "calendar:" (_make_parent_key time_text cid event) = true.
Proof. apply prefix_occurs. by eexists. Qed.

Lemma intents_keys_calendar time_text calendars k :
  k ∈ (intents_of time_text calendars).*1 →
  String.prefix "calendar:" k = true.
Proof.
  induction calendars as [|[cid events] cs IH].
  { intros H. by apply elem_of_nil in H. }
  change (intents_of time_text ((cid, events) :: cs))
    with (((λ e, (_make_parent_key time_text cid e, e)) <$> events)
          ++ intents_of time_text cs).
  rewrite fmap_app, elem_of_app, <- list_fmap_compose.
  intros [Hin|Hin]; [|by apply IH].
  apply list_elem_of_fmap in Hin as (e & -> & _).
  apply make_parent_key_calendar.
Qed.

(** The prune step does not touch a key that is not a calendar key, nor
    the tasks that carry it. *)
Lemma prune_other_keys (valid : gset string) (m : Manager) key :
  index_consistent m →
  String.prefix "calendar:" key = false →
  let m' := (remove_missing_calendar_events valid m).2 in
  _parent_meta m' !! key = _parent_meta m !! key ∧
  _parent_children m' !! key = _parent_children m !! key ∧
  ∀ u t, task_at u m = Some t → parent_key t = key → task_at u m' = Some t.
Proof.
  intros Hcons Hkey m'.
  destruct (remove_parents_spec (to_remove valid m) m)
    as (Hc & Hm & _ & _ & _ & _ & _ & _ & Hkeep).
  set (m1 := foldl (λ acc key, _remove_parent key acc) m (to_remove valid m))
    in *.
  assert (Hsame : _parent_meta m' = _parent_meta m1 ∧
                  _parent_children m' = _parent_children m1 ∧
                  ∀ u, task_at u m' = task_at u m1).
  { subst m'. unfold remove_missing_calendar_events. simpl. fold m1.
    by destruct (to_remove valid m). }
  destruct Hsame as (-> & -> & Ht).
  assert (Hnot : key ∉ to_remove valid m).
  { intros (_ & Hp & _)%elem_of_to_remove. congruence. }
  split_and!.
  - rewrite Hm. by rewrite decide_False.
  - rewrite Hc. by rewrite decide_False.
  - intros u t Hu Hk. rewrite Ht, Hkeep; [done|].
    intros k (_ & Hp & _)%elem_of_to_remove Hin.
    rewrite (Hcons k u t Hin Hu) in Hk. congruence.
Qed.

Section CycleFrame.
Variable uuid4 : nat → string.
Hypothesis uuid4_inj : Inj (=) (=) uuid4.
Variable isoformat : Z → string.
Variable start_of_local_day : Z → Z.
Variable time_text : pytime → string.
Variable planner :
  nat → option string → option string → pytime → pytime → PlannedResponse.

(** A pass over calendar intents does not touch a key that is not a
    calendar key, nor the tasks that carry it. *)
Lemma run_other_keys intents (m : Manager) key :
  well_formed uuid4 m →
  (∀ k, k ∈ intents.*1 → String.prefix "calendar:" k = true) →
  String.prefix "calendar:" key = false →
  let m' := run_intents uuid4 isoformat start_of_local_day planner intents m in
  _parent_meta m' !! key = _parent_meta m !! key ∧
  _parent_children m' !! key = _parent_children m !! key ∧
  ∀ u t, task_at u m = Some t → parent_key t = key → task_at u m' = Some t.
Proof.
  intros Hwf Hcal Hkey m'.
  assert (Hnot : key ∉ intents.*1).
  { intros Hin. apply Hcal in Hin. congruence. }
  destruct (run_index_frame uuid4 isoformat start_of_local_day planner
              intents m key Hnot) as (Hm & Hc & _).
  split_and!; [done|done|].
  intros u t Hu Hk. unfold m'.
  rewrite run_task_frame; [done| |].
  - intros k Hin Hchild.
    assert (Hsub : u ∈ subtree_uids k m).
    { unfold subtree_uids. apply elem_of_union. by left. }
    rewrite (wf_consistent _ _ Hwf k u t Hsub Hu) in Hk.
    apply Hcal in Hin. congruence.
  - apply drawn_earlier_not_later; [done|].
    apply (wf_stored_drawn _ _ Hwf). by rewrite Hu.
Qed.
End CycleFrame.

(** X12. A reconciliation cycle touches calendar subtrees only. From any
    state the manager can reach, whatever the calendars return and whether
    or not the cycle fails on a calendar, a key that does not start with
    "calendar:" (every manual key) keeps its entries in the meta table and
    the child index, and every stored task that carries the key is still
    stored, unchanged, after the cycle. *)
Theorem X12_cycle_touches_calendar_subtrees_only
    (uuid4 : nat → string) (isoformat : Z → string)
    (start_of_local_day : Z → Z) (time_text : pytime → string)
    (planner : nat → option string → option string → pytime → pytime
               → PlannedResponse)
    (manual_planner : nat → string → option string → option Z
                      → option string → PlannedResponse)
    (sources : list (string * option (list CalendarEvent)))
    (m : Manager) (key : string) :
  Inj (=) (=) uuid4 →
  reachable uuid4 isoformat start_of_local_day time_text planner
            manual_planner m →
  String.prefix "calendar:" key = false →
  let m' := (_async_update_data uuid4 isoformat start_of_local_day time_text
               planner sources m).2 in
  _parent_meta m' !! key = _parent_meta m !! key ∧
  _parent_children m' !! key = _parent_children m !! key ∧
  ∀ u t, task_at u m = Some t → parent_key t = key → task_at u m' = Some t.
Proof.
  intros Hinj Hreach Hkey m'.
  assert (Hwf : well_formed uuid4 m)
    by (by eapply reachable_well_formed).
  assert (Hrun : ∀ calendars,
            let m1 := run_intents uuid4 isoformat start_of_local_day planner
                        (intents_of time_text calendars) m in
            well_formed uuid4 m1 ∧
            _parent_meta m1 !! key = _parent_meta m !! key ∧
            _parent_children m1 !! key = _parent_children m !! key ∧
            ∀ u t, task_at u m = Some t → parent_key t = key →
                   task_at u m1 = Some t).
  { intros calendars m1. split; [by apply run_well_formed|].
    apply run_other_keys; try done.
    intros k. apply intents_keys_calendar. }
  destruct (sources_split sources)
    as [(cs & ->)|(before & failing & after & ->)].
  - destruct (Hrun cs) as (Hwf1 & Hm1 & Hc1 & Ht1).
    assert (Hm' : m' = m ∨
                  m' = (remove_missing_calendar_events
                          (observed_keys time_text cs ∪ ∅)
                          (run_intents uuid4 isoformat start_of_local_day
                             planner (intents_of time_text cs) m)).2).
    { unfold m', _async_update_data. destruct cs as [|c cs]; [by left|].
      right.
      change (fetched (c :: cs)) with ((c.1, Some c.2) :: fetched cs) at 1.
      cbv iota. change ((c.1, Some c.2) :: fetched cs) with (fetched (c :: cs)).
      by rewrite process_calendars_run. }
    destruct Hm' as [->| ->]; [done|].
    destruct (prune_other_keys (observed_keys time_text cs ∪ ∅)
                (run_intents uuid4 isoformat start_of_local_day planner
                   (intents_of time_text cs) m) key)
      as (Hm2 & Hc2 & Ht2); [apply Hwf1|done|].
    rewrite Hm2, Hc2. split_and!; [done|done|].
    intros u t Hu Hk. apply Ht2; [|done]. by apply Ht1.
  - unfold m'. rewrite cycle_fail. simpl.
    by destruct (Hrun before) as (_ & ? & ? & ?).
Qed.

Lemma demo_uuid4_inj : Inj (=) (=) demo_uuid4.
Proof.
  intros a. induction a as [|a IH]; intros [|b] Heq; try done.
  f_equal. apply IH.
  change (String "x" (demo_uuid4 a) = String "x" (demo_uuid4 b)) in Heq.
  by injection Heq.
Qed.

Lemma first_request_reachable :
  reachable demo_uuid4 demo_isoformat demo_start_of_local_day demo_time_text
            demo_planner demo_manual_planner first_request.
Proof. apply rtc_once. apply step_create. Qed.

Lemma X12_witness :
  let m' := (demo_cycle (fetched home_calendar) first_request).2 in
  _parent_meta m' !! first_request_key
    = _parent_meta first_request !! first_request_key ∧
  _parent_children m' !! first_request_key
    = _parent_children first_request !! first_request_key ∧
  ∀ u t, task_at u first_request = Some t →
         parent_key t = first_request_key → task_at u m' = Some t.
Proof.
  apply (X12_cycle_touches_calendar_subtrees_only
           demo_uuid4 demo_isoformat demo_start_of_local_day demo_time_text
           demo_planner demo_manual_planner (fetched home_calendar)
           first_request first_request_key).
  - apply demo_uuid4_inj.
  - apply first_request_reachable.
  - reflexivity.
Defined.

(** ** What a completed cycle establishes *)

Section CompletedCycle.
Variable uuid4 : nat → string.
Variable isoformat : Z → string.
Variable start_of_local_day : Z → Z.
Variable time_text : pytime → string.
Variable planner :
  nat → option string → option string → pytime → pytime → PlannedResponse.




End CompletedCycle.


(** ** Editing a parent whose child set names a missing task *)

Lemma update_children_missing f kids (m : Manager) c :
  c ∈ kids → task_at c m = None →
  ∃ c' m', c' ∈ kids ∧ task_at c' m = None ∧
           update_children f kids m = (Raise (KeyError c'), m') ∧
           _parent_children m' = _parent_children m ∧
           _parent_meta m' = _parent_meta m ∧
           _event_signatures m' = _event_signatures m ∧
           notified m' = notified m ∧
           ∀ u, u ∉ kids → task_at u m' = task_at u m.
Proof.
  revert m. induction kids as [|k kids IH]; intros m Hin Hnone.
  { by apply elem_of_nil in Hin. }
  simpl. destruct (Dict.get k (_tasks m)) as [child|] eqn:Hk.
  - set (m1 := with_tasks (Dict.replace k (f child) (_tasks m)) m).
    assert (Hck : c ≠ k).
    { intros ->. unfold task_at in Hnone. congruence. }
    apply elem_of_cons in Hin as [?|Hin]; [done|].
    destruct (IH m1 Hin) as (c' & m' & Hc' & Hn' & Hrun & Hc & Hm & Hs & Hn & Ht).
    { unfold task_at, m1. simpl. by rewrite get_replace_ne. }
    assert (Hc'k : c' ≠ k).
    { intros ->. unfold task_at, m1 in Hn'. simpl in Hn'.
      rewrite get_replace_eq, Hk in Hn'. done. }
    exists c', m'. split_and!; try done.
    + by right.
    + unfold task_at, m1 in Hn'. simpl in Hn'.
      by rewrite get_replace_ne in Hn'.
    + intros u Hu. apply not_elem_of_cons in Hu as [Huk Hu].
      rewrite Ht by done. unfold task_at, m1. simpl.
      by rewrite get_replace_ne.
  - exists k, m. split_and!; try done. left.
Qed.

(** X14. When the child set of a parent names a uid that is not stored,
    marking the parent COMPLETED or NEEDS_ACTION raises KeyError for a
    missing member of the set. The listeners are not notified, but the
    call is not undone: the parent already carries the new status, and
    the indexes and every task outside the child set are as before. *)
Theorem X14_parent_edit_raises_for_a_missing_child
    (it : TodoItem) (m : Manager) (stored : StoredTask) (c : string) :
  task_at (uid it) m = Some stored →
  is_parent stored = true →
  status it ≠ Some IN_PROGRESS →
  uid it ∉ children_of (parent_key stored) m →
  c ∈ children_of (parent_key stored) m →
  task_at c m = None →
  ∃ missing m',
    async_update_item it m = (Raise (KeyError missing), m') ∧
    missing ∈ children_of (parent_key stored) m ∧
    task_at missing m = None ∧
    notified m' = notified m ∧
    _parent_children m' = _parent_children m ∧
    _parent_meta m' = _parent_meta m ∧
    task_at (uid it) m'
      = Some (set_item_status (default NEEDS_ACTION (status it)) stored) ∧
    ∀ u, u ≠ uid it → u ∉ children_of (parent_key stored) m →
         task_at u m' = task_at u m.
Proof.
  intros Hst Hpar Hnot Hself Hc Hnone.
  unfold task_at in Hst. unfold async_update_item. rewrite Hst, Hpar.
  set (new_status := default NEEDS_ACTION (status it)).
  set (m1 := with_tasks
               (Dict.replace (uid it) (set_item_status new_status stored)
                             (_tasks m)) m).
  set (kids := elements (children_of (parent_key stored) m1)).
  assert (Hkids : ∀ u, u ∈ kids ↔ u ∈ children_of (parent_key stored) m).
  { intros u. unfold kids. by rewrite elem_of_elements. }
  assert (Hc1 : task_at c m1 = None).
  { unfold task_at, m1. simpl. rewrite get_replace_ne; [done|].
    intros Heq. by rewrite Heq in Hself. }
  assert (Hloop : ∀ f, ∃ missing m',
            update_children f kids m1 = (Raise (KeyError missing), m') ∧
            missing ∈ children_of (parent_key stored) m ∧
            task_at missing m = None ∧
            notified m' = notified m ∧
            _parent_children m' = _parent_children m ∧
            _parent_meta m' = _parent_meta m ∧
            task_at (uid it) m' = Some (set_item_status new_status stored) ∧
            ∀ u, u ≠ uid it → u ∉ children_of (parent_key stored) m →
                 task_at u m' = task_at u m).
  { intros f.
    destruct (update_children_missing f kids m1 c)
      as (c' & m' & Hc' & Hn' & Hrun & Hch & Hm & _ & Hn & Ht);
      [by apply Hkids|done|].
    apply Hkids in Hc'.
    assert (Hne : c' ≠ uid it) by (intros ->; done).
    exists c', m'. split_and!; try done.
    - unfold task_at, m1 in Hn'. simpl in Hn'.
      by rewrite get_replace_ne in Hn'.
    - rewrite Ht by (by rewrite Hkids). unfold task_at, m1. simpl.
      by rewrite get_replace_eq, Hst.
    - intros u Hu Hk. rewrite Ht by (by rewrite Hkids).
      unfold task_at, m1. simpl. by rewrite get_replace_ne. }
  destruct new_status eqn:Hnew.
  - destruct (Hloop reopen) as (missing & m' & Hrun & H).
    rewrite Hrun. by exists missing, m'.
  - exfalso. apply Hnot. unfold new_status in Hnew.
    by destruct (status it) as [[]|].
  - destruct (Hloop (set_item_status COMPLETED)) as (missing & m' & Hrun & H).
    rewrite Hrun. by exists missing, m'.
Qed.

Lemma X14_witness :
  ∃ missing m',
    async_update_item tick_ghost_parent ghost_store
      = (Raise (KeyError missing), m') ∧
    notified m' = notified ghost_store ∧
    status_at "p" m' = Some COMPLETED.
Proof.
  destruct (X14_parent_edit_raises_for_a_missing_child
              tick_ghost_parent ghost_store
              (mkStoredTask
                 (mkTodoItem "P" "p" None (Some NEEDS_ACTION) None None)
                 "k" true)
              "ghost")
    as (missing & m' & Hrun & _ & _ & Hn & _ & _ & Hp & _).
  - reflexivity.
  - reflexivity.
  - discriminate.
  - apply (bool_decide_unpack _). vm_compute. exact I.
  - apply (bool_decide_unpack _). vm_compute. exact I.
  - reflexivity.
  - exists missing, m'. split; [done|]. split; [done|].
    unfold status_at. simpl in Hp. by rewrite Hp.
Defined.

(** ** Child sets name stored child tasks *)

Lemma same_but_status_refl t : same_but_status t t.
Proof. by left. Qed.

Lemma same_but_status_trans t1 t2 t3 :
  same_but_status t1 t2 → same_but_status t2 t3 → same_but_status t1 t3.
Proof.
  intros [->|(s1 & ->)] [->|(s2 & ->)]; try (by left); right; eauto.
Qed.

Lemma same_but_status_is_parent t t' :
  same_but_status t t' → is_parent t' = is_parent t.
Proof. by intros [->|(s & ->)]. Qed.

Lemma same_but_status_reopen t : same_but_status t (reopen t).
Proof.
  unfold reopen. destruct (has_status _ _); [right; eauto|by left].
Qed.

Lemma keeps_tasks_refl (m : Manager) : keeps_tasks m m.
Proof. intros u t Ht. exists t. split; [done|by left]. Qed.

Lemma keeps_tasks_trans (m1 m2 m3 : Manager) :
  keeps_tasks m1 m2 → keeps_tasks m2 m3 → keeps_tasks m1 m3.
Proof.
  intros H12 H23 u t Ht. destruct (H12 u t Ht) as (t2 & Ht2 & Hp2).
  destruct (H23 u t2 Ht2) as (t3 & Ht3 & Hp3). exists t3.
  split; [done|]. by eapply same_but_status_trans.
Qed.

Lemma keeps_tasks_replace u f (m : Manager) stored :
  task_at u m = Some stored →
  same_but_status stored (f stored) →
  keeps_tasks m (with_tasks (Dict.replace u (f stored) (_tasks m)) m).
Proof.
  intros Hu Hf v t Hv. unfold task_at in *. simpl.
  destruct (decide (u = v)) as [->|Hne].
  - rewrite get_replace_eq, Hv. simpl. exists (f stored).
    split; [done|]. congruence.
  - rewrite get_replace_ne by done. exists t. split; [done|by left].
Qed.

Lemma keeps_tasks_update_children f kids (m : Manager) :
  (∀ t, same_but_status t (f t)) →
  keeps_tasks m (update_children f kids m).2 ∧
  _parent_children (update_children f kids m).2 = _parent_children m.
Proof.
  intros Hf. revert m. induction kids as [|k kids IH]; intros m; simpl.
  { split; [apply keeps_tasks_refl|done]. }
  destruct (Dict.get k (_tasks m)) as [child|] eqn:Hk;
    [|split; [apply keeps_tasks_refl|done]].
  destruct (IH (with_tasks (Dict.replace k (f child) (_tasks m)) m))
    as (Hkeep & Hc).
  split; [|by rewrite Hc].
  eapply keeps_tasks_trans; [|exact Hkeep].
  by apply keeps_tasks_replace.
Qed.

Lemma keeps_tasks_refresh_parent stored (m : Manager) :
  keeps_tasks m (refresh_parent stored m).
Proof.
  unfold refresh_parent.
  destruct (parent_uid_of stored) as [p|]; [|apply keeps_tasks_refl].
  destruct (truthy (Some p)); [|apply keeps_tasks_refl].
  destruct (Dict.get p (_tasks m)) as [parent|] eqn:Hp;
    [|apply keeps_tasks_refl].
  apply (keeps_tasks_replace p (set_item_status _)); [done|].
  right. eauto.
Qed.

Lemma update_item_keeps it (m : Manager) :
  keeps_tasks m (async_update_item it m).2 ∧
  _parent_children (async_update_item it m).2 = _parent_children m.
Proof.
  unfold async_update_item.
  destruct (Dict.get (uid it) (_tasks m)) as [stored|] eqn:Hst;
    [|split; [apply keeps_tasks_refl|done]].
  set (new_status := default NEEDS_ACTION (status it)).
  set (m1 := with_tasks (Dict.replace (uid it)
                 (set_item_status new_status stored) (_tasks m)) m).
  assert (H1 : keeps_tasks m m1).
  { apply (keeps_tasks_replace (uid it) (set_item_status _)); [done|].
    right. eauto. }
  destruct (is_parent stored).
  - destruct new_status.
    + destruct (keeps_tasks_update_children reopen
                  (elements (children_of (parent_key stored) m1)) m1)
        as (Hk & Hc).
      { apply same_but_status_reopen. }
      destruct (update_children reopen _ m1) as [[[]|e] m2]; simpl in *;
        (split; [by eapply keeps_tasks_trans|done]).
    + by split.
    + destruct (keeps_tasks_update_children (set_item_status COMPLETED)
                  (elements (children_of (parent_key stored) m1)) m1)
        as (Hk & Hc); [intros t; right; eauto|].
      destruct (update_children (set_item_status COMPLETED) _ m1)
        as [[[]|e] m2]; simpl in *;
        (split; [by eapply keeps_tasks_trans|done]).
  - simpl. split; [|by destruct (refresh_parent_frame
                          (set_item_status new_status stored) m1) as (-> & _)].
    eapply keeps_tasks_trans; [exact H1|].
    apply keeps_tasks_refresh_parent.
Qed.

Lemma children_stored_new : children_stored new_manager.
Proof.
  intros key u Hu. unfold children_of in Hu. simpl in Hu.
  rewrite lookup_empty in Hu. simpl in Hu. by apply elem_of_empty in Hu.
Qed.

Lemma children_stored_notify (m : Manager) :
  children_stored m → children_stored (_notify_listeners m).
Proof. done. Qed.

Lemma update_item_children_stored it (m : Manager) :
  children_stored m → children_stored (async_update_item it m).2.
Proof.
  intros H k u Hu. destruct (update_item_keeps it m) as (Hk & Hc).
  unfold children_of in Hu. rewrite Hc in Hu.
  destruct (H k u Hu) as (t & Ht & Hp).
  destruct (Hk u t Ht) as (t' & Ht' & Hp'). exists t'. split; [done|].
  apply same_but_status_is_parent in Hp'. congruence.
Qed.

Lemma subtree_of_child key u (m : Manager) :
  u ∈ children_of key m → u ∈ subtree_uids key m.
Proof. intros Hu. unfold subtree_uids. apply elem_of_union. by left. Qed.

Lemma remove_parent_children_stored key (m : Manager) :
  index_consistent m → children_stored m →
  children_stored (_remove_parent key m).
Proof.
  intros Hcons H k u Hu.
  destruct (remove_parent_spec key m) as (Hc & _ & _ & _ & _ & _ & Ht).
  unfold children_of in Hu. rewrite Hc in Hu.
  destruct (decide (k = key)) as [->|Hne].
  { rewrite lookup_delete_eq in Hu. by apply elem_of_empty in Hu. }
  rewrite lookup_delete_ne in Hu by done.
  destruct (H k u Hu) as (t & Hut & Hp). exists t. split; [|done].
  rewrite Ht. rewrite decide_False; [done|]. intros Hin.
  apply Hne. rewrite <- (Hcons key u t Hin Hut). symmetry.
  apply (Hcons k u t); [by apply subtree_of_child|done].
Qed.

Lemma delete_item_children_stored u (m : Manager) :
  index_consistent m → children_stored m →
  children_stored (async_delete_item u m).
Proof.
  intros Hcons H. unfold async_delete_item.
  destruct (Dict.get u (_tasks m)) as [stored|] eqn:Hst; [|done].
  destruct (is_parent stored).
  { apply children_stored_notify. by apply remove_parent_children_stored. }
  apply children_stored_notify.
  set (m1 := with_tasks (Dict.pop u (_tasks m)) m).
  set (m2 := match _parent_children m1 !! parent_key stored with
             | Some children =>
                 with_children
                   (<[parent_key stored := children ∖ {[u]}]>
                      (_parent_children m1)) m1
             | None => m1
             end).
  assert (Hkids : ∀ k, children_of k m2
                       = if decide (k = parent_key stored)
                         then children_of k m ∖ {[u]} else children_of k m).
  { intros k. apply (discard_child_children (parent_key stored) u m1 k). }
  assert (Ht2 : _tasks m2 = Dict.pop u (_tasks m)).
  { unfold m2. by destruct (_parent_children m1 !! parent_key stored). }
  clearbody m2. intros k v Hv.
  destruct (refresh_parent_frame stored m2) as (Hc & _).
  unfold children_of in Hv. rewrite Hc in Hv.
  fold (children_of k m2) in Hv. rewrite Hkids in Hv.
  assert (Hin : v ∈ children_of k m ∧ v ≠ u).
  { destruct (decide (k = parent_key stored)) as [->|Hne].
    - set_unfold. tauto.
    - split; [done|]. intros ->. apply Hne. symmetry.
      apply (Hcons k u stored); [by apply subtree_of_child|done]. }
  destruct Hin as [Hin Hvu].
  destruct (H k v Hin) as (t & Hvt & Hp).
  destruct (keeps_tasks_refresh_parent stored m2 v t) as (t' & Ht' & Hp').
  { unfold task_at. rewrite Ht2, get_pop_ne; done. }
  exists t'. split; [done|].
  apply same_but_status_is_parent in Hp'. congruence.
Qed.

Section ChildrenStored.
Variable uuid4 : nat → string.
Hypothesis uuid4_inj : Inj (=) (=) uuid4.

(** Replacing the subtree of a key: the new children are stored under the
    uids drawn for them, and the children of the other keys are neither
    popped nor overwritten. The lemma asks of the meta table only that the
    key is bound, since the callers have just rewritten that entry. *)
Lemma replace_children_stored key plan override (m : Manager) mt :
  (∀ u, is_Some (task_at u m) → u ∈ drawn uuid4 0 (uuids_drawn m)) →
  (∀ k u t, u ∈ children_of k m → task_at u m = Some t → parent_key t = k) →
  children_stored m →
  _parent_meta m !! key = Some mt →
  children_stored (_replace_parent_tasks uuid4 key plan override m).2.
Proof.
  intros Hdrawn Hcons H Hmeta.
  destruct (replace_spec uuid4 key plan override m mt Hmeta)
    as (m' & Hrun & _ & _ & _ & _ & _ & Hc & Hkids & Hold & Hnew).
  destruct (Hnew (drawn_NoDup uuid4 uuid4_inj _ _)) as (_ & Hch).
  rewrite Hrun. simpl. intros k u Hu.
  destruct (decide (k = key)) as [->|Hne].
  - apply Hkids, elem_of_drawn in Hu as (i & Hi & ->).
    destruct (lookup_lt_is_Some_2 (tasks plan) i Hi) as [planned Hpl].
    rewrite (Hch i planned Hpl). by eexists.
  - unfold children_of in Hu. rewrite Hc in Hu by done.
    destruct (H k u Hu) as (t & Ht & Hp). exists t. split; [|done].
    rewrite Hold.
    + rewrite decide_False; [done|]. intros Hin. apply Hne.
      rewrite <- (Hcons key u t Hin Ht). symmetry. by apply (Hcons k u t).
    + apply (drawn_earlier_not_later uuid4 uuid4_inj).
      apply Hdrawn. by rewrite Ht.
Qed.

Variable isoformat : Z → string.
Variable start_of_local_day : Z → Z.
Variable time_text : pytime → string.
Variable planner :
  nat → option string → option string → pytime → pytime → PlannedResponse.
Variable manual_planner :
  nat → string → option string → option Z → option string → PlannedResponse.

Lemma process_children_stored cid key event (m : Manager) :
  well_formed uuid4 m → children_stored m →
  children_stored
    (async_process_calendar_event uuid4 isoformat start_of_local_day planner
       cid key event m).2.
Proof.
  intros [Hcons _ Hstored] H. rewrite process_unfold. cbv zeta.
  destruct (decide _) as [_|_]; [done|].
  match goal with
  | |- context [_replace_parent_tasks uuid4 key ?plan ?due ?base] =>
      pose proof (replace_children_stored key plan due base
                    (mkMeta (Some CALENDAR_SOURCE) (ev_summary event)
                            (mental_load plan) (summary_notes plan) None))
        as Hrep;
      destruct (_replace_parent_tasks uuid4 key plan due base)
        as [[[]|e] m'] eqn:Hrun
  end; simpl in *; apply Hrep; try done.
  - intros k u t Hu Ht. apply (Hcons k u t); [by apply subtree_of_child|done].
  - apply lookup_insert_eq.
  - intros k u t Hu Ht. apply (Hcons k u t); [by apply subtree_of_child|done].
  - apply lookup_insert_eq.
Qed.

Lemma create_children_stored summary description due context (m : Manager) :
  well_formed uuid4 m → children_stored m →
  children_stored
    (async_create_manual_entry uuid4 start_of_local_day manual_planner
       summary description due context m).2.
Proof.
  intros [Hcons _ Hstored] H. unfold async_create_manual_entry.
  destruct (_parse_due start_of_local_day due) as [due_dt|e]; [|done].
  unfold draw_uuid. simpl.
  match goal with
  | |- context [_replace_parent_tasks uuid4 ?key ?plan ?due ?base] =>
      pose proof (replace_children_stored key plan due base
                    (mkMeta (Some MANUAL_SOURCE) (Some summary)
                            (mental_load plan) (summary_notes plan) None))
        as Hrep;
      destruct (_replace_parent_tasks uuid4 key plan due base)
        as [[[]|e] m'] eqn:Hrun
  end; simpl in *.
  - assert (Hm' : children_stored m').
    { apply Hrep; try done.
      - intros u Hu. apply (drawn_mono uuid4 u (uuids_drawn m)); [lia|].
        by apply Hstored.
      - intros k u t Hu Ht.
        apply (Hcons k u t); [by apply subtree_of_child|done].
      - apply lookup_insert_eq. }
    by destruct (_parent_meta m' !! _ ≫= meta_parent_uid).
  - apply Hrep; try done.
    + intros u Hu. apply (drawn_mono uuid4 u (uuids_drawn m)); [lia|].
      by apply Hstored.
    + intros k u t Hu Ht.
      apply (Hcons k u t); [by apply subtree_of_child|done].
    + apply lookup_insert_eq.
Qed.

Lemma run_children_stored intents (m : Manager) :
  well_formed uuid4 m → children_stored m →
  children_stored
    (run_intents uuid4 isoformat start_of_local_day planner intents m).
Proof.
  revert m. induction intents as [|ke intents IH]; intros m Hwf H; [done|].
  rewrite run_cons. apply IH.
  - by apply process_well_formed.
  - by apply process_children_stored.
Qed.

Lemma prune_children_stored (valid : gset string) (m : Manager) :
  well_formed uuid4 m → children_stored m →
  children_stored (remove_missing_calendar_events valid m).2.
Proof.
  intros Hwf H. unfold remove_missing_calendar_events. simpl.
  assert (Hfold : children_stored
            (foldl (λ acc key, _remove_parent key acc) m (to_remove valid m))).
  { generalize (to_remove valid m). intros ks. revert m Hwf H.
    induction ks as [|k ks IH]; intros m Hwf H; [done|].
    simpl. apply IH.
    - by apply remove_parent_well_formed.
    - apply remove_parent_children_stored; [apply Hwf|done]. }
  by destruct (to_remove valid m).
Qed.

Lemma cycle_children_stored sources (m : Manager) :
  well_formed uuid4 m → children_stored m →
  children_stored
    (_async_update_data uuid4 isoformat start_of_local_day time_text planner
       sources m).2.
Proof.
  intros Hwf H.
  destruct (sources_split sources)
    as [(cs & ->)|(before & failing & after & ->)].
  - unfold _async_update_data. destruct cs as [|c cs]; [done|].
    change (fetched (c :: cs)) with ((c.1, Some c.2) :: fetched cs) at 1.
    cbv iota. change ((c.1, Some c.2) :: fetched cs) with (fetched (c :: cs)).
    rewrite process_calendars_run. simpl.
    apply prune_children_stored.
    + by apply run_well_formed.
    + by apply run_children_stored.
  - rewrite cycle_fail. by apply run_children_stored.
Qed.

Lemma reachable_children_stored (m : Manager) :
  reachable uuid4 isoformat start_of_local_day time_text planner
            manual_planner m →
  children_stored m.
Proof.
  unfold reachable. revert m.
  apply (rtc_ind_r
           (R := step uuid4 isoformat start_of_local_day time_text planner
                      manual_planner)
           (λ m, children_stored m) new_manager).
  { apply children_stored_new. }
  intros m m' Hreach Hstep H.
  assert (Hwf : well_formed uuid4 m)
    by (by eapply reachable_well_formed).
  destruct Hstep.
  - by apply cycle_children_stored.
  - by apply create_children_stored.
  - by apply update_item_children_stored.
  - apply delete_item_children_stored; [apply Hwf|done].
Qed.
End ChildrenStored.

Lemma refresh_parent_notified stored (m : Manager) :
  notified (refresh_parent stored m) = notified m.
Proof.
  unfold refresh_parent.
  destruct (parent_uid_of stored) as [p|]; [|done].
  destruct (truthy (Some p)); [|done].
  by destruct (Dict.get p (_tasks m)).
Qed.

(** An update whose parent's children are all stored returns normally and
    notifies once; an update of an unknown uid changes nothing. *)
Lemma update_item_returns it (m : Manager) :
  children_stored m →
  ∃ m', async_update_item it m = (Ok tt, m') ∧
        notified m'
          = match task_at (uid it) m with
            | Some _ => S (notified m)
            | None => notified m
            end ∧
        (task_at (uid it) m = None → m' = m) ∧
        _parent_meta m' = _parent_meta m ∧
        _event_signatures m' = _event_signatures m.
Proof.
  intros H. unfold async_update_item, task_at.
  destruct (Dict.get (uid it) (_tasks m)) as [stored|] eqn:Hst;
    [|by exists m].
  set (new_status := default NEEDS_ACTION (status it)).
  set (m1 := with_tasks (Dict.replace (uid it)
                 (set_item_status new_status stored) (_tasks m)) m).
  assert (H1 : keeps_tasks m m1).
  { apply (keeps_tasks_replace (uid it) (set_item_status _)); [done|].
    right. eauto. }
  destruct (is_parent stored).
  - assert (Hloop : ∀ f, ∃ m2,
              update_children f
                (elements (children_of (parent_key stored) m1)) m1
                = (Ok tt, m2) ∧ notified m2 = notified m ∧
              _parent_meta m2 = _parent_meta m ∧
              _event_signatures m2 = _event_signatures m).
    { intros f.
      destruct (update_children_spec f
                  (elements (children_of (parent_key stored) m1)) m1)
        as (m2 & Hrun & _ & Hm & Hs & Hn & _).
      - apply NoDup_elements.
      - intros u Hu%elem_of_elements.
        destruct (H (parent_key stored) u Hu) as (t & Ht & _).
        destruct (H1 u t Ht) as (t' & Ht' & _). by rewrite Ht'.
      - by exists m2. }
    destruct new_status.
    + destruct (Hloop reopen) as (m2 & -> & Hn & Hm & Hs).
      eexists. split; [done|]. simpl. by rewrite Hn.
    + eexists. split; [done|]. done.
    + destruct (Hloop (set_item_status COMPLETED)) as (m2 & -> & Hn & Hm & Hs).
      eexists. split; [done|]. simpl. by rewrite Hn.
  - eexists. split; [done|]. simpl. rewrite refresh_parent_notified.
    destruct (refresh_parent_frame (set_item_status new_status stored) m1)
      as (_ & -> & -> & _).
    done.
Qed.

(** X15. In every state the manager can reach, async_update_item returns
    normally for any item: a child set never names a missing task there.
    An item with an unknown uid changes nothing and notifies nobody; a
    known one notifies the listeners exactly once. An update never adds or
    removes a task and never touches the indexes: it changes statuses
    only. *)
Theorem X15_update_never_raises_in_reachable_states
    (uuid4 : nat → string) (isoformat : Z → string)
    (start_of_local_day : Z → Z) (time_text : pytime → string)
    (planner : nat → option string → option string → pytime → pytime
               → PlannedResponse)
    (manual_planner : nat → string → option string → option Z
                      → option string → PlannedResponse)
    (it : TodoItem) (m : Manager) :
  Inj (=) (=) uuid4 →
  reachable uuid4 isoformat start_of_local_day time_text planner
            manual_planner m →
  ∃ m',
    async_update_item it m = (Ok tt, m') ∧
    notified m'
      = match task_at (uid it) m with
        | Some _ => S (notified m)
        | None => notified m
        end ∧
    (task_at (uid it) m = None → m' = m) ∧
    _parent_children m' = _parent_children m ∧
    _parent_meta m' = _parent_meta m ∧
    _event_signatures m' = _event_signatures m ∧
    (∀ u, task_at u m' = None ↔ task_at u m = None) ∧
    (∀ u t t', task_at u m = Some t → task_at u m' = Some t' →
               same_but_status t t').
Proof.
  intros Hinj Hreach.
  assert (H : children_stored m)
    by (by eapply reachable_children_stored).
  destruct (update_item_returns it m H)
    as (m' & Hrun & Hn & Hunknown & Hm & Hs).
  destruct (update_item_keeps it m) as (Hkeep & Hc).
  destruct (shrinks_update_item it m) as (_ & _ & Hback).
  rewrite Hrun in Hkeep, Hc, Hback. simpl in Hkeep, Hc, Hback.
  exists m'. split_and!; try done.
  - intros u. split.
    + intros Hnone. destruct (task_at u m) as [t|] eqn:Ht; [|done].
      destruct (Hkeep u t Ht) as (t' & Ht' & _). congruence.
    + intros Hnone. destruct (task_at u m') as [t'|] eqn:Ht'; [|done].
      destruct (Hback u t' Ht') as (t & Ht & _). congruence.
  - intros u t t' Ht Ht'. destruct (Hkeep u t Ht) as (t2 & Ht2 & Hsame).
    congruence.
Qed.

Lemma X15_witness :
  ∃ m',
    async_update_item
      (mkTodoItem "Taxes" (demo_uuid4 1) None (Some COMPLETED) None None)
      first_request = (Ok tt, m') ∧
    _parent_children m' = _parent_children first_request ∧
    (∀ u, task_at u m' = None ↔ task_at u first_request = None).
Proof.
  destruct (X15_update_never_raises_in_reachable_states
              demo_uuid4 demo_isoformat demo_start_of_local_day
              demo_time_text demo_planner demo_manual_planner
              (mkTodoItem "Taxes" (demo_uuid4 1) None (Some COMPLETED)
                          None None)
              first_request demo_uuid4_inj first_request_reachable)
    as (m' & Hrun & _ & _ & Hc & _ & _ & Hdom & _).
  exists m'. split; [exact Hrun|]. split; [exact Hc|exact Hdom].
Defined.

(** ** What the prune step counts *)

Lemma to_remove_NoDup (valid : gset string) (m : Manager) :
  NoDup (to_remove valid m).
Proof.
  unfold to_remove. apply NoDup_filter. apply NoDup_fst_map_to_list.
Qed.

(** X17. remove_missing_calendar_events returns the number of keys it
    removed: the meta table has that many entries fewer afterwards. The
    listeners are notified once when the number is positive and not at
    all when it is zero, in which case nothing has changed; and it is zero
    exactly when every calendar key of the meta table is in the valid
    set. *)
Theorem X17_prune_returns_the_number_of_removed_keys
    (valid : gset string) (m : Manager) :
  let removed := (remove_missing_calendar_events valid m).1 in
  let m' := (remove_missing_calendar_events valid m).2 in
  (size (_parent_meta m') + removed = size (_parent_meta m))%nat ∧
  notified m' = (if decide (removed = 0%nat) then notified m
                 else S (notified m)) ∧
  (removed = 0%nat → m' = m) ∧
  (removed = 0%nat ↔
   ∀ key, is_Some (_parent_meta m !! key) →
          String.prefix "calendar:" key = true → key ∈ valid).
Proof.
  intros removed m'.
  destruct (remove_parents_spec (to_remove valid m) m)
    as (_ & Hm & _ & _ & _ & Hn & _).
  set (ks := to_remove valid m) in *.
  set (m1 := foldl (λ acc key, _remove_parent key acc) m ks) in *.
  assert (Hremoved : removed = length ks) by done.
  assert (Hmeta : _parent_meta m' = _parent_meta m1).
  { unfold m', remove_missing_calendar_events. simpl. fold ks m1.
    by destruct ks. }
  assert (Hdom : dom (_parent_meta m1)
                 = dom (_parent_meta m) ∖ list_to_set ks).
  { apply set_eq. intros k.
    rewrite elem_of_difference, !elem_of_dom, elem_of_list_to_set, Hm.
    destruct (decide (k ∈ ks)) as [Hin|Hnot].
    - split; [by intros []|tauto].
    - tauto. }
  assert (Hsub : list_to_set ks ⊆ dom (_parent_meta m)).
  { intros k Hk%elem_of_list_to_set.
    apply elem_of_to_remove in Hk as (Hsome & _). by apply elem_of_dom. }
  assert (Hsize : size (list_to_set (C := gset string) ks) = length ks).
  { apply size_list_to_set, to_remove_NoDup. }
  split_and!.
  - rewrite Hmeta, Hremoved, <- !size_dom, Hdom.
    rewrite size_difference by done. rewrite Hsize.
    apply subseteq_size in Hsub. rewrite Hsize in Hsub. lia.
  - unfold m', remove_missing_calendar_events. simpl. fold ks m1.
    rewrite Hremoved. destruct ks; simpl; [done|]. by rewrite Hn.
  - rewrite Hremoved. intros Hzero. apply length_zero_iff_nil in Hzero.
    unfold m'. by rewrite prune_nothing.
  - rewrite Hremoved. split.
    + intros Hzero key Hsome Hprefix.
      destruct (decide (key ∈ valid)) as [|Hnot]; [done|]. exfalso.
      assert (Hin : key ∈ ks) by (by apply elem_of_to_remove).
      apply length_zero_iff_nil in Hzero. rewrite Hzero in Hin.
      by apply elem_of_nil in Hin.
    + intros Hall. destruct ks as [|k ks'] eqn:Hks; [done|]. exfalso.
      assert (Hin : k ∈ to_remove valid m).
      { fold ks. rewrite Hks. left. }
      apply elem_of_to_remove in Hin as (Hsome & Hprefix & Hnot).
      by apply Hnot, Hall.
Qed.

(** ** The child index and the store agree *)

Lemma children_indexed_new : children_indexed new_manager.
Proof. intros u t Ht. done. Qed.

Lemma update_item_children_indexed it (m : Manager) :
  children_indexed m → children_indexed (async_update_item it m).2.
Proof.
  intros H u t' Ht' Hp'.
  destruct (update_item_keeps it m) as (Hkeep & Hc).
  destruct (shrinks_update_item it m) as (_ & _ & Hback).
  destruct (Hback u t' Ht') as (t & Ht & Hk).
  destruct (Hkeep u t Ht) as (t2 & Ht2 & Hsame).
  assert (t2 = t') as -> by congruence.
  apply same_but_status_is_parent in Hsame.
  unfold children_of. rewrite Hc, <- Hk. apply (H u t Ht). congruence.
Qed.

Lemma remove_parent_children_indexed key (m : Manager) :
  children_indexed m → children_indexed (_remove_parent key m).
Proof.
  intros H u t Ht Hp.
  destruct (remove_parent_spec key m) as (Hc & _ & _ & _ & _ & _ & Htask).
  rewrite Htask in Ht.
  destruct (decide (u ∈ subtree_uids key m)) as [|Hnot]; [done|].
  pose proof (H u t Ht Hp) as Hin.
  unfold children_of. rewrite Hc.
  rewrite lookup_delete_ne; [done|].
  intros Heq. apply Hnot, subtree_of_child. by rewrite Heq.
Qed.

Lemma delete_item_children_indexed u (m : Manager) :
  children_indexed m → children_indexed (async_delete_item u m).
Proof.
  intros H. unfold async_delete_item.
  destruct (Dict.get u (_tasks m)) as [stored|] eqn:Hst; [|done].
  destruct (is_parent stored).
  { intros v t Ht Hp. by apply (remove_parent_children_indexed _ _ H v t). }
  set (m1 := with_tasks (Dict.pop u (_tasks m)) m).
  set (m2 := match _parent_children m1 !! parent_key stored with
             | Some children =>
                 with_children
                   (<[parent_key stored := children ∖ {[u]}]>
                      (_parent_children m1)) m1
             | None => m1
             end).
  assert (Hkids : ∀ k, children_of k m2
                       = if decide (k = parent_key stored)
                         then children_of k m ∖ {[u]} else children_of k m).
  { intros k. apply (discard_child_children (parent_key stored) u m1 k). }
  assert (Ht2 : _tasks m2 = Dict.pop u (_tasks m)).
  { unfold m2. by destruct (_parent_children m1 !! parent_key stored). }
  clearbody m2. intros v t' Hv Hp'.
  change (task_at v (refresh_parent stored m2) = Some t') in Hv.
  destruct (refresh_parent_frame stored m2) as (Hc & _ & _ & Hframe).
  assert (Hold : ∃ t, task_at v m2 = Some t ∧ is_parent t = is_parent t' ∧
                      parent_key t = parent_key t').
  { destruct (Hframe v) as [Heq|(_ & t & s & Ht & Ht')].
    - exists t'. by rewrite <- Heq.
    - exists t. rewrite Hv in Ht'. injection Ht' as ->. done. }
  destruct Hold as (t & Ht & Hp & Hk).
  unfold task_at in Ht. rewrite Ht2 in Ht.
  assert (Hvu : v ≠ u).
  { intros ->. by rewrite get_pop_eq in Ht. }
  rewrite get_pop_ne in Ht by done.
  assert (Hin : v ∈ children_of (parent_key t) m).
  { apply (H v t Ht). congruence. }
  change (v ∈ children_of (parent_key t') (refresh_parent stored m2)).
  unfold children_of. rewrite Hc. fold (children_of (parent_key t') m2).
  rewrite Hkids, <- Hk.
  destruct (decide (parent_key t = parent_key stored)); [|done].
  set_unfold. tauto.
Qed.

Section ChildrenIndexed.
Variable uuid4 : nat → string.
Hypothesis uuid4_inj : Inj (=) (=) uuid4.

Lemma replace_children_indexed key plan override (m : Manager) mt :
  children_indexed m →
  _parent_meta m !! key = Some mt →
  children_indexed (_replace_parent_tasks uuid4 key plan override m).2.
Proof.
  intros H Hmeta.
  destruct (replace_spec uuid4 key plan override m mt Hmeta)
    as (m' & Hrun & _ & _ & _ & _ & _ & Hc & Hkids & Hold & Hnew).
  destruct (Hnew (drawn_NoDup uuid4 uuid4_inj _ _))
    as ((parent & Hpar & Hip & _) & Hch).
  rewrite Hrun. simpl. intros u t' Hu Hp.
  destruct (decide (u ∈ drawn uuid4 (uuids_drawn m)
                          (S (length (tasks plan))))) as [Hin|Hnot].
  - rewrite drawn_S in Hin. apply elem_of_cons in Hin as [->|Hin].
    { congruence. }
    pose proof Hin as Hkid. apply elem_of_drawn in Hin as (i & Hi & ->).
    destruct (lookup_lt_is_Some_2 (tasks plan) i Hi) as [planned Hpl].
    rewrite (Hch i planned Hpl) in Hu. injection Hu as <-. simpl.
    by apply Hkids.
  - rewrite Hold in Hu by done.
    destruct (decide (u ∈ children_of key m)) as [|Hnk]; [done|].
    pose proof (H u t' Hu Hp) as Hin.
    unfold children_of. rewrite Hc; [done|].
    intros Heq. apply Hnk. by rewrite <- Heq.
Qed.

Variable isoformat : Z → string.
Variable start_of_local_day : Z → Z.
Variable time_text : pytime → string.
Variable planner :
  nat → option string → option string → pytime → pytime → PlannedResponse.
Variable manual_planner :
  nat → string → option string → option Z → option string → PlannedResponse.

Lemma process_children_indexed cid key event (m : Manager) :
  children_indexed m →
  children_indexed
    (async_process_calendar_event uuid4 isoformat start_of_local_day planner
       cid key event m).2.
Proof.
  intros H. rewrite process_unfold. cbv zeta.
  destruct (decide _) as [_|_]; [done|].
  match goal with
  | |- context [_replace_parent_tasks uuid4 key ?plan ?due ?base] =>
      pose proof (replace_children_indexed key plan due base
                    (mkMeta (Some CALENDAR_SOURCE) (ev_summary event)
                            (mental_load plan) (summary_notes plan) None))
        as Hrep;
      destruct (_replace_parent_tasks uuid4 key plan due base)
        as [[[]|e] m'] eqn:Hrun
  end; simpl in *; apply Hrep; try done; apply lookup_insert_eq.
Qed.

Lemma create_children_indexed summary description due context (m : Manager) :
  children_indexed m →
  children_indexed
    (async_create_manual_entry uuid4 start_of_local_day manual_planner
       summary description due context m).2.
Proof.
  intros H. unfold async_create_manual_entry.
  destruct (_parse_due start_of_local_day due) as [due_dt|e]; [|done].
  unfold draw_uuid. simpl.
  match goal with
  | |- context [_replace_parent_tasks uuid4 ?key ?plan ?due ?base] =>
      pose proof (replace_children_indexed key plan due base
                    (mkMeta (Some MANUAL_SOURCE) (Some summary)
                            (mental_load plan) (summary_notes plan) None))
        as Hrep;
      destruct (_replace_parent_tasks uuid4 key plan due base)
        as [[[]|e] m'] eqn:Hrun
  end; simpl in *.
  - assert (Hm' : children_indexed m')
      by (apply Hrep; [done|apply lookup_insert_eq]).
    by destruct (_parent_meta m' !! _ ≫= meta_parent_uid).
  - apply Hrep; [done|apply lookup_insert_eq].
Qed.

Lemma run_children_indexed intents (m : Manager) :
  children_indexed m →
  children_indexed
    (run_intents uuid4 isoformat start_of_local_day planner intents m).
Proof.
  revert m. induction intents as [|ke intents IH]; intros m H; [done|].
  rewrite run_cons. apply IH. by apply process_children_indexed.
Qed.

Lemma prune_children_indexed (valid : gset string) (m : Manager) :
  children_indexed m →
  children_indexed (remove_missing_calendar_events valid m).2.
Proof.
  intros H. unfold remove_missing_calendar_events. simpl.
  assert (Hfold : children_indexed
            (foldl (λ acc key, _remove_parent key acc) m (to_remove valid m))).
  { generalize (to_remove valid m). intros ks. revert m H.
    induction ks as [|k ks IH]; intros m H; [done|].
    simpl. apply IH. by apply remove_parent_children_indexed. }
  by destruct (to_remove valid m).
Qed.

Lemma cycle_children_indexed sources (m : Manager) :
  children_indexed m →
  children_indexed
    (_async_update_data uuid4 isoformat start_of_local_day time_text planner
       sources m).2.
Proof.
  intros H.
  destruct (sources_split sources)
    as [(cs & ->)|(before & failing & after & ->)].
  - unfold _async_update_data. destruct cs as [|c cs]; [done|].
    change (fetched (c :: cs)) with ((c.1, Some c.2) :: fetched cs) at 1.
    cbv iota. change ((c.1, Some c.2) :: fetched cs) with (fetched (c :: cs)).
    rewrite process_calendars_run. simpl.
    apply prune_children_indexed. by apply run_children_indexed.
  - rewrite cycle_fail. by apply run_children_indexed.
Qed.

Lemma reachable_children_indexed (m : Manager) :
  reachable uuid4 isoformat start_of_local_day time_text planner
            manual_planner m →
  children_indexed m.
Proof.
  unfold reachable. revert m.
  apply (rtc_ind_r
           (R := step uuid4 isoformat start_of_local_day time_text planner
                      manual_planner)
           (λ m, children_indexed m) new_manager).
  { apply children_indexed_new. }
  intros m m' _ Hstep H. destruct Hstep.
  - by apply cycle_children_indexed.
  - by apply create_children_indexed.
  - by apply update_item_children_indexed.
  - by apply delete_item_children_indexed.
Qed.
End ChildrenIndexed.

(** X18. In every state the manager can reach, the child index and the
    store agree on the child tasks: a uid is a member of the child set of
    a key exactly when the store holds under it a task that is not a
    parent and carries that key. *)
Theorem X18_child_index_agrees_with_the_store
    (uuid4 : nat → string) (isoformat : Z → string)
    (start_of_local_day : Z → Z) (time_text : pytime → string)
    (planner : nat → option string → option string → pytime → pytime
               → PlannedResponse)
    (manual_planner : nat → string → option string → option Z
                      → option string → PlannedResponse)
    (m : Manager) :
  Inj (=) (=) uuid4 →
  reachable uuid4 isoformat start_of_local_day time_text planner
            manual_planner m →
  ∀ key u,
    u ∈ children_of key m ↔
    ∃ t, task_at u m = Some t ∧ is_parent t = false ∧ parent_key t = key.
Proof.
  intros Hinj Hreach key u.
  assert (Hwf : well_formed uuid4 m)
    by (by eapply reachable_well_formed).
  assert (Hst : children_stored m)
    by (by eapply reachable_children_stored).
  assert (Hidx : children_indexed m)
    by (by eapply reachable_children_indexed).
  split.
  - intros Hu. destruct (Hst key u Hu) as (t & Ht & Hp).
    exists t. split_and!; [done|done|].
    apply (wf_consistent _ _ Hwf key u t); [by apply subtree_of_child|done].
  - intros (t & Ht & Hp & <-). by apply Hidx.
Qed.

Lemma X18_witness :
  demo_uuid4 2 ∈ children_of first_request_key first_request ↔
  ∃ t, task_at (demo_uuid4 2) first_request = Some t ∧
       is_parent t = false ∧ parent_key t = first_request_key.
Proof.
  apply (X18_child_index_agrees_with_the_store
           demo_uuid4 demo_isoformat demo_start_of_local_day demo_time_text
           demo_planner demo_manual_planner first_request
           demo_uuid4_inj first_request_reachable).
Defined.

(** X19. In every state the manager can reach, deleting a parent task
    leaves no child task of its key behind: a task that still carries the
    key afterwards is a parent task that was stored before and that the
    indexes of the key did not refer to. *)
Theorem X19_deleting_a_parent_leaves_no_child_behind
    (uuid4 : nat → string) (isoformat : Z → string)
    (start_of_local_day : Z → Z) (time_text : pytime → string)
    (planner : nat → option string → option string → pytime → pytime
               → PlannedResponse)
    (manual_planner : nat → string → option string → option Z
                      → option string → PlannedResponse)
    (u : string) (m : Manager) (stored : StoredTask) :
  Inj (=) (=) uuid4 →
  reachable uuid4 isoformat start_of_local_day time_text planner
            manual_planner m →
  task_at u m = Some stored →
  is_parent stored = true →
  let m' := async_delete_item u m in
  children_of (parent_key stored) m' = ∅ ∧
  ∀ v t, task_at v m' = Some t → parent_key t = parent_key stored →
         is_parent t = true ∧ task_at v m = Some t ∧
         v ∉ subtree_uids (parent_key stored) m.
Proof.
  intros Hinj Hreach Hst Hpar m'.
  assert (Hreach' : reachable uuid4 isoformat start_of_local_day time_text
                      planner manual_planner m').
  { eapply rtc_r; [exact Hreach|]. apply step_delete. }
  assert (Hidx : children_indexed m')
    by (by eapply reachable_children_indexed).
  assert (Hm' : m' = _notify_listeners (_remove_parent (parent_key stored) m)).
  { unfold m', async_delete_item. unfold task_at in Hst.
    by rewrite Hst, Hpar. }
  destruct (remove_parent_spec (parent_key stored) m)
    as (Hc & _ & _ & _ & _ & _ & Ht).
  assert (Hempty : children_of (parent_key stored) m' = ∅).
  { rewrite Hm'. unfold children_of. simpl. rewrite Hc.
    by rewrite lookup_delete_eq. }
  split; [done|]. intros v t Hv Hk.
  assert (Hold : task_at v (_remove_parent (parent_key stored) m) = Some t)
    by (by rewrite Hm' in Hv).
  rewrite Ht in Hold.
  destruct (decide (v ∈ subtree_uids (parent_key stored) m)); [done|].
  split_and!; [|done|done].
  destruct (is_parent t) eqn:Hp; [done|]. exfalso.
  pose proof (Hidx v t Hv Hp) as Hin. rewrite Hk, Hempty in Hin.
  by apply elem_of_empty in Hin.
Qed.

Lemma X19_witness :
  let m' := async_delete_item (demo_uuid4 1) first_request in
  children_of first_request_key m' = ∅ ∧
  ∀ v t, task_at v m' = Some t → parent_key t = first_request_key →
         is_parent t = true ∧ task_at v first_request = Some t ∧
         v ∉ subtree_uids first_request_key first_request.
Proof.
  apply (X19_deleting_a_parent_leaves_no_child_behind
           demo_uuid4 demo_isoformat demo_start_of_local_day demo_time_text
           demo_planner demo_manual_planner (demo_uuid4 1) first_request
           (default blank_task (task_at (demo_uuid4 1) first_request))
           demo_uuid4_inj first_request_reachable).
  - reflexivity.
  - reflexivity.
Defined.

(** ** A manual request planned without a backend *)

(** X20. When the client has no API key, a manual request gets the
    fallback plan installed: the call returns the uid of the new parent,
    which is stored IN_PROGRESS and due at the parsed due of the request;
    its key gets exactly three children, all NEEDS_ACTION. The children
    are due at what the client parsed back from the due it was sent, and
    at the due of the parent when that gives no datetime; without a due
    neither the parent nor the children have one. *)
Theorem X20_manual_request_without_api_key_gets_three_steps
    (uuid4 : nat → string) (start_of_local_day : Z → Z)
    (str_lower : string → string) (parse_as_utc : string → parsed)
    (PROVIDER_GEMINI : string)
    (_async_generate_with_gemini _async_generate_with_openai
       : Payload → backend_answer)
    (utc_isoformat : pytime → attempt string)
    (api_key : option string) (provider : string)
    (manual_planner : nat → string → option string → option Z
                      → option string → PlannedResponse)
    (request : string) (details : option string) (due_value : due_value)
    (due_dt : option Z) (context : option string) (m : Manager) :
  let plan := manual_planner (plans_requested m) request details due_dt
                context in
  let key := "manual:" +:+ uuid4 (uuids_drawn m) in
  let parent_uid := uuid4 (S (uuids_drawn m)) in
  _parse_due start_of_local_day due_value = Ok due_dt →
  truthy api_key = false →
  async_plan_for_manual_request str_lower parse_as_utc PROVIDER_GEMINI
    _async_generate_with_gemini _async_generate_with_openai utc_isoformat
    api_key provider request details due_dt context = Returned plan →
  NoDup (drawn uuid4 (S (uuids_drawn m)) 4) →
  ∃ m' parent base_due,
    async_create_manual_entry uuid4 start_of_local_day manual_planner
      request details due_value context m = (Ok parent_uid, m') ∧
    task_at parent_uid m' = Some parent ∧
    status (item parent) = Some IN_PROGRESS ∧
    due (item parent) = due_dt ∧
    size (children_of key m') = 3%nat ∧
    match due_dt with
    | Some z =>
        ∃ text, utc_isoformat (PyDatetime z) = Returned text ∧
                _parse_dt parse_as_utc (PvStr text) = Returned base_due
    | None => base_due = None
    end ∧
    (∀ c, c ∈ children_of key m' →
          ∃ t, task_at c m' = Some t ∧
               status (item t) = Some NEEDS_ACTION ∧
               due (item t) = dt_or base_due due_dt).
Proof.
  intros plan key parent_uid Hdue_dt Hkey Hai Hnd.
  unfold async_plan_for_manual_request in Hai.
  assert (Hbase : ∃ base,
            tasks plan
              = (λ td : string * option string,
                   mkPlannedTask td.1 td.2 base None None None)
                <$> _default_breakdown str_lower (str_or (Some request) "Aufgabe")
                      details ∧
            match due_dt with
            | Some z =>
                ∃ text, utc_isoformat (PyDatetime z) = Returned text ∧
                        _parse_dt parse_as_utc (PvStr text) = Returned base
            | None => base = None
            end).
  { unfold _async_generate_plan in Hai. rewrite Hkey in Hai. simpl in Hai.
    unfold _fallback_plan in Hai. simpl in Hai.
    destruct due_dt as [z|]; simpl in Hai.
    - destruct (utc_isoformat (PyDatetime z)) as [text|] eqn:Htext; [|done].
      simpl in Hai.
      destruct (parse_as_utc text) as [utc| |] eqn:Hparse; simpl in Hai.
      + injection Hai as <-. exists (Some utc). split; [done|].
        exists text. simpl. by rewrite Hparse.
      + injection Hai as <-. exists None. split; [done|].
        exists text. simpl. by rewrite Hparse.
      + done.
    - injection Hai as <-. by exists None. }
  destruct Hbase as (base & Htasks & Hdue).
  destruct (default_breakdown_shape str_lower (str_or (Some request) "Aufgabe")
              details) as (t1 & t2 & t3 & Hshape).
  rewrite Hshape in Htasks. simpl in Htasks.
  assert (Hlen : length (tasks plan) = 3%nat) by (by rewrite Htasks).
  unfold async_create_manual_entry. rewrite Hdue_dt.
  unfold draw_uuid. simpl.
  fold plan key.
  set (mt := mkMeta (Some MANUAL_SOURCE) (Some request) (mental_load plan)
               (summary_notes plan) None).
  match goal with
  | |- context [_replace_parent_tasks uuid4 key plan due_dt ?base] =>
      set (m0 := base)
  end.
  destruct (replace_spec uuid4 key plan due_dt m0 mt)
    as (m' & Hrun & Hd & Hm & Hs & Hn & Hp & Hc & Hkids & Hold & Hnew).
  { unfold m0. simpl. apply lookup_insert_eq. }
  change (uuids_drawn m0) with (S (uuids_drawn m)) in *.
  rewrite Hlen in Hnew, Hkids.
  destruct (Hnew Hnd)
    as ((parent & Hpar & Hip & Hpk & _ & Hsum & Hpdue & Hst) & Hch).
  rewrite Hrun. rewrite Hm, lookup_insert_eq. simpl.
  exists m', parent, base. split_and!.
  - done.
  - done.
  - rewrite Hst. by rewrite Htasks.
  - done.
  - apply (size_of_drawn_set uuid4 _ (S (S (uuids_drawn m)))); [done|].
    rewrite drawn_S in Hnd. by apply NoDup_cons in Hnd as [_ ?].
  - done.
  - intros c Hc'. apply Hkids, elem_of_drawn in Hc' as (i & Hi & ->).
    rewrite <- Hlen in Hi.
    destruct (lookup_lt_is_Some_2 (tasks plan) i Hi) as [planned Hpl].
    rewrite (Hch i planned Hpl). eexists. split; [done|]. split; [done|].
    simpl. f_equal.
    apply list_elem_of_lookup_2 in Hpl. rewrite Htasks in Hpl.
    set_unfold. by destruct Hpl as [->|[->|[->|[]]]].
Qed.

Lemma X20_witness :
  ∃ m' parent,
    async_create_manual_entry demo_uuid4 demo_start_of_local_day
      offline_manual_planner "Taxes" None (DueDatetime 200) None new_manager
      = (Ok (demo_uuid4 1), m') ∧
    task_at (demo_uuid4 1) m' = Some parent ∧
    status (item parent) = Some IN_PROGRESS ∧
    due (item parent) = Some 200 ∧
    size (children_of first_request_key m') = 3%nat.
Proof.
  destruct (X20_manual_request_without_api_key_gets_three_steps
              demo_uuid4 demo_start_of_local_day
              ascii_lower offline_parse "gemini" failing_backend
              failing_backend offline_utc_isoformat None "openai"
              offline_manual_planner "Taxes" None (DueDatetime 200)
              (Some 200) None new_manager)
    as (m' & parent & base & Hrun & Hpar & Hst & Hdue & Hsize & _).
  - reflexivity.
  - reflexivity.
  - reflexivity.
  - apply (bool_decide_unpack _). vm_compute. exact I.
  - exists m', parent.
    split; [exact Hrun|]. split; [exact Hpar|]. split; [exact Hst|].
    split; [exact Hdue|exact Hsize].
Defined.
